(** * Robot Data Management: the format registry and the conversion engine

    A shallow embedding of [rdm/core/__init__.py] and of the seven codecs of
    [rdm/formats], with the file system, the log and the exceptions made
    explicit, and the properties of the specification proved about it. *)

From Stdlib Require Import ZArith Ascii String List Bool Lia.
From stdpp Require Import base option list gmap strings sorting.

Open Scope string_scope.
Open Scope list_scope.

(** ** Format identifiers ([class FormatType(Enum)]) *)

Inductive FormatType :=
| HDF5 | ZARR | RLDS | LEROBOT | JSON | PICKLE | NUMPY | AUTO.

#[global] Instance FormatType_eq_dec : EqDecision FormatType.
Proof. solve_decision. Defined.

Definition FormatType_code (f : FormatType) : nat :=
  match f with
  | HDF5 => 0 | ZARR => 1 | RLDS => 2 | LEROBOT => 3
  | JSON => 4 | PICKLE => 5 | NUMPY => 6 | AUTO => 7
  end.

Definition FormatType_of_code (n : nat) : option FormatType :=
  match n with
  | 0 => Some HDF5 | 1 => Some ZARR | 2 => Some RLDS | 3 => Some LEROBOT
  | 4 => Some JSON | 5 => Some PICKLE | 6 => Some NUMPY | 7 => Some AUTO
  | _ => None
  end.

#[global] Instance FormatType_countable : Countable FormatType.
Proof.
  apply (inj_countable FormatType_code FormatType_of_code).
  intros []; reflexivity.
Defined.

(** ** Strings and paths (the parts of [str] and [pathlib] the code uses) *)

Definition chars (s : string) : list ascii := list_ascii_of_string s.
Definition of_chars (l : list ascii) : string := string_of_list_ascii l.

(** [str.lower] on the ASCII range. *)
Definition lower_char (c : ascii) : ascii :=
  let n := nat_of_ascii c in
  if Nat.leb 65 n && Nat.leb n 90 then ascii_of_nat (n + 32) else c.

Definition lower (s : string) : string := of_chars (map lower_char (chars s)).

Definition dot : ascii := "."%char.
Definition slash : ascii := "/"%char.

(** [str.rfind('.')]: the index of the last dot, if any. *)
Fixpoint rfind_dot_from (i : nat) (l : list ascii) : option nat :=
  match l with
  | [] => None
  | c :: l' =>
      match rfind_dot_from (S i) l' with
      | Some j => Some j
      | None => if decide (c = dot) then Some i else None
      end
  end.

Definition rfind_dot (l : list ascii) : option nat := rfind_dot_from 0 l.

(** [PurePath.suffix] of a file name:
    [i = name.rfind('.'); name[i:] if 0 < i < len(name) - 1 else ''] *)
Definition name_suffix (name : string) : string :=
  let l := chars name in
  match rfind_dot l with
  | Some i => if Nat.ltb 0 i && Nat.ltb i (length l - 1) then of_chars (drop i l) else ""
  | None => ""
  end.

(** A path is the list of its components below the root. *)
Definition path := list string.

Definition path_name (p : path) : string := List.last p "".
Definition parent (p : path) : path := removelast p.
Definition suffix (p : path) : string := name_suffix (path_name p).

(** The glob pattern ["*" + ext] on a file name. *)
Definition name_matches (ext name : string) : bool :=
  bool_decide (chars ext `suffix_of` chars name).

(** ** Exceptions *)

Inductive exn :=
| FileNotFoundError | FileExistsError | IsADirectoryError | NotADirectoryError
| OSError | ValueError | TypeError | AttributeError | KeyError | IndexError
| UnicodeError | PicklingError | DataValidationError.

#[global] Instance exn_eq_dec : EqDecision exn.
Proof. solve_decision. Defined.

(** ** Python values

    The values the codecs exchange: [Dict[str, Any]] trees whose leaves are
    numpy arrays and scalars.  A dict is the list of its items in insertion
    order (keys are strings, as the type annotations of the code say). *)

Inductive dtype := DBool | DInt | DFloat | DBytes | DUnicode | DObject.

#[global] Instance dtype_eq_dec : EqDecision dtype.
Proof. solve_decision. Defined.

(** An array element.  A float is carried as its 64-bit pattern; an element
    of an object array is carried as the text [str] gives for it. *)
Inductive item :=
| IBool (b : bool) | IInt (n : Z) | IFloat (bits : Z)
| IBytes (s : string) | IStr (s : string) | IObj (repr : string).

#[global] Instance item_eq_dec : EqDecision item.
Proof. solve_decision. Defined.

Record ndarray := mk_array { a_dtype : dtype; a_shape : list nat; a_flat : list item }.

#[global] Instance ndarray_eq_dec : EqDecision ndarray.
Proof. solve_decision. Defined.

#[local] Set Warnings "-register-all".

Inductive pyval :=
| PNone
| PBool (b : bool)
| PInt (n : Z)
| PFloat (bits : Z)
| PStr (s : string)
| PBytes (s : string)
| PList (l : list pyval)
| PTuple (l : list pyval)
| PDict (d : list (string * pyval))
| PArray (a : ndarray)
| POpaque (picklable : bool) (repr : string).   (* an object of any other class *)

Definition is_dict (v : pyval) : bool := match v with PDict _ => true | _ => false end.
Definition is_list (v : pyval) : bool := match v with PList _ => true | _ => false end.

Definition result (A : Type) : Type := exn + A.

(** [data.items()] *)
Definition py_items (v : pyval) : result (list (string * pyval)) :=
  match v with
  | PDict d => inr d
  | _ => inl AttributeError
  end.

(** The first item with the given key. *)
Fixpoint assoc {A} (k : string) (d : list (string * A)) : option A :=
  match d with
  | [] => None
  | (k', v) :: d' => if decide (k = k') then Some v else assoc k d'
  end.

Definition keys {A} (d : list (string * A)) : list string := map fst d.

(** [len(data)] *)
Definition py_len (v : pyval) : result nat :=
  match v with
  | PList l | PTuple l => inr (length l)
  | PDict d => inr (length d)
  | PStr s | PBytes s => inr (String.length s)
  | PArray a => match a_shape a with [] => inl TypeError | n :: _ => inr n end
  | _ => inl TypeError
  end.

(** [data[key]] for a string key *)
Definition py_getitem (v : pyval) (key : string) : result pyval :=
  match v with
  | PDict d => match assoc key d with Some x => inr x | None => inl KeyError end
  | PArray _ => inl IndexError
  | _ => inl TypeError
  end.

(** ** The external libraries

    What numpy, h5py and zarr do with a value is not in this repository; the
    model takes it as given. *)

Class Libs := {
  (** [numpy.array(obj)] for an [obj] that is not an array *)
  np_array : pyval → result ndarray;
  (** [numpy.array(strings, dtype="S")] *)
  np_bytes_array : list string → result ndarray;
  (** [str(x)] for an array element and for an object json cannot encode *)
  str_item : item → string;
  str_bytes : string → string;
  (** [create_dataset(key, data=a, compression=...)] (first argument [true])
      or [create_dataset(key, data=a)] accepts the array *)
  h5_accepts : bool → ndarray → bool;
  zarr_accepts : bool → ndarray → bool;
  (** [key in a] and the truth value of [a == key] for an array [a] *)
  np_contains : string → ndarray → result bool;
  np_eq_str : ndarray → string → result bool;
  (** [numpy.savez_compressed] has the keyword [allow_pickle], as it has in
      later versions of numpy; an item of that name is then no array to
      store *)
  np_savez_allow_pickle : bool;
  (** the truth value [bool(v)] of the object given for [allow_pickle] *)
  np_truth : pyval → result bool;
}.

Section Python.
Context `{Libs}.

(** The truth value of [e == key] for an element of a list *)
Definition elem_eq_str (key : string) (e : pyval) : result bool :=
  match e with
  | PStr s => inr (bool_decide (s = key))
  | PArray a => np_eq_str a key
  | _ => inr false
  end.

Fixpoint any_eq_str (key : string) (l : list pyval) : result bool :=
  match l with
  | [] => inr false
  | e :: l' =>
      match elem_eq_str key e with
      | inl err => inl err
      | inr true => inr true
      | inr false => any_eq_str key l'
      end
  end.

(** [key in data] for a string key *)
Definition py_contains (key : string) (v : pyval) : result bool :=
  match v with
  | PDict d => inr (bool_decide (key ∈ keys d))
  | PList l | PTuple l => any_eq_str key l
  | PStr s => inr (bool_decide (is_Some (String.index 0 key s)))
  | PArray a => np_contains key a
  | _ => inl TypeError
  end.

(** [numpy.asanyarray(obj)] *)
Definition np_asarray (v : pyval) : result ndarray :=
  match v with
  | PArray a => inr a
  | _ => np_array v
  end.

(** [a.tolist()]: nested lists following the shape, of Python scalars. *)
Definition item_to_py (x : item) : pyval :=
  match x with
  | IBool b => PBool b
  | IInt n => PInt n
  | IFloat b => PFloat b
  | IBytes s => PBytes s
  | IStr s => PStr s
  | IObj r => POpaque true r
  end.

Fixpoint chunks {A} (n size : nat) (l : list A) : list (list A) :=
  match n with
  | 0 => []
  | S n' => take size l :: chunks n' size (drop size l)
  end.

Fixpoint nest (shape : list nat) (l : list pyval) : pyval :=
  match shape with
  | [] => List.hd PNone l
  | n :: rest => PList (map (nest rest) (chunks n (fold_right Nat.mul 1 rest) l))
  end.

Definition tolist (a : ndarray) : pyval := nest (a_shape a) (map item_to_py (a_flat a)).

(** What [json.dump(data, f, default=self._json_serializer)] writes, as the
    value [json.load] reads back.  [_json_serializer] turns an array into
    [obj.tolist()] and any other object into [str(obj)]. *)
Definition json_scalar (v : pyval) : pyval :=
  match v with
  | PBytes s => PStr (str_bytes s)
  | POpaque _ r => PStr r
  | _ => v
  end.

Fixpoint json_list (v : pyval) : pyval :=
  match v with
  | PList l => PList (map json_list l)
  | _ => json_scalar v
  end.

Fixpoint to_json (v : pyval) : pyval :=
  match v with
  | PList l | PTuple l => PList (map to_json l)
  | PDict d => PDict (map (λ kv, let '(k, x) := kv in (k, to_json x)) d)
  | PArray a => json_list (tolist a)
  | _ => json_scalar v
  end.

(** [pickle.dumps] succeeds *)
Fixpoint picklable (v : pyval) : bool :=
  match v with
  | PList l | PTuple l => forallb picklable l
  | PDict d => forallb (λ kv, let '(_, x) := kv in picklable x) d
  | POpaque b _ => b
  | _ => true
  end.

End Python.

(** ** Stores, the file system and the log *)

(** A node of an HDF5 file or of a zarr store: a group of named children, in
    creation order, or a dataset. *)
Inductive tree :=
| Group (children : list (string * tree))
| Dataset (a : ndarray).

Abbreviation group := (list (string * tree)).

(** What a path holds.  A file is tagged with what its bytes decode to;
    [RawFile] is a file no codec library can decode, except that the empty
    file is a TFRecord file without records. *)
Inductive node :=
| Dir
| ZarrStore (g : group)
| H5File (g : group)
| JsonFile (v : pyval)
| PickleFile (v : pyval)
| NpyFile (a : ndarray)
| NpzFile (arrays : list (string * ndarray))
| TFRecordFile (records : nat)
| RawFile (bytes : string).

Definition node_is_dir (n : node) : bool :=
  match n with Dir | ZarrStore _ => true | _ => false end.

Inductive LoaderClass :=
| HDF5Loader | ZarrLoader | RLDSLoader | LeRobotLoader
| JSONLoader | PickleLoader | NumPyLoader.

#[global] Instance LoaderClass_eq_dec : EqDecision LoaderClass.
Proof. solve_decision. Defined.

Inductive level := INFO | WARNING | ERROR.

Inductive log_msg :=
| LoadOk (c : LoaderClass) (p : path)
| LoadFailed (c : LoaderClass) (p : path) (e : exn)
| SaveOk (c : LoaderClass) (p : path)
| SaveFailed (c : LoaderClass) (p : path) (e : exn)
| ValidationFailed (c : LoaderClass) (e : exn)
| CompressFailed (key : string) (e : exn)
| Converted (source target : path)
| ConvertFailed (source : path) (e : exn).

Abbreviation log_entry := (level * log_msg)%type.

(** The calls that reach the file system, in the order they are made. *)
Inductive io_event :=
| IOStat (p : path)
| IOMkdir (p : path)
| IOWalk (p : path)
| IORead (p : path)
| IOWrite (p : path).

Record state := mk_state {
  fs : gmap path node;
  log : list log_entry;
  io : list io_event;
}.

(** The root directory is always there. *)
Definition node_at (m : gmap path node) (p : path) : option node :=
  match p with
  | [] => Some Dir
  | _ => m !! p
  end.

Definition is_dir (m : gmap path node) (p : path) : bool :=
  match node_at m p with Some n => node_is_dir n | None => false end.

Definition is_file (m : gmap path node) (p : path) : bool :=
  match node_at m p with Some n => negb (node_is_dir n) | None => false end.

Definition path_in (m : gmap path node) (p : path) : bool :=
  bool_decide (is_Some (node_at m p)).

(** ** The monad of the code: a state, and a result or an exception *)

Definition SE (S A : Type) : Type := S → result A * S.

#[global] Instance SE_ret {S} : MRet (SE S) := λ A x s, (inr x, s).

#[global] Instance SE_bind {S} : MBind (SE S) := λ A B f m s,
  match m s with
  | (inr x, s') => f x s'
  | (inl e, s') => (inl e, s')
  end.

Definition raise {S A} (e : exn) : SE S A := λ s, (inl e, s).

Definition lift {S A} (r : result A) : SE S A := λ s, (r, s).

(** [try: body  except Exception as e: handler e] *)
Definition try_except {S A} (body : SE S A) (handler : exn → SE S A) : SE S A := λ s,
  match body s with
  | (inl e, s') => handler e s'
  | r => r
  end.

(** [for key, value in items: body key value] *)
Definition for_items {S A} (body : string → A → SE S unit) : list (string * A) → SE S unit :=
  fix loop d :=
    match d with
    | [] => mret tt
    | (k, v) :: d' => body k v ;; loop d'
    end.

(** [for x in xs: body x] *)
Definition for_each {S A} (body : A → SE S unit) : list A → SE S unit :=
  fix loop l :=
    match l with
    | [] => mret tt
    | x :: l' => body x ;; loop l'
    end.

Abbreviation M := (SE state).

Definition logger (lv : level) (m : log_msg) : M unit := λ st,
  (inr tt, mk_state (fs st) (log st ++ [(lv, m)]) (io st)).

Definition io_call (ev : io_event) : M unit := λ st,
  (inr tt, mk_state (fs st) (log st) (io st ++ [ev])).

Definition get_fs : M (gmap path node) := λ st, (inr (fs st), st).

Definition put_fs (m : gmap path node) : M unit := λ st,
  (inr tt, mk_state m (log st) (io st)).

(** *** File-system calls *)

(** [Path.exists()] and [Path.is_file()] *)
Definition path_exists (p : path) : M bool :=
  io_call (IOStat p) ;; m ← get_fs; mret (path_in m p).

Definition path_is_file (p : path) : M bool :=
  io_call (IOStat p) ;; m ← get_fs; mret (is_file m p).

(** The non-empty prefixes of a path, shortest first. *)
Definition ancestors_and_self (p : path) : list path :=
  map (λ n, take n p) (seq 1 (length p)).

(** [Path.mkdir(parents=True, exist_ok=True)] *)
Definition mkdir_step (p q : path) : M unit :=
  m ← get_fs;
  match node_at m q with
  | None => put_fs (<[q := Dir]> m)
  | Some n =>
      if node_is_dir n then mret tt
      else raise (if decide (q = p) then FileExistsError else NotADirectoryError)
  end.

Definition mkdir_parents (p : path) : M unit :=
  io_call (IOMkdir p) ;; for_each (mkdir_step p) (ancestors_and_self p).

(** Opening a file for reading: the node behind the path. *)
Definition read_node (p : path) : M node :=
  io_call (IORead p) ;;
  m ← get_fs;
  match node_at m p with
  | None => raise FileNotFoundError
  | Some n => if node_is_dir n then raise IsADirectoryError else mret n
  end.

(** Opening a file for writing ([open(p, 'w')], [h5py.File(p, "w")]): the
    file is created or truncated, and then holds [empty]. *)
Definition open_write (p : path) (empty : node) : M unit :=
  io_call (IOWrite p) ;;
  m ← get_fs;
  if is_dir m p then raise IsADirectoryError
  else if negb (is_dir m (parent p)) then raise FileNotFoundError
  else put_fs (<[p := empty]> m).

(** What is written by the time the file is closed. *)
Definition write_node (p : path) (n : node) : M unit :=
  m ← get_fs; put_fs (<[p := n]> m).

(** Everything strictly below a directory is removed. *)
Definition remove_below (p : path) (m : gmap path node) : gmap path node :=
  filter (λ kv, ¬ (p `prefix_of` kv.1 ∧ kv.1 ≠ p)) m.

(** *** An open HDF5 file or zarr group: the group written to, and the log *)

Abbreviation W := (SE (group * list log_entry)).

Definition wlogger (lv : level) (m : log_msg) : W unit := λ '(g, lg),
  (inr tt, (g, lg ++ [(lv, m)])).

(** [group.create_group(key)]; the key is taken as the name of one link. *)
Definition create_group (key : string) : W unit := λ '(g, lg),
  if bool_decide (key ∈ keys g) then (inl ValueError, (g, lg))
  else (inr tt, (g ++ [(key, Group [])], lg)).

(** [group.create_dataset(key, data=a, ...)] *)
Definition create_dataset (accepts : ndarray → bool) (key : string) (a : ndarray) : W unit :=
  λ '(g, lg),
  if bool_decide (key ∈ keys g) then (inl ValueError, (g, lg))
  else if accepts a then (inr tt, (g ++ [(key, Dataset a)], lg))
  else (inl TypeError, (g, lg)).

(** The body runs on the subgroup just created under [key]; what it has
    written stays there when it raises. *)
Definition in_new_group {A} (key : string) (body : W A) : W A := λ '(g, lg),
  let '(r, (sub, lg')) := body ([], lg) in
  (r, (map (λ kn, let '(k, n) := kn in
                  if decide (k = key) then (k, Group sub) else (k, n)) g, lg')).

(** The body runs on the root group of the file or store at [p], which was
    just created empty. *)
Definition with_root {A} (p : path) (mk : group → node) (body : W A) : M A := λ st,
  let '(r, (g, lg)) := body ([], log st) in
  (r, mk_state (<[p := mk g]> (fs st)) lg (io st)).

(** [group.keys()] iterates in the order of the names. *)
Definition name_le {A} (x y : string * A) : Prop := Is_true (String.leb x.1 y.1).

#[global] Instance name_le_dec {A} (x y : string * A) : Decision (name_le x y).
Proof. unfold name_le. apply _. Defined.

Definition by_name {A} (d : list (string * A)) : list (string * A) :=
  merge_sort name_le d.

(** [PurePath.with_suffix] *)
Definition valid_suffix (sfx : string) : bool :=
  match chars sfx with
  | [] => true
  | c :: rest => bool_decide (c = dot) && negb (bool_decide (rest = []))
                 && negb (bool_decide (slash ∈ rest))
  end.

Definition with_suffix (p : path) (sfx : string) : result path :=
  let name := path_name p in
  if negb (valid_suffix sfx) then inl ValueError
  else if bool_decide (name = "") then inl ValueError
  else
    let old := chars (name_suffix name) in
    let stem := take (length (chars name) - length old) (chars name) in
    inr (parent p ++ [of_chars (stem ++ chars sfx)]).

(** [PurePath.relative_to] *)
Fixpoint relative_to (p base : path) : result path :=
  match base, p with
  | [], _ => inr p
  | b :: base', c :: p' => if decide (b = c) then relative_to p' base' else inl ValueError
  | _ :: _, [] => inl ValueError
  end.

Fixpoint result_map {A B} (f : A → result B) (l : list A) : result (list B) :=
  match l with
  | [] => inr []
  | x :: l' =>
      match f x with
      | inl e => inl e
      | inr y => match result_map f l' with inl e => inl e | inr ys => inr (y :: ys) end
      end
  end.

(** ** Keyword arguments ([**kwargs])

    The keywords of a call, by name, in the order they are given. *)

Abbreviation kwargs := (list (string * pyval)).

(** No keyword names one of the parameters [params]. *)
Definition binds (params : list string) (kw : kwargs) : bool :=
  forallb (λ k, negb (bool_decide (k ∈ params))) (keys kw).

(** A call [f(x1, ..., xn, **kwargs)] whose arguments [x1 ... xn] are bound
    to the parameters [params]: Python refuses a keyword that names one of
    them (TypeError, "got multiple values for argument") before the body of
    [f] runs. *)
Definition call_kw {A} (params : list string) (kw : kwargs) (body : M A) : M A :=
  if binds params kw then body else raise TypeError.

(** The keywords without the one a parameter takes. *)
Definition without (name : string) (kw : kwargs) : kwargs :=
  filter (λ kv, kv.1 ≠ name) kw.

(** ** The loaders ([BaseDataLoader] and its seven subclasses)

    A loader holds its path and the keywords it was built with.  [l_mode] is
    the attribute [mode] of an [HDF5Loader] or [ZarrLoader]; the other
    classes have no such attribute and read nothing of the field. *)

Record loader := mk_loader_kw {
  l_class : LoaderClass;
  l_path : path;
  l_mode : pyval;
  l_kwargs : kwargs;
}.

(** The loader [loader_class(path)] builds: no keyword, the default mode. *)
Abbreviation mk_loader c p := (mk_loader_kw c p (PStr "r") []).

Module BaseDataLoader.

Definition _validate_path (p : path) : M unit :=
  found ← path_exists p;
  if found : bool then mret tt else raise FileNotFoundError.

(** [BaseDataLoader.__init__(self, path, **kwargs)], on an object of class
    [c]; [mode] is what the constructor of the subclass has set by then. *)
Definition __init__ (c : LoaderClass) (mode : pyval) (p : path) (kw : kwargs) : M loader :=
  call_kw ["self"; "path"] kw
    (_validate_path p ;; mret (mk_loader_kw c p mode kw)).

End BaseDataLoader.

(** [loader_class(path, **kwargs)].  [HDF5Loader.__init__] and
    [ZarrLoader.__init__] have the parameter [mode="r"]: they keep it as
    [self.mode] and hand the other keywords to [BaseDataLoader.__init__].
    [RLDSLoader.__init__] and [LeRobotLoader.__init__] hand every keyword
    on; the other classes have the constructor of the base class. *)
Definition new_loader (c : LoaderClass) (p : path) (kw : kwargs) : M loader :=
  match c with
  | HDF5Loader | ZarrLoader =>
      call_kw ["self"; "path"] kw
        (BaseDataLoader.__init__ c (default (PStr "r") (assoc "mode" kw)) p
           (without "mode" kw))
  | RLDSLoader | LeRobotLoader =>
      call_kw ["self"; "path"] kw (BaseDataLoader.__init__ c (PStr "r") p kw)
  | JSONLoader | PickleLoader | NumPyLoader =>
      BaseDataLoader.__init__ c (PStr "r") p kw
  end.

(** How [h5py.File] and [zarr.open] open what a path holds: the modes 'r',
    'r+', 'w', 'w-' or 'x', and 'a'. *)
Inductive access := ReadOnly | ReadWrite | Truncate | Exclusive | Append.

Definition access_names : list (string * access) :=
  [("r", ReadOnly); ("r+", ReadWrite); ("w-", Exclusive); ("x", Exclusive);
   ("w", Truncate); ("a", Append)].

(** Both tree codecs read a group the same way: a subgroup becomes a dict, a
    dataset the array [item[...]]. *)
Fixpoint read_tree (n : tree) : pyval :=
  match n with
  | Dataset a => PArray a
  | Group children =>
      PDict (by_name (map (λ kn, let '(k, c) := kn in (k, read_tree c)) children))
  end.

Module hdf5.
Section with_libs.
Context `{Libs}.

Definition _recursively_read_group (g : group) : pyval := read_tree (Group g).

(** The [else] branch of the loop of [_recursively_write_group]. *)
Definition write_leaf (key : string) (value : pyval) : W unit :=
  a ← lift (match value with
            | PArray a => inr a
            | PList _ | PTuple _ => np_array value
            | _ => np_array (PList [value])
            end);
  a ← (if decide (a_dtype a = DObject)
       then lift (np_bytes_array (map str_item (a_flat a)))
       else mret a);
  try_except (create_dataset (h5_accepts true) key a)
    (λ e, wlogger WARNING (CompressFailed key e) ;;
          create_dataset (h5_accepts false) key a).

Fixpoint _recursively_write_group (data : pyval) : W unit :=
  match data with
  | PDict d =>
      for_items (λ key value,
        match value with
        | PDict _ =>
            create_group key ;;
            in_new_group key (_recursively_write_group value)
        | _ => write_leaf key value
        end) d
  | _ => raise AttributeError
  end.

(** h5py compares the mode with each name in turn ([if mode == 'r': ...
    elif mode == 'r+': ...]) and raises ValueError when it is none of them. *)
Fixpoint mode_access (names : list (string * access)) (mode : pyval) : result access :=
  match names with
  | [] => inl ValueError
  | (name, acc) :: rest =>
      match elem_eq_str name mode with
      | inl e => inl e
      | inr true => inr acc
      | inr false => mode_access rest mode
      end
  end.

(** A file of HDF5 bytes that is there is opened ('r', 'r+'). *)
Definition open_existing (p : path) : M group :=
  n ← read_node p;
  match n with
  | H5File g => mret g
  | _ => raise OSError
  end.

(** A new, empty file is made where the path holds nothing ('w-', 'x'). *)
Definition create_file (p : path) : M group :=
  io_call (IOWrite p) ;;
  m ← get_fs;
  if path_in m p then raise FileExistsError
  else if negb (is_dir m (parent p)) then raise FileNotFoundError
  else put_fs (<[p := H5File []]> m) ;; mret [].

(** [h5py.File(p, mode)]: the root group of the file it opens.  With 'w'
    the file is made, or emptied if it is there; with 'a' it is opened if
    it is there and made if not. *)
Definition open_file (p : path) (mode : pyval) : M group :=
  acc ← lift (mode_access access_names mode);
  match acc with
  | ReadOnly | ReadWrite => open_existing p
  | Truncate => open_write p (H5File []) ;; mret []
  | Exclusive => create_file p
  | Append =>
      m ← get_fs;
      if path_in m p then open_existing p else create_file p
  end.

Definition load (l : loader) : M pyval :=
  try_except
    (g ← open_file (l_path l) (l_mode l);
     let data := _recursively_read_group g in
     logger INFO (LoadOk HDF5Loader (l_path l)) ;;
     mret data)
    (λ e, logger ERROR (LoadFailed HDF5Loader (l_path l) e) ;;
          raise DataValidationError).

Definition save (l : loader) (data : pyval) (target : option path) : M unit :=
  let save_path := default (l_path l) target in
  mkdir_parents (parent save_path) ;;
  try_except
    (open_write save_path (H5File []) ;;
     with_root save_path H5File (_recursively_write_group data) ;;
     logger INFO (SaveOk HDF5Loader save_path))
    (λ e, logger ERROR (SaveFailed HDF5Loader save_path e) ;;
          raise DataValidationError).

Definition validate (l : loader) (data : pyval) : M bool :=
  try_except
    (open_write (l_path l) (H5File []) ;;
     with_root (l_path l) H5File (_recursively_write_group data) ;;
     mret true)
    (λ e, logger WARNING (ValidationFailed HDF5Loader e) ;; mret false).

End with_libs.
End hdf5.

Module zarr.
Section with_libs.
Context `{Libs}.

(** [zarr.open(str(p), mode="r")] *)
Definition open_read (p : path) : M group :=
  io_call (IORead p) ;;
  m ← get_fs;
  match node_at m p with
  | Some (ZarrStore g) => mret g
  | _ => raise ValueError
  end.

(** [zarr.open(str(p), mode="w")]: a directory store; what the directory
    held is removed and an empty root group is written. *)
Definition open_write (p : path) : M unit :=
  io_call (IOWrite p) ;;
  m ← get_fs;
  if is_file m p then raise ValueError
  else
    for_each (mkdir_step p) (ancestors_and_self (parent p)) ;;
    m ← get_fs;
    put_fs (<[p := ZarrStore []]> (remove_below p m)).

(** [zarr.open] looks the mode up in a set of names, for which it must be
    hashable; a mode that is none of the names opens what is there, as 'r+'
    does. *)
Fixpoint hashable (v : pyval) : bool :=
  match v with
  | PList _ | PDict _ | PArray _ => false
  | PTuple l => forallb hashable l
  | _ => true
  end.

Definition mode_access (mode : pyval) : result access :=
  if negb (hashable mode) then inl TypeError
  else inr (match mode with
            | PStr name => default ReadWrite (assoc name access_names)
            | _ => ReadWrite
            end).

(** [zarr.open(str(p), mode)] with 'a' ([reopen]), 'w-' or 'x': a store
    that is there is opened, or refused; a directory becomes the root group
    of a store, and is made if there is none. *)
Definition open_or_create (reopen : bool) (p : path) : M group :=
  m ← get_fs;
  match node_at m p with
  | Some (ZarrStore g) =>
      if reopen then open_read p else io_call (IOWrite p) ;; raise ValueError
  | Some Dir | None =>
      io_call (IOWrite p) ;;
      for_each (mkdir_step p) (ancestors_and_self (parent p)) ;;
      m ← get_fs;
      put_fs (<[p := ZarrStore []]> m) ;; mret []
  | Some _ => io_call (IOWrite p) ;; raise ValueError
  end.

(** [zarr.open(str(p), mode)]: the root group of the store it opens. *)
Definition open_store (p : path) (mode : pyval) : M group :=
  acc ← lift (mode_access mode);
  match acc with
  | ReadOnly | ReadWrite => open_read p
  | Truncate => open_write p ;; mret []
  | Exclusive => open_or_create false p
  | Append => open_or_create true p
  end.

Definition _recursively_read_group (g : group) : pyval := read_tree (Group g).

Definition write_leaf (key : string) (value : pyval) : W unit :=
  a ← lift (match value with
            | PArray a => inr a
            | PList _ | PTuple _ => np_array value
            | _ => np_array (PList [value])
            end);
  try_except (create_dataset (zarr_accepts true) key a)
    (λ e, wlogger WARNING (CompressFailed key e) ;;
          create_dataset (zarr_accepts false) key a).

Fixpoint _recursively_write_group (data : pyval) : W unit :=
  match data with
  | PDict d =>
      for_items (λ key value,
        match value with
        | PDict _ =>
            create_group key ;;
            in_new_group key (_recursively_write_group value)
        | _ => write_leaf key value
        end) d
  | _ => raise AttributeError
  end.

Definition load (l : loader) : M pyval :=
  try_except
    (g ← open_store (l_path l) (l_mode l);
     let data := _recursively_read_group g in
     logger INFO (LoadOk ZarrLoader (l_path l)) ;;
     mret data)
    (λ e, logger ERROR (LoadFailed ZarrLoader (l_path l) e) ;;
          raise DataValidationError).

Definition save (l : loader) (data : pyval) (target : option path) : M unit :=
  let save_path := default (l_path l) target in
  mkdir_parents (parent save_path) ;;
  try_except
    (open_write save_path ;;
     with_root save_path ZarrStore (_recursively_write_group data) ;;
     logger INFO (SaveOk ZarrLoader save_path))
    (λ e, logger ERROR (SaveFailed ZarrLoader save_path e) ;;
          raise DataValidationError).

Definition validate (l : loader) (data : pyval) : M bool :=
  try_except
    (open_write (l_path l) ;;
     with_root (l_path l) ZarrStore (_recursively_write_group data) ;;
     mret true)
    (λ e, logger WARNING (ValidationFailed ZarrLoader e) ;; mret false).

End with_libs.
End zarr.

Module json.
Section with_libs.
Context `{Libs}.

(** [json.dumps(data, default=self._json_serializer)] *)
Definition dumps (data : pyval) : result pyval := inr (to_json data).

(** [with open(p, 'r') as f: json.load(f)] *)
Definition load_file (p : path) : M pyval :=
  n ← read_node p;
  match n with
  | JsonFile v => mret v
  | _ => raise ValueError
  end.

(** [with open(p, 'w') as f: json.dump(data, f, ...)] *)
Definition dump_file (p : path) (data : pyval) : M unit :=
  open_write p (RawFile "") ;;
  doc ← lift (dumps data);
  write_node p (JsonFile doc).

Definition load (l : loader) : M pyval :=
  try_except
    (data ← load_file (l_path l);
     logger INFO (LoadOk JSONLoader (l_path l)) ;;
     mret data)
    (λ e, logger ERROR (LoadFailed JSONLoader (l_path l) e) ;;
          raise DataValidationError).

Definition save (l : loader) (data : pyval) (target : option path) : M unit :=
  let save_path := default (l_path l) target in
  mkdir_parents (parent save_path) ;;
  try_except
    (dump_file save_path data ;;
     logger INFO (SaveOk JSONLoader save_path))
    (λ e, logger ERROR (SaveFailed JSONLoader save_path e) ;;
          raise DataValidationError).

Definition validate (l : loader) (data : pyval) : M bool :=
  try_except
    (lift (dumps data) ;; mret true)
    (λ e, logger WARNING (ValidationFailed JSONLoader e) ;; mret false).

End with_libs.
End json.

Module pickle.

(** [pickle.dumps(data, protocol=pickle.HIGHEST_PROTOCOL)] *)
Definition dumps (data : pyval) : result pyval :=
  if picklable data then inr data else inl PicklingError.

Definition load (l : loader) : M pyval :=
  try_except
    (n ← read_node (l_path l);
     data ← match n with
            | PickleFile v => mret v
            | _ => raise PicklingError
            end;
     let data := if is_dict data then data else PDict [("data", data)] in
     logger INFO (LoadOk PickleLoader (l_path l)) ;;
     mret data)
    (λ e, logger ERROR (LoadFailed PickleLoader (l_path l) e) ;;
          raise DataValidationError).

Definition save (l : loader) (data : pyval) (target : option path) : M unit :=
  let save_path := default (l_path l) target in
  mkdir_parents (parent save_path) ;;
  try_except
    (open_write save_path (RawFile "") ;;
     doc ← lift (dumps data);
     write_node save_path (PickleFile doc) ;;
     logger INFO (SaveOk PickleLoader save_path))
    (λ e, logger ERROR (SaveFailed PickleLoader save_path e) ;;
          raise DataValidationError).

Definition validate (l : loader) (data : pyval) : M bool :=
  try_except
    (lift (dumps data) ;; mret true)
    (λ e, logger WARNING (ValidationFailed PickleLoader e) ;; mret false).

End pickle.

Module numpy.
Section with_libs.
Context `{Libs}.

(** [numpy.save] and [numpy.savez_compressed] append their extension to a
    file name that does not end with it. *)
Definition with_extension (ext : string) (p : path) : path :=
  if name_matches ext (path_name p) then p
  else parent p ++ [String.append (path_name p) ext].

(** An array of Python objects is not read back ([allow_pickle=False]). *)
Definition readable (a : ndarray) : result ndarray :=
  if decide (a_dtype a = DObject) then inl ValueError else inr a.

Definition load (l : loader) : M pyval :=
  try_except
    (n ← read_node (l_path l);
     data ← (if decide (suffix (l_path l) = ".npz") then
               match n with
               | NpzFile arrays =>
                   arrays ← lift (result_map (λ ka, let '(k, a) := ka in
                                    match readable a with
                                    | inl e => inl e
                                    | inr a => inr (k, PArray a)
                                    end) arrays);
                   mret (PDict arrays)
               | NpyFile _ => raise TypeError
               | _ => raise ValueError
               end
             else
               match n with
               | NpyFile a =>
                   a ← lift (readable a); mret (PDict [("data", PArray a)])
               | NpzFile _ => mret (PDict [("data", POpaque false "NpzFile")])
               | _ => raise ValueError
               end);
     logger INFO (LoadOk NumPyLoader (l_path l)) ;;
     mret data)
    (λ e, logger ERROR (LoadFailed NumPyLoader (l_path l) e) ;;
          raise DataValidationError).

(** Writing one array of the archive: an array of Python objects is
    pickled, which [allow_pickle], if given and false, forbids. *)
Definition write_array (allow_pickle : option pyval) (a : ndarray) : result ndarray :=
  if decide (a_dtype a = DObject) then
    match allow_pickle with
    | None => inr a
    | Some v =>
        match np_truth v with
        | inl e => inl e
        | inr true => inr a
        | inr false => inl ValueError
        end
    end
  else inr a.

(** [numpy.savez_compressed(p, **data)]: the items of [data] are its
    keywords.  [file] names its first parameter; [allow_pickle] is a
    parameter of its own where numpy has it, and an array like the others
    where it has not. *)
Definition savez_compressed (p : path) (data : pyval) : M unit :=
  d ← lift (match data with PDict d => inr d | _ => inl TypeError end);
  (if bool_decide ("file" ∈ keys d) then raise TypeError else mret tt) ;;
  let allow_pickle := if np_savez_allow_pickle then assoc "allow_pickle" d else None in
  let d := if np_savez_allow_pickle then without "allow_pickle" d else d in
  let p := with_extension ".npz" p in
  open_write p (RawFile "") ;;
  arrays ← lift (result_map (λ kv, let '(k, v) := kv in
                   match np_asarray v with
                   | inl e => inl e
                   | inr a =>
                       match write_array allow_pickle a with
                       | inl e => inl e
                       | inr a => inr (k, a)
                       end
                   end) d);
  write_node p (NpzFile arrays).

(** [numpy.save(p, array)] *)
Definition save_array (p : path) (array : pyval) : M unit :=
  let p := with_extension ".npy" p in
  open_write p (RawFile "") ;;
  a ← lift (np_asarray array);
  write_node p (NpyFile a).

Definition save (l : loader) (data : pyval) (target : option path) : M unit :=
  let save_path := default (l_path l) target in
  mkdir_parents (parent save_path) ;;
  try_except
    ((if decide (suffix save_path = ".npz") then
        savez_compressed save_path data
      else
        n ← lift (py_len data);
        if decide (n = 1) then
          array ← lift (match data with
                        | PDict ((_, v) :: _) => inr v
                        | _ => inl AttributeError
                        end);
          save_array save_path array
        else
          p ← lift (with_suffix save_path ".npz");
          savez_compressed p data) ;;
     logger INFO (SaveOk NumPyLoader save_path))
    (λ e, logger ERROR (SaveFailed NumPyLoader save_path e) ;;
          raise DataValidationError).

Definition validate (l : loader) (data : pyval) : M bool :=
  try_except
    (d ← lift (py_items data);
     for_items (λ key value,
       match value with
       | PArray _ => mret tt
       | _ => lift (np_array value) ;; mret tt
       end) d ;;
     mret true)
    (λ e, logger WARNING (ValidationFailed NumPyLoader e) ;; mret false).

End with_libs.
End numpy.

Module rlds.
Section with_libs.
Context `{Libs}.

(** [_parse_tf_example]: a placeholder episode *)
Definition _parse_tf_example : pyval :=
  PDict [("steps", PList []); ("metadata", PDict [])].

(** Iterating [tf.data.TFRecordDataset(str(p))]: the number of records. *)
Definition read_records (p : path) : M nat :=
  n ← read_node p;
  match n with
  | TFRecordFile k => mret k
  | RawFile "" => mret 0
  | _ => raise OSError
  end.

Definition _parse_rlds_dataset (p : path) : M pyval :=
  k ← read_records p;
  let episodes := replicate k _parse_tf_example in
  mret (PDict [("episodes", PList episodes);
               ("metadata", PDict [("num_episodes", PInt (Z.of_nat (length episodes)));
                                   ("format", PStr "rlds")])]).

Definition _convert_to_rlds_format (data : pyval) : result pyval :=
  match py_contains "episodes" data with
  | inl e => inl e
  | inr true => py_getitem data "episodes"
  | inr false => inr (PList [data])
  end.

Definition load (l : loader) : M pyval :=
  try_except
    (data ← _parse_rlds_dataset (l_path l);
     logger INFO (LoadOk RLDSLoader (l_path l)) ;;
     mret data)
    (λ e, logger ERROR (LoadFailed RLDSLoader (l_path l) e) ;;
          raise DataValidationError).

(** One placeholder record is written per episode. *)
Definition save (l : loader) (data : pyval) (target : option path) : M unit :=
  let save_path := default (l_path l) target in
  mkdir_parents (parent save_path) ;;
  try_except
    (rlds_data ← lift (_convert_to_rlds_format data);
     open_write save_path (TFRecordFile 0) ;;
     k ← lift (py_len rlds_data);
     write_node save_path (TFRecordFile k) ;;
     logger INFO (SaveOk RLDSLoader save_path))
    (λ e, logger ERROR (SaveFailed RLDSLoader save_path e) ;;
          raise DataValidationError).

Definition validate (l : loader) (data : pyval) : M bool :=
  try_except
    (has_steps ← lift (py_contains "steps" data);
     if negb has_steps then mret false
     else
       steps ← lift (py_getitem data "steps");
       if negb (is_list steps || is_dict steps) then mret false
       else mret true)
    (λ e, logger WARNING (ValidationFailed RLDSLoader e) ;; mret false).

End with_libs.
End rlds.

Module lerobot.
Section with_libs.
Context `{Libs}.

(** [all(key in data for key in required_keys)] *)
Fixpoint all_in (required_keys : list string) (data : pyval) : result bool :=
  match required_keys with
  | [] => inr true
  | key :: rest =>
      match py_contains key data with
      | inl e => inl e
      | inr false => inr false
      | inr true => all_in rest data
      end
  end.

Definition _load_single_file (p : path) : M pyval :=
  if decide (suffix p = ".json") then json.load_file p
  else raise ValueError.

(** [self.path.glob("episode_*.json")] *)
Definition is_episode_file (name : string) : bool :=
  bool_decide (chars "episode_" `prefix_of` chars name)
  && name_matches ".json" name
  && Nat.leb 13 (String.length name).

Definition episode_files (m : gmap path node) (p : path) : list path :=
  filter (λ q, parent q = p ∧ q ≠ [] ∧ is_episode_file (path_name q) = true)
         (map fst (map_to_list m)).

(** The loop of [_load_directory]. *)
Fixpoint load_episodes (files : list path) (episodes : list pyval) : M (list pyval) :=
  match files with
  | [] => mret episodes
  | episode_file :: files' =>
      episode_data ← json.load_file episode_file;
      load_episodes files' (episodes ++ [episode_data])
  end.

Definition _load_directory (p : path) : M pyval :=
  io_call (IOWalk p) ;;
  m ← get_fs;
  episodes ← load_episodes (if is_dir m p then episode_files m p else []) [];
  mret (PDict [("episodes", PList episodes);
               ("metadata", PDict [("num_episodes", PInt (Z.of_nat (length episodes)));
                                   ("format", PStr "lerobot")])]).

Definition _validate_episode (episode : pyval) : result bool :=
  match all_in ["episode_id"; "steps"] episode with
  | inl e => inl e
  | inr false => inr false
  | inr true =>
      match py_getitem episode "steps" with
      | inl e => inl e
      | inr steps => inr (is_list steps)
      end
  end.

Definition _convert_to_lerobot_format (data : pyval) : result pyval :=
  match py_contains "episodes" data with
  | inl e => inl e
  | inr true => inr data
  | inr false =>
      inr (PDict [("episodes", PList [data]);
                  ("metadata", PDict [("num_episodes", PInt 1);
                                      ("format", PStr "lerobot")])])
  end.

Definition load (l : loader) : M pyval :=
  try_except
    (single ← path_is_file (l_path l);
     data ← (if single : bool then _load_single_file (l_path l)
             else _load_directory (l_path l));
     logger INFO (LoadOk LeRobotLoader (l_path l)) ;;
     mret data)
    (λ e, logger ERROR (LoadFailed LeRobotLoader (l_path l) e) ;;
          raise DataValidationError).

Definition save (l : loader) (data : pyval) (target : option path) : M unit :=
  let save_path := default (l_path l) target in
  mkdir_parents (parent save_path) ;;
  try_except
    (lerobot_data ← lift (_convert_to_lerobot_format data);
     json.dump_file save_path lerobot_data ;;
     logger INFO (SaveOk LeRobotLoader save_path))
    (λ e, logger ERROR (SaveFailed LeRobotLoader save_path e) ;;
          raise DataValidationError).

(** [for episode in episodes: if not self._validate_episode(episode):
    return False] *)
Fixpoint all_episodes_valid (episodes : list pyval) : result bool :=
  match episodes with
  | [] => inr true
  | episode :: rest =>
      match _validate_episode episode with
      | inl e => inl e
      | inr false => inr false
      | inr true => all_episodes_valid rest
      end
  end.

Definition validate (l : loader) (data : pyval) : M bool :=
  try_except
    (has_episodes ← lift (all_in ["episodes"] data);
     if negb has_episodes then mret false
     else
       episodes ← lift (py_getitem data "episodes");
       match episodes with
       | PList eps => lift (all_episodes_valid eps)
       | _ => mret false
       end)
    (λ e, logger WARNING (ValidationFailed LeRobotLoader e) ;; mret false).

End with_libs.
End lerobot.

(** ** Method dispatch on the loader's class *)

Section dispatch.
Context `{Libs}.

Definition loader_load (l : loader) : M pyval :=
  match l_class l with
  | HDF5Loader => hdf5.load l
  | ZarrLoader => zarr.load l
  | RLDSLoader => rlds.load l
  | LeRobotLoader => lerobot.load l
  | JSONLoader => json.load l
  | PickleLoader => pickle.load l
  | NumPyLoader => numpy.load l
  end.

Definition loader_save (l : loader) (data : pyval) (target : option path) : M unit :=
  match l_class l with
  | HDF5Loader => hdf5.save l data target
  | ZarrLoader => zarr.save l data target
  | RLDSLoader => rlds.save l data target
  | LeRobotLoader => lerobot.save l data target
  | JSONLoader => json.save l data target
  | PickleLoader => pickle.save l data target
  | NumPyLoader => numpy.save l data target
  end.

Definition loader_validate (l : loader) (data : pyval) : M bool :=
  match l_class l with
  | HDF5Loader => hdf5.validate l data
  | ZarrLoader => zarr.validate l data
  | RLDSLoader => rlds.validate l data
  | LeRobotLoader => lerobot.validate l data
  | JSONLoader => json.validate l data
  | PickleLoader => pickle.validate l data
  | NumPyLoader => numpy.validate l data
  end.

End dispatch.

(** ** The Data Manager ([class DataManager]) *)

Module DataManager.

Record t := mk { _loaders : gmap FormatType LoaderClass }.

Definition register_loader (format_type : FormatType) (loader_class : LoaderClass)
    (self : t) : t :=
  mk (<[format_type := loader_class]> (_loaders self)).

Definition _register_default_loaders (self : t) : t :=
  register_loader NUMPY NumPyLoader
    (register_loader PICKLE PickleLoader
      (register_loader JSON JSONLoader
        (register_loader LEROBOT LeRobotLoader
          (register_loader RLDS RLDSLoader
            (register_loader ZARR ZarrLoader
              (register_loader HDF5 HDF5Loader self)))))).

Definition __init__ : t := _register_default_loaders (mk ∅).

Definition format_mapping : gmap string FormatType :=
  <[".npz" := NUMPY]> (<[".npy" := NUMPY]> (<[".pickle" := PICKLE]>
  (<[".pkl" := PICKLE]> (<[".json" := JSON]> (<[".zarr" := ZARR]>
  (<[".hdf5" := HDF5]> (<[".h5" := HDF5]> ∅))))))).

Definition _detect_format (p : path) : FormatType :=
  let suffix := lower (suffix p) in
  default HDF5 (format_mapping !! suffix).

Definition extensions : gmap FormatType (list string) :=
  <[NUMPY := [".npy"; ".npz"]]> (<[PICKLE := [".pkl"; ".pickle"]]>
  (<[JSON := [".json"]]> (<[ZARR := [".zarr"]]>
  (<[HDF5 := [".h5"; ".hdf5"]]> ∅)))).

Definition extension_mapping : gmap FormatType string :=
  <[NUMPY := ".npy"]> (<[PICKLE := ".pkl"]> (<[JSON := ".json"]>
  (<[ZARR := ".zarr"]> (<[HDF5 := ".h5"]> ∅)))).

Definition _get_extension (format_type : FormatType) : string :=
  default ".h5" (extension_mapping !! format_type).

(** [q] is found by a walk down from [directory]: it lies strictly below
    it, and every path from [directory] down to the parent of [q] is a
    directory.  (A zarr store is one node here: a walk does not enter it.) *)
Definition walked (m : gmap path node) (directory q : path) : bool :=
  bool_decide (directory `prefix_of` q) && Nat.ltb (length directory) (length q)
  && forallb (λ n, match node_at m (take n q) with Some Dir => true | _ => false end)
             (seq (length directory) (length q - length directory)).

(** [directory.rglob("*" + ext)] *)
Definition rglob (m : gmap path node) (directory : path) (ext : string) : list path :=
  filter (λ q, walked m directory q = true ∧ name_matches ext (path_name q) = true)
         (map fst (map_to_list m)).

Definition _find_files (directory : path) (format_type : FormatType) : M (list path) :=
  let ext_list := default [] (extensions !! format_type) in
  (fix loop (exts : list string) (files : list path) : M (list path) :=
     match exts with
     | [] => mret files
     | ext :: exts' =>
         io_call (IOWalk directory) ;;
         m ← get_fs;
         loop exts' (files ++ rglob m directory ext)
     end) ext_list [].

Section with_libs.
Context `{Libs}.

(** The parameters of the methods that take [**kwargs]. *)
Definition load_params : list string := ["self"; "path"; "format_type"].
Definition save_params : list string := ["self"; "data"; "path"; "format_type"].
Definition convert_params : list string :=
  ["self"; "source_path"; "target_path"; "source_format"; "target_format"].
Definition batch_convert_params : list string :=
  ["self"; "source_dir"; "target_dir"; "source_format"; "target_format"].

Definition load (self : t) (p : path) (format_type : FormatType) (kw : kwargs) : M pyval :=
  call_kw load_params kw
    (let format_type :=
       if decide (format_type = AUTO) then _detect_format p else format_type in
     match _loaders self !! format_type with
     | None => raise ValueError
     | Some loader_class =>
         loader ← new_loader loader_class p kw;
         loader_load loader
     end).

Definition save (self : t) (data : pyval) (p : path) (format_type : FormatType)
    (kw : kwargs) : M unit :=
  call_kw save_params kw
    (match _loaders self !! format_type with
     | None => raise ValueError
     | Some loader_class =>
         loader ← new_loader loader_class p kw;
         loader_save loader data None
     end).

Definition convert (self : t) (source_path target_path : path)
    (source_format target_format : FormatType) (kw : kwargs) : M unit :=
  call_kw convert_params kw
    (let source_format :=
       if decide (source_format = AUTO) then _detect_format source_path
       else source_format in
     let target_format :=
       if decide (target_format = AUTO) then _detect_format target_path
       else target_format in
     source_data ← load self source_path source_format kw;
     save self source_data target_path target_format kw).

(** The body of the loop of [batch_convert]. *)
Definition convert_one (self : t) (source_dir target_dir : path)
    (source_format target_format : FormatType) (kw : kwargs) (source_file : path)
    : M unit :=
  relative_path ← lift (relative_to source_file source_dir);
  renamed ← lift (with_suffix relative_path (_get_extension target_format));
  let target_file := target_dir ++ renamed in
  try_except
    (convert self source_file target_file source_format target_format kw ;;
     logger INFO (Converted source_file target_file))
    (λ e, logger ERROR (ConvertFailed source_file e)).

Definition batch_convert (self : t) (source_dir target_dir : path)
    (source_format target_format : FormatType) (kw : kwargs) : M unit :=
  call_kw batch_convert_params kw
    (mkdir_parents target_dir ;;
     source_files ← _find_files source_dir source_format;
     for_each (convert_one self source_dir target_dir source_format target_format kw)
              source_files).

(** [validate] takes no keyword: its loader is [loader_class(path)]. *)
Definition validate (self : t) (p : path) (format_type : FormatType) : M bool :=
  let format_type :=
    if decide (format_type = AUTO) then _detect_format p else format_type in
  match _loaders self !! format_type with
  | None => raise ValueError
  | Some loader_class =>
      loader ← new_loader loader_class p [];
      data ← loader_load loader;
      loader_validate loader data
  end.

End with_libs.
End DataManager.

(** ** A reference instance of the libraries, for running the model *)

Module Reference.

Definition scalar_item (v : pyval) : option (dtype * item) :=
  match v with
  | PBool b => Some (DBool, IBool b)
  | PInt n => Some (DInt, IInt n)
  | PFloat x => Some (DFloat, IFloat x)
  | PStr s => Some (DUnicode, IStr s)
  | PBytes s => Some (DBytes, IBytes s)
  | _ => None
  end.

(** A flat list of scalars of one type becomes a one-dimensional array of
    that type; anything else an array of objects. *)
Definition np_array (v : pyval) : result ndarray :=
  match v with
  | PList l | PTuple l =>
      match mapM scalar_item l with
      | Some ((dt, x) :: rest) =>
          if forallb (λ dx, bool_decide (dx.1 = dt)) rest
          then inr (mk_array dt [length l] (x :: map snd rest))
          else inr (mk_array DObject [length l] (map (λ _, IObj "object") l))
      | Some [] => inr (mk_array DFloat [0] [])
      | None => inr (mk_array DObject [length l] (map (λ _, IObj "object") l))
      end
  | _ =>
      match scalar_item v with
      | Some (dt, x) => inr (mk_array dt [] [x])
      | None => inr (mk_array DObject [] [IObj "object"])
      end
  end.

Definition is_ascii (s : string) : bool :=
  forallb (λ c, Nat.ltb (nat_of_ascii c) 128) (chars s).

Definition np_bytes_array (l : list string) : result ndarray :=
  if forallb is_ascii l then inr (mk_array DBytes [length l] (map IBytes l))
  else inl UnicodeError.

Definition str_bytes (s : string) : string := String.append "b'" (String.append s "'").

Definition str_item (x : item) : string :=
  match x with
  | IBool true => "True"
  | IBool false => "False"
  | IInt _ => "int"
  | IFloat _ => "float"
  | IBytes s => str_bytes s
  | IStr s => s
  | IObj r => r
  end.

(** h5py has no conversion for numpy's unicode and object types, and no
    filter on a scalar or empty dataset. *)
Definition h5_accepts (compressed : bool) (a : ndarray) : bool :=
  negb (bool_decide (a_dtype a = DUnicode)) && negb (bool_decide (a_dtype a = DObject))
  && (negb compressed
      || (negb (bool_decide (a_shape a = [])) && negb (bool_decide (0 ∈ a_shape a)))).

(** zarr needs an object codec for an array of objects. *)
Definition zarr_accepts (compressed : bool) (a : ndarray) : bool :=
  negb (bool_decide (a_dtype a = DObject)).

Definition np_contains (key : string) (a : ndarray) : result bool :=
  inr (bool_decide (IStr key ∈ a_flat a)).

Definition np_eq_str (a : ndarray) (key : string) : result bool :=
  match a_flat a with
  | [x] => inr (bool_decide (x = IStr key))
  | _ => inl ValueError
  end.

(** The truth value of an object: false for None, False, zero and what is
    empty; an array of one element has the truth value of the element. *)
Definition item_truth (x : item) : bool :=
  match x with
  | IBool b => b
  | IInt n => negb (Z.eqb n 0)
  | IFloat bits => negb (Z.eqb (bits mod 2 ^ 63) 0)
  | IBytes s | IStr s => negb (bool_decide (s = ""))
  | IObj _ => true
  end.

Definition np_truth (v : pyval) : result bool :=
  match v with
  | PNone => inr false
  | PBool b => inr b
  | PInt n => inr (negb (Z.eqb n 0))
  | PFloat bits => inr (negb (Z.eqb (bits mod 2 ^ 63) 0))
  | PStr s | PBytes s => inr (negb (bool_decide (s = "")))
  | PList l | PTuple l => inr (negb (bool_decide (l = [])))
  | PDict d => inr (negb (bool_decide (d = [])))
  | PArray a => match a_flat a with [x] => inr (item_truth x) | _ => inl ValueError end
  | POpaque _ _ => inr true
  end.

Definition libs : Libs :=
  Build_Libs np_array np_bytes_array str_item str_bytes h5_accepts zarr_accepts
             np_contains np_eq_str true np_truth.

End Reference.

(** * Definitions used by the statements *)

(** ** Detection, registry and state *)

(** The table of the specification (section 4.3), read as a function of the
    lower-cased suffix. *)
Definition suffix_table (sfx : string) : option FormatType :=
  if decide (sfx = ".h5") then Some HDF5
  else if decide (sfx = ".hdf5") then Some HDF5
  else if decide (sfx = ".zarr") then Some ZARR
  else if decide (sfx = ".json") then Some JSON
  else if decide (sfx = ".pkl") then Some PICKLE
  else if decide (sfx = ".pickle") then Some PICKLE
  else if decide (sfx = ".npy") then Some NUMPY
  else if decide (sfx = ".npz") then Some NUMPY
  else None.

(** A computation that leaves the files as they are, whatever it returns. *)
Definition keeps_fs {A} (m : M A) : Prop := ∀ st, fs (m st).2 = fs st.

(** The format a Data Manager call works with once AUTO is resolved. *)
Definition resolved (format_type : FormatType) (p : path) : FormatType :=
  if decide (format_type = AUTO) then DataManager._detect_format p else format_type.

(** The loader [loader_class(path, **kwargs)] builds when it raises nothing. *)
Definition built (c : LoaderClass) (p : path) (kw : kwargs) : loader :=
  match c with
  | HDF5Loader | ZarrLoader =>
      mk_loader_kw c p (default (PStr "r") (assoc "mode" kw)) (without "mode" kw)
  | _ => mk_loader_kw c p (PStr "r") kw
  end.

(** The keywords name no parameter of [convert], [load], [save] or of a
    constructor: none of the calls they are passed on to refuses them. *)
Definition accepted (kw : kwargs) : bool :=
  binds DataManager.convert_params kw && binds DataManager.save_params kw.

(** The keywords ask the loader of a file for no other access than reading:
    they give no [mode], or the mode 'r'. *)
Definition read_mode (kw : kwargs) : Prop :=
  default (PStr "r") (assoc "mode" kw) = PStr "r".

(** The state after one more call to the file system. *)
Definition after_io (st : state) (ev : io_event) : state :=
  mk_state (fs st) (log st) (io st ++ [ev]).

(** ** Extensions and batches *)

(** An extension as the tables of the code have them: a dot, then at least
    one character, none of them a dot or a slash. *)
Definition plain_ext (ext : string) : bool :=
  match chars ext with
  | c :: e => bool_decide (c = dot) && negb (bool_decide (e = []))
              && negb (bool_decide (dot ∈ e)) && negb (bool_decide (slash ∈ e))
  | [] => false
  end.

(** The files [_find_files] returns: those of the walks, one walk for each
    extension of the format. *)
Definition found_files (m : gmap path node) (directory : path)
    (format_type : FormatType) : list path :=
  flat_map (DataManager.rglob m directory)
           (default [] (DataManager.extensions !! format_type)).

Definition after_walks (st : state) (directory : path) (format_type : FormatType) : state :=
  mk_state (fs st) (log st)
    (io st ++ map (λ _, IOWalk directory)
                  (default [] (DataManager.extensions !! format_type))).

(** What one turn of the loop leaves: the conversion's outcome, logged. *)
Definition record_outcome (source_file target_file : path)
    (r : result unit * state) : result unit * state :=
  match r with
  | (inr _, s) => logger INFO (Converted source_file target_file) s
  | (inl e, s) => logger ERROR (ConvertFailed source_file e) s
  end.

(** ** Values that come back from a store *)


(** A key that names one link of a group: h5py and zarr read a slash in a
    key as a path separator, and take neither the empty name nor a dot. *)
Definition link_name (k : string) : bool :=
  negb (bool_decide (k = "")) && negb (bool_decide (k = "."))
  && negb (bool_decide (slash ∈ chars k)).


(** A dict whose values are integers, floats and strings, or dicts of the
    same kind. *)
Inductive scalar_items : list (string * pyval) → Prop :=
| scalar_items_nil : scalar_items []
| scalar_items_int k n d : scalar_items d → scalar_items ((k, PInt n) :: d)
| scalar_items_float k x d : scalar_items d → scalar_items ((k, PFloat x) :: d)
| scalar_items_str k s d : scalar_items d → scalar_items ((k, PStr s) :: d)
| scalar_items_group k d' d :
    scalar_items d' → scalar_items d → scalar_items ((k, PDict d') :: d).







(** A path a file can be written to: not a directory, below directories. *)
Definition ready_file (m : gmap path node) (p : path) : Prop :=
  is_dir m p = false
  ∧ Forall (λ q, is_dir m q = true) (ancestors_and_self (parent p)).


(** ** Inputs of the examples *)

Definition no_files : state := mk_state ∅ [] [].

Definition floats : ndarray := mk_array DFloat [2] [IFloat 0; IFloat 1].

Definition episode : pyval :=
  PDict [("observations", PArray floats); ("metadata", PDict [("length", PInt 2)])].

(** A directory with three JSON files and one file of other bytes; there is
    no [out] directory yet. *)
Definition batch_input : state :=
  mk_state (<[ ["in"; "d.json"] := RawFile "garbage" ]>
           (<[ ["in"; "c.json"] := JsonFile (PDict [("n", PInt 3)]) ]>
           (<[ ["in"; "b.json"] := JsonFile (PDict [("n", PInt 2)]) ]>
           (<[ ["in"; "a.json"] := JsonFile (PDict [("n", PInt 1)]) ]>
           (<[ ["in"] := Dir ]> ∅))))) [] [].

(** A Data Manager whose registry holds the JSON loader only. *)
Definition json_only : DataManager.t :=
  DataManager.register_loader JSON JSONLoader (DataManager.mk ∅).

Definition one_json : state :=
  mk_state (<[ ["a.json"] := JsonFile (PDict [("n", PInt 1)]) ]> ∅) [] [].

Definition one_npy : state :=
  mk_state (<[ ["d.npy"] := RawFile "" ]> ∅) [] [].

Definition one_h5 : state :=
  mk_state (<[ ["a.h5"] := H5File [("x", Dataset floats)] ]> ∅) [] [].


(** A directory with a JSON file, a file named [.json] and a directory named
    [dir.json]; the directory [out] is there. *)
Definition odd_names : state :=
  mk_state (<[ ["out"] := Dir ]>
           (<[ ["in"; "dir.json"] := Dir ]>
           (<[ ["in"; ".json"] := JsonFile (PDict [("n", PInt 2)]) ]>
           (<[ ["in"; "a.json"] := JsonFile (PDict [("n", PInt 1)]) ]>
           (<[ ["in"] := Dir ]> ∅))))) [] [].

(** What a batch logged: the files it failed on, and the files it converted. *)
Definition batch_failures (lg : list log_entry) : list (path * exn) :=
  omap (λ e : log_entry,
          match e.2 with ConvertFailed q x => Some (q, x) | _ => None end) lg.

Definition batch_successes (lg : list log_entry) : list (path * path) :=
  omap (λ e : log_entry,
          match e.2 with Converted q t => Some (q, t) | _ => None end) lg.

Section storable.
Context `{Libs}.



End storable.

(** * More of the code: utilities, configuration, converters, command line *)

(** ** Dicts and strings, as [utils] and [config] use them *)

(** [d[k] = v] on a dict: the value of a key the dict has is replaced where
    it is, a new key goes to the end. *)
Fixpoint dict_set {A} (k : string) (v : A) (d : list (string * A)) : list (string * A) :=
  match d with
  | [] => [(k, v)]
  | (k', x) :: d' => if decide (k = k') then (k, v) :: d' else (k', x) :: dict_set k v d'
  end.

(** [dict(items)] *)
Definition dict_of {A} (items : list (string * A)) : list (string * A) :=
  fold_left (λ d kv, dict_set kv.1 kv.2 d) items [].

(** [c[k] = v] for a string key *)
Definition py_setitem (c : pyval) (k : string) (v : pyval) : result pyval :=
  match c with
  | PDict d => inr (PDict (dict_set k v d))
  | PArray _ => inl IndexError
  | _ => inl TypeError
  end.

(** [s.split(sep)] on the characters: the pieces between the occurrences of
    [sep], found from the left; [skip] characters of an occurrence are still
    to be passed. *)
Fixpoint split_chars (sep : list ascii) (skip : nat) (s : list ascii) : list (list ascii) :=
  match s with
  | [] => [[]]
  | c :: s' =>
      match skip with
      | S n => split_chars sep n s'
      | 0 =>
          if bool_decide (sep `prefix_of` c :: s')
          then [] :: split_chars sep (length sep - 1) s'
          else match split_chars sep 0 s' with
               | piece :: pieces => (c :: piece) :: pieces
               | [] => [[c]]
               end
      end
  end.

Definition split (sep s : string) : result (list string) :=
  if bool_decide (sep = "") then inl ValueError
  else inr (map of_chars (split_chars (chars sep) 0 (chars s))).

Section walk.
Context `{Libs}.

(** The walk that [unflatten_dict] and [Config.set] share:

    [for k in keys: if k not in current: current[k] = {}; current = current[k]]
    [current[last] = value]

    on a tree of dicts no dict of which is reached by two ways.  It gives
    what the walk returns or raises, and the tree the walk leaves: a dict on
    the way is changed in place, so the change shows in the tree also when
    a later step raises. *)
Fixpoint set_at (current : pyval) (keys : list string) (last : string) (value : pyval)
    : result unit * pyval :=
  match keys with
  | [] =>
      match py_setitem current last value with
      | inl e => (inl e, current)
      | inr current' => (inr tt, current')
      end
  | k :: keys' =>
      match py_contains k current with
      | inl e => (inl e, current)
      | inr present =>
          match (if present : bool then inr current else py_setitem current k (PDict [])) with
          | inl e => (inl e, current)
          | inr current1 =>
              match py_getitem current1 k with
              | inl e => (inl e, current1)
              | inr child =>
                  let '(r, child') := set_at child keys' last value in
                  (r, match current1 with
                      | PDict d => PDict (dict_set k child' d)
                      | _ => current1
                      end)
              end
          end
      end
  end.

End walk.

(** [json.dumps(obj, default=str)]: the value [json.load] reads back.
    What json cannot encode is replaced by its [str]. *)
Fixpoint json_dumps_str (py_str : pyval → string) (v : pyval) : pyval :=
  match v with
  | PNone | PBool _ | PInt _ | PFloat _ | PStr _ => v
  | PList l | PTuple l => PList (map (json_dumps_str py_str) l)
  | PDict d => PDict (map (λ kv, let '(k, x) := kv in (k, json_dumps_str py_str x)) d)
  | PBytes _ | PArray _ | POpaque _ _ => PStr (py_str v)
  end.

(** ** Utilities ([rdm.utils]) *)

Module utils.

(** The inner function of [flatten_dict]; [dict(items)] keeps the last item
    of a key. *)
Fixpoint _flatten (obj : pyval) (parent_key sep : string) : list (string * pyval) :=
  match obj with
  | PDict d =>
      dict_of (flat_map (λ kv, let '(k, v) := kv in
                 let new_key :=
                   if bool_decide (parent_key = "") then k
                   else String.append parent_key (String.append sep k) in
                 _flatten v new_key sep) d)
  | _ => dict_of [(parent_key, obj)]
  end.

Definition flatten_dict (data : pyval) (separator : string) : pyval :=
  PDict (_flatten data "" separator).

(** [save_metadata]; [py_str] is [str] on the objects json cannot encode. *)
Definition save_metadata (py_str : pyval → string) (metadata : pyval) (p : path) : M unit :=
  mkdir_parents (parent p) ;;
  open_write p (RawFile "") ;;
  write_node p (JsonFile (json_dumps_str py_str metadata)).

(** [load_metadata] *)
Definition load_metadata (p : path) : M pyval := json.load_file p.

Section with_libs.
Context `{Libs}.

(** The loop of [unflatten_dict] over the items that are left. *)
Fixpoint unflatten_items (res : pyval) (items : list (string * pyval))
    (separator : string) : result pyval :=
  match items with
  | [] => inr res
  | (key, value) :: items' =>
      match split separator key with
      | inl e => inl e
      | inr keys =>
          match set_at res (removelast keys) (List.last keys "") value with
          | (inl e, _) => inl e
          | (inr _, res') => unflatten_items res' items' separator
          end
      end
  end.

Definition unflatten_dict (data : pyval) (separator : string) : result pyval :=
  match py_items data with
  | inl e => inl e
  | inr items => unflatten_items (PDict []) items separator
  end.

End with_libs.
End utils.

(** ** The loggers of [config] and [cli], and the standard output

    These modules log to loggers of their own, and [cli] prints; what they
    log and print stands beside the state of the file system and of the
    loaders' log.  The warnings of [get_metadata] are kept here too. *)

Inductive cli_command := ConvertCommand | BatchConvertCommand | ValidateCommand | InfoCommand.

Inductive note_msg :=
| ConfigLoaded (p : path)
| ConfigLoadFailed (p : path) (e : exn)
| ConfigSaved (p : path)
| ConfigSaveFailed (p : path) (e : exn)
| MetadataFailed (c : LoaderClass) (e : exn)
| CommandFailed (command : cli_command) (e : exn).

(** The lines [cli] prints. *)
Inductive line :=
| ConvertedLine (source target : path)
| BatchConvertedLine (source_dir target_dir : path)
| ValidLine (p : path)
| InvalidLine (p : path)
| NoLoaderLine (format_type : FormatType)
| FileLine (p : path)
| FormatLine (format_type : FormatType)
| SizeLine (file_size : option pyval)
| GroupsLine (groups : pyval).

Record session := mk_session {
  files : state;
  notes : list (level * note_msg);
  stdout : list line;
}.

Abbreviation MS := (SE session).

(** A computation of the loaders, run on the files of the session. *)
Definition on_files {A} (m : M A) : MS A := λ s,
  let '(r, st) := m (files s) in (r, mk_session st (notes s) (stdout s)).

Definition note (lv : level) (m : note_msg) : MS unit := λ s,
  (inr tt, mk_session (files s) (notes s ++ [(lv, m)]) (stdout s)).

Definition print (l : line) : MS unit := λ s,
  (inr tt, mk_session (files s) (notes s) (stdout s ++ [l])).

(** [json.dumps(obj)] with no [default]: the value [json.load] reads back,
    or TypeError for what json cannot encode. *)
Fixpoint json_dumps (v : pyval) : result pyval :=
  match v with
  | PNone | PBool _ | PInt _ | PFloat _ | PStr _ => inr v
  | PList l | PTuple l =>
      match result_map json_dumps l with
      | inl e => inl e
      | inr l' => inr (PList l')
      end
  | PDict d =>
      match result_map (λ kv, let '(k, x) := kv in
                          match json_dumps x with
                          | inl e => inl e
                          | inr x' => inr (k, x')
                          end) d with
      | inl e => inl e
      | inr d' => inr (PDict d')
      end
  | PBytes _ | PArray _ | POpaque _ _ => inl TypeError
  end.

(** ** The configuration ([class Config]) *)

Module Config.

Record t := mk { config_path : option path; config : pyval }.

Definition _load_default_config : pyval :=
  PDict [
    ("formats", PDict [
       ("hdf5", PDict [("compression", PStr "gzip"); ("compression_opts", PInt 9);
                       ("chunk_size", PNone)]);
       ("zarr", PDict [("compression", PStr "blosc"); ("chunk_size", PStr "auto")]);
       ("json", PDict [("indent", PInt 2); ("ensure_ascii", PBool false)]);
       ("pickle", PDict [("protocol", PStr "highest")]);
       ("numpy", PDict [("allow_pickle", PBool true)])]);
    ("validation", PDict [("strict", PBool true); ("check_schema", PBool true)]);
    ("logging", PDict [("level", PStr "INFO");
                       ("format",
                        PStr "%(asctime)s - %(name)s - %(levelname)s - %(message)s")]);
    ("conversion", PDict [("parallel", PBool true); ("num_workers", PNone);
                          ("batch_size", PInt 1)])].

(** [for k in keys: value = value[k]] *)
Fixpoint get_walk (value : pyval) (keys : list string) : result pyval :=
  match keys with
  | [] => inr value
  | k :: keys' =>
      match py_getitem value k with
      | inl e => inl e
      | inr v => get_walk v keys'
      end
  end.

Definition get (self : t) (key : string) (default : pyval) : result pyval :=
  match split "." key with
  | inl e => inl e
  | inr keys =>
      match get_walk (config self) keys with
      | inl KeyError | inl TypeError => inr default
      | r => r
      end
  end.

Section with_libs.
Context `{Libs}.

(** What [set] returns or raises, and the object after the call. *)
Definition set (self : t) (key : string) (value : pyval) : result unit * t :=
  match split "." key with
  | inl e => (inl e, self)
  | inr keys =>
      let '(r, c) := set_at (config self) (removelast keys) (List.last keys "") value in
      (r, mk (config_path self) c)
  end.

End with_libs.

(** [default] is a dict; [user.items()] needs one. *)
Fixpoint _merge_configs (default : list (string * pyval)) (user : pyval)
    : result (list (string * pyval)) :=
  match user with
  | PDict u =>
      fold_left (λ acc kv,
        match acc with
        | inl e => inl e
        | inr res =>
            let '(key, value) := kv in
            match assoc key res, value with
            | Some (PDict r), PDict _ =>
                match _merge_configs r value with
                | inl e => inl e
                | inr merged => inr (dict_set key (PDict merged) res)
                end
            | _, _ => inr (dict_set key value res)
            end
        end) u (inr default)
  | _ => inl AttributeError
  end.

(** [Config.load_config]: the object after the call.  (The parameter
    [config_path] of the code is [config_file] here.) *)
Definition load_config (self : t) (config_file : path) : MS t :=
  try_except
    (user_config ← on_files (json.load_file config_file);
     merged ← lift (match config self with
                    | PDict default => _merge_configs default user_config
                    | _ => inl AttributeError
                    end);
     note INFO (ConfigLoaded config_file) ;;
     mret (mk (config_path self) (PDict merged)))
    (λ e, note WARNING (ConfigLoadFailed config_file e) ;; mret self).

(** [Config.save_config] *)
Definition save_config (self : t) (config_file : option path) : MS unit :=
  let save_path :=
    match config_file with
    | Some p => Some p
    | None => config_path self
    end in
  match save_path with
  | None => raise ValueError
  | Some save_path =>
      on_files (mkdir_parents (parent save_path)) ;;
      try_except
        (on_files (open_write save_path (RawFile "")) ;;
         doc ← lift (json_dumps (config self));
         on_files (write_node save_path (JsonFile doc)) ;;
         note INFO (ConfigSaved save_path))
        (λ e, note ERROR (ConfigSaveFailed save_path e))
  end.

(** [Config.__init__] *)
Definition __init__ (config_file : option path) : MS t :=
  let self := mk config_file _load_default_config in
  match config_file with
  | Some p =>
      found ← on_files (path_exists p);
      if found : bool then load_config self p else mret self
  | None => mret self
  end.

End Config.
(** ** Values as Python has them *)

(** No dict of the value holds a key twice. *)
Inductive dict_tree : pyval → Prop :=
| dict_tree_leaf v : is_dict v = false → dict_tree v
| dict_tree_dict d :
    NoDup (keys d) → Forall (λ kv, dict_tree kv.2) d → dict_tree (PDict d).

(** ** Nested dicts and their leaves *)

(** A key that can be part of a flattened key: not empty, and without the
    separator. *)
Definition plain_key (c : ascii) (k : string) : Prop := k ≠ "" ∧ c ∉ chars k.

(** A nested dict that can be flattened with the separator [c] and put
    together again: plain keys, no key twice in a dict, no empty dict
    inside. *)
Inductive nested (c : ascii) : list (string * pyval) → Prop :=
| nested_nil : nested c []
| nested_leaf k v d :
    plain_key c k → is_dict v = false → k ∉ keys d → nested c d →
    nested c ((k, v) :: d)
| nested_dict k d' d :
    plain_key c k → d' ≠ [] → nested c d' → k ∉ keys d → nested c d →
    nested c ((k, PDict d') :: d).

(** The values that are not dicts, each with the keys that lead to it. *)
Fixpoint leaves (v : pyval) : list (list string * pyval) :=
  match v with
  | PDict d =>
      flat_map (λ kv, let '(k, x) := kv in
                      map (λ py : list string * pyval, (k :: py.1, py.2)) (leaves x)) d
  | _ => [([], v)]
  end.

(** The key [_flatten] builds for the keys [p] below [parent_key]. *)
Definition flat_key (parent_key sep : string) (p : list string) : string :=
  fold_left (λ parent_key k,
               if bool_decide (parent_key = "") then k
               else String.append parent_key (String.append sep k)) p parent_key.

(** The pieces [p], with [c] between them. *)
Definition join_chars (c : ascii) (k : list ascii) (p : list (list ascii)) : list ascii :=
  k ++ flat_map (λ k', c :: k') p.

Section insert_all.
Context `{Libs}.

(** The loop of [unflatten_dict] for keys that are split already. *)
Fixpoint insert_all (res : pyval) (items : list (list string * pyval)) : result pyval :=
  match items with
  | [] => inr res
  | (p, value) :: items' =>
      match set_at res (removelast p) (List.last p "") value with
      | (inl e, _) => inl e
      | (inr _, res') => insert_all res' items'
      end
  end.

End insert_all.


(** ** Inputs of the examples for [utils] and [config] *)

(** The nested dict of the repository's test of [flatten_dict]. *)
Definition nested_example : list (string * pyval) :=
  [("a", PInt 1); ("b", PDict [("c", PInt 2); ("d", PDict [("e", PInt 3)])])].

Definition default_config : list (string * pyval) :=
  match Config._load_default_config with PDict d => d | _ => [] end.

(** A user configuration: one setting changed, one added. *)
Definition user_config : list (string * pyval) :=
  [("logging", PDict [("level", PStr "DEBUG")]); ("workers", PInt 4)].
(** ** The converters ([BaseDataConverter] and its seven subclasses) *)

Inductive ConverterClass :=
| HDF5Converter | ZarrConverter | RLDSConverter | LeRobotConverter
| JSONConverter | PickleConverter | NumPyConverter.

#[global] Instance ConverterClass_eq_dec : EqDecision ConverterClass.
Proof. solve_decision. Defined.

Module converter.
Section with_libs.
Context `{Libs}.

(** The loop of [NumPyConverter.convert_from]. *)
Fixpoint to_arrays (numpy_data : list (string * pyval)) (items : list (string * pyval))
    : result (list (string * pyval)) :=
  match items with
  | [] => inr numpy_data
  | (key, value) :: items' =>
      match value with
      | PArray _ => to_arrays (dict_set key value numpy_data) items'
      | _ =>
          match np_array value with
          | inl e => inl e
          | inr a => to_arrays (dict_set key (PArray a) numpy_data) items'
          end
      end
  end.

(** [convert_from]: every class returns what the source loader loads, but
    [NumPyConverter], which turns every value into an array. *)
Definition convert_from (c : ConverterClass) (source_loader : loader) : M pyval :=
  match c with
  | NumPyConverter =>
      data ← loader_load source_loader;
      items ← lift (py_items data);
      numpy_data ← lift (to_arrays [] items);
      mret (PDict numpy_data)
  | _ => loader_load source_loader
  end.

(** [convert_to]: every class saves with the target loader. *)
Definition convert_to (c : ConverterClass) (data : pyval) (target_loader : loader)
    : M unit :=
  loader_save target_loader data None.

End with_libs.
End converter.

(** ** The registry of converters (the [_converters] of [DataManager]) *)

Module Converters.

Definition t := gmap (FormatType * FormatType) ConverterClass.

Definition register_converter (source_format target_format : FormatType)
    (converter_class : ConverterClass) (_converters : t) : t :=
  <[(source_format, target_format) := converter_class]> _converters.

Definition formats : list (FormatType * ConverterClass) :=
  [(HDF5, HDF5Converter); (ZARR, ZarrConverter); (RLDS, RLDSConverter);
   (LEROBOT, LeRobotConverter); (JSON, JSONConverter); (PICKLE, PickleConverter);
   (NUMPY, NumPyConverter)].

Definition _register_default_converters (_converters : t) : t :=
  fold_left (λ acc sc,
    let '(source_format, converter_class) := sc in
    fold_left (λ acc tc,
      let '(target_format, _) := tc in
      if decide (source_format ≠ target_format)
      then register_converter source_format target_format converter_class acc
      else acc) formats acc) formats _converters.

(** [self._converters] after [DataManager.__init__] *)
Definition __init__ : t := _register_default_converters ∅.

End Converters.
(** ** Metadata ([get_metadata] of the loaders)

    The size of a file and the versions of the libraries are not in the
    model of the file system; they are taken as given. *)

Section metadata.
Variable st_size : node → Z.
Variables hdf5_version zarr_version zarr_store_type tensorflow_version : string.

Definition class_name (c : LoaderClass) : string :=
  match c with
  | HDF5Loader => "HDF5Loader"
  | ZarrLoader => "ZarrLoader"
  | RLDSLoader => "RLDSLoader"
  | LeRobotLoader => "LeRobotLoader"
  | JSONLoader => "JSONLoader"
  | PickleLoader => "PickleLoader"
  | NumPyLoader => "NumPyLoader"
  end.

(** [str(self.path)] *)
Definition path_str (p : path) : string :=
  fold_left (λ acc name, String.append acc (String.append "/" name)) p "".

(** [metadata.update(items)] *)
Definition dict_update {A} (d items : list (string * A)) : list (string * A) :=
  fold_left (λ d kv, dict_set kv.1 kv.2 d) items d.

(** [self.path.stat().st_size] *)
Definition stat_size (p : path) : M pyval :=
  io_call (IOStat p) ;;
  m ← get_fs;
  match node_at m p with
  | Some n => mret (PInt (st_size n))
  | None => raise FileNotFoundError
  end.

(** [BaseDataLoader.get_metadata] *)
Definition base_get_metadata (l : loader) : M (list (string * pyval)) :=
  single ← path_is_file (l_path l);
  size ← (if single : bool then stat_size (l_path l) else mret PNone);
  mret [("path", PStr (path_str (l_path l)));
        ("format", PStr (class_name (l_class l)));
        ("size", size)].

Definition names (g : group) : pyval := PList (map (λ kn, PStr kn.1) (by_name g)).

(** [get_metadata] of the class of the loader: the base method, and what
    the class adds to it in its [try]. *)
Definition get_metadata (l : loader) : MS (list (string * pyval)) :=
  metadata ← on_files (base_get_metadata l);
  match l_class l with
  | HDF5Loader =>
      try_except
        (n ← on_files (read_node (l_path l));
         g ← match n with H5File g => mret g | _ => raise OSError end;
         size ← on_files (stat_size (l_path l));
         mret (dict_update metadata
                 [("hdf5_version", PStr hdf5_version); ("groups", names g);
                  ("file_size", size)]))
        (λ e, note WARNING (MetadataFailed HDF5Loader e) ;; mret metadata)
  | ZarrLoader =>
      try_except
        (g ← on_files (zarr.open_read (l_path l));
         mret (dict_update metadata
                 [("zarr_version", PStr zarr_version); ("groups", names g);
                  ("store_type", PStr zarr_store_type)]))
        (λ e, note WARNING (MetadataFailed ZarrLoader e) ;; mret metadata)
  | RLDSLoader =>
      try_except
        (size ← on_files (stat_size (l_path l));
         mret (dict_update metadata
                 [("tensorflow_version", PStr tensorflow_version);
                  ("dataset_type", PStr "TFRecord"); ("file_size", size)]))
        (λ e, note WARNING (MetadataFailed RLDSLoader e) ;; mret metadata)
  | LeRobotLoader =>
      try_except
        (single ← on_files (path_is_file (l_path l));
         if single : bool then
           size ← on_files (stat_size (l_path l));
           mret (dict_update metadata
                   [("file_type", PStr "single_file"); ("file_size", size)])
         else
           on_files (io_call (IOWalk (l_path l))) ;;
           m ← on_files get_fs;
           let episode_files :=
             if is_dir m (l_path l) then lerobot.episode_files m (l_path l) else [] in
           mret (dict_update metadata
                   [("file_type", PStr "directory");
                    ("num_episode_files", PInt (Z.of_nat (length episode_files)))]))
        (λ e, note WARNING (MetadataFailed LeRobotLoader e) ;; mret metadata)
  | JSONLoader | PickleLoader | NumPyLoader => mret metadata
  end.

End metadata.

(** ** The command line ([rdm.cli]) *)

Module cli.

(** [FormatType(value)] *)
Definition FormatType_of_value (value : string) : result FormatType :=
  if decide (value = "hdf5") then inr HDF5
  else if decide (value = "zarr") then inr ZARR
  else if decide (value = "rlds") then inr RLDS
  else if decide (value = "lerobot") then inr LEROBOT
  else if decide (value = "json") then inr JSON
  else if decide (value = "pickle") then inr PICKLE
  else if decide (value = "numpy") then inr NUMPY
  else if decide (value = "auto") then inr AUTO
  else inl ValueError.

Definition value_of_FormatType (format_type : FormatType) : string :=
  match format_type with
  | HDF5 => "hdf5" | ZARR => "zarr" | RLDS => "rlds" | LEROBOT => "lerobot"
  | JSON => "json" | PICKLE => "pickle" | NUMPY => "numpy" | AUTO => "auto"
  end.

(** [FormatType(args.format) if args.format else FormatType.AUTO] *)
Definition format_arg (arg : option string) : result FormatType :=
  match arg with
  | None => inr AUTO
  | Some value => if bool_decide (value = "") then inr AUTO else FormatType_of_value value
  end.

(** How a command ends: it returns, or [sys.exit(code)]. *)
Inductive status := Returned | Exit (code : Z).

Section with_libs.
Context `{Libs}.

Definition convert_command (source target : path)
    (source_format target_format : option string) : MS status :=
  let dm := DataManager.__init__ in
  try_except
    (source_format ← lift (format_arg source_format);
     target_format ← lift (format_arg target_format);
     on_files (DataManager.convert dm source target source_format target_format []) ;;
     print (ConvertedLine source target) ;;
     mret Returned)
    (λ e, note ERROR (CommandFailed ConvertCommand e) ;; mret (Exit 1)).

Definition batch_convert_command (source_dir target_dir : path)
    (source_format target_format : option string) : MS status :=
  let dm := DataManager.__init__ in
  try_except
    (source_format ← lift (format_arg source_format);
     target_format ← lift (format_arg target_format);
     on_files (DataManager.batch_convert dm source_dir target_dir
                 source_format target_format []) ;;
     print (BatchConvertedLine source_dir target_dir) ;;
     mret Returned)
    (λ e, note ERROR (CommandFailed BatchConvertCommand e) ;; mret (Exit 1)).

Definition validate_command (p : path) (format : option string) : MS status :=
  let dm := DataManager.__init__ in
  try_except
    (format_type ← lift (format_arg format);
     is_valid ← on_files (DataManager.validate dm p format_type);
     if is_valid : bool then print (ValidLine p) ;; mret Returned
     else print (InvalidLine p) ;; mret (Exit 1))
    (λ e, note ERROR (CommandFailed ValidateCommand e) ;; mret (Exit 1)).

End with_libs.

Section info.
Variable st_size : node → Z.
Variables hdf5_version zarr_version zarr_store_type tensorflow_version : string.

Definition info_command (p : path) (format : option string) : MS status :=
  let dm := DataManager.__init__ in
  try_except
    (format_type ← lift (format_arg format);
     match DataManager._loaders dm !! format_type with
     | None => print (NoLoaderLine format_type) ;; mret (Exit 1)
     | Some loader_class =>
         loader ← on_files (new_loader loader_class p []);
         metadata ← get_metadata st_size hdf5_version zarr_version zarr_store_type
                      tensorflow_version loader;
         print (FileLine p) ;;
         print (FormatLine format_type) ;;
         print (SizeLine (assoc "file_size" metadata)) ;;
         (if bool_decide ("groups" ∈ keys metadata)
          then print (GroupsLine (default PNone (assoc "groups" metadata)))
          else mret tt) ;;
         mret Returned
     end)
    (λ e, note ERROR (CommandFailed InfoCommand e) ;; mret (Exit 1)).

End info.
End cli.

(** ** Sessions of the examples *)

Definition session_of (st : state) : session := mk_session st [] [].
(** ** What the tree codecs store for a value *)

Section stored.
Context `{Libs}.



(** [stored_items leaf accepts d d']: the dict [d] can be written, and
    [d'] is [d] with every value that is no dict replaced by its array.
    Keys name links and occur once; the store accepts each array, with the
    compression filter or without it. *)
Inductive stored_items (leaf : pyval → result ndarray) (accepts : bool → ndarray → bool)
    : list (string * pyval) → list (string * pyval) → Prop :=
| stored_items_nil : stored_items leaf accepts [] []
| stored_items_leaf k v a d d' :
    link_name k = true → is_dict v = false → leaf v = inr a →
    accepts true a = true ∨ accepts false a = true →
    k ∉ keys d → stored_items leaf accepts d d' →
    stored_items leaf accepts ((k, v) :: d) ((k, PArray a) :: d')
| stored_items_group k sub sub' d d' :
    link_name k = true → stored_items leaf accepts sub sub' →
    k ∉ keys d → stored_items leaf accepts d d' →
    stored_items leaf accepts ((k, PDict sub) :: d) ((k, PDict sub') :: d').

End stored.

(** ** More inputs of the examples *)

(** A JSON file, and a pickle file to convert it into. *)
Definition json_and_pickle : state :=
  mk_state (<[ ["out.pkl"] := RawFile "" ]>
           (<[ ["a.json"] := JsonFile (PDict [("n", PInt 1)]) ]> ∅)) [] [].

(** A LeRobot data set: a directory with two episode files and a file the
    loader does not look at. *)
Definition lerobot_dir : state :=
  mk_state (<[ ["ds"; "notes.txt"] := RawFile "to do" ]>
           (<[ ["ds"; "episode_1.json"] := JsonFile (PDict [("episode_id", PInt 1)]) ]>
           (<[ ["ds"; "episode_0.json"] := JsonFile (PDict [("episode_id", PInt 0)]) ]>
           (<[ ["ds"] := Dir ]> ∅)))) [] [].

(** * Properties *)

(** ** Format detection *)

Lemma format_mapping_lookup (s : string) :
  DataManager.format_mapping !! s = suffix_table s.
Proof.
  unfold DataManager.format_mapping, suffix_table.
  repeat (rewrite lookup_insert; destruct (decide (_ = s)) as [<-|?]; [reflexivity|]).
  rewrite lookup_empty.
  repeat (destruct (decide (s = _)) as [->|?]; [congruence|]).
  reflexivity.
Qed.

Lemma suffix_table_range (s : string) (f : FormatType) :
  suffix_table s = Some f → f ∈ [HDF5; ZARR; JSON; PICKLE; NUMPY].
Proof.
  unfold suffix_table.
  repeat (destruct (decide (s = _)) as [->|?];
          [intros [= <-]; rewrite !elem_of_cons; tauto|]).
  discriminate.
Qed.

Lemma detect_format_range (p : path) :
  DataManager._detect_format p ∈ [HDF5; ZARR; JSON; PICKLE; NUMPY].
Proof.
  unfold DataManager._detect_format. rewrite format_mapping_lookup.
  destruct (suffix_table _) as [f|] eqn:E; simpl.
  - eapply suffix_table_range, E.
  - apply elem_of_cons; by left.
Qed.

Lemma detect_format_not_auto (p : path) : DataManager._detect_format p ≠ AUTO.
Proof.
  intros E. pose proof (detect_format_range p) as Hr. rewrite E in Hr.
  repeat (apply elem_of_cons in Hr as [Hr|Hr]; [discriminate|]).
  by apply elem_of_nil in Hr.
Qed.

(** Detection looks at nothing but the suffix. *)
Lemma detect_format_same_suffix (p q : path) :
  lower (suffix p) = lower (suffix q) →
  DataManager._detect_format p = DataManager._detect_format q.
Proof. unfold DataManager._detect_format. intros ->. reflexivity. Qed.

(** C7. Detection is the static suffix table applied to the lower-cased
    suffix of the file name, and a suffix the table does not list, or no
    suffix at all, gives HDF5: the result is always one of the five formats
    of the table. *)
Theorem detect_format_by_table (p : path) :
  DataManager._detect_format p = default HDF5 (suffix_table (lower (suffix p)))
  ∧ DataManager._detect_format p ∈ [HDF5; ZARR; JSON; PICKLE; NUMPY].
Proof.
  split; [|apply detect_format_range].
  unfold DataManager._detect_format. by rewrite format_mapping_lookup.
Qed.

Example detect_zarr : DataManager._detect_format ["data"; "foo.zarr"] = ZARR.
Proof. vm_compute. reflexivity. Qed.

Example detect_upper : DataManager._detect_format ["data"; "foo.JSON"] = JSON.
Proof. vm_compute. reflexivity. Qed.

Example detect_unknown : DataManager._detect_format ["foo.unknownext"] = HDF5.
Proof. vm_compute. reflexivity. Qed.

Example detect_no_suffix : DataManager._detect_format ["data"; "episode"] = HDF5.
Proof. vm_compute. reflexivity. Qed.

(** ** AUTO is resolved before anything is loaded *)

Section auto.
Context `{Libs}.

(** C10. [convert] with both formats AUTO is [convert] with the formats
    detection gives for the two paths: same result, same final state,
    whatever keywords the two calls are given. *)
Theorem convert_auto (self : DataManager.t) (source_path target_path : path)
    (kw : kwargs) (st : state) :
  DataManager.convert self source_path target_path AUTO AUTO kw st
  = DataManager.convert self source_path target_path
      (DataManager._detect_format source_path)
      (DataManager._detect_format target_path) kw st.
Proof.
  unfold DataManager.convert.
  destruct (decide (AUTO = AUTO)) as [_|]; [|done].
  destruct (decide (DataManager._detect_format source_path = AUTO)) as [E|_];
    [by apply detect_format_not_auto in E|].
  destruct (decide (DataManager._detect_format target_path = AUTO)) as [E|_];
    [by apply detect_format_not_auto in E|].
  reflexivity.
Qed.

End auto.

(** ** Reading never changes the file system *)

Lemma run_bind {S A B} (m : SE S A) (f : A → SE S B) (s : S) :
  (m ≫= f) s = match m s with
               | (inr x, s') => f x s'
               | (inl e, s') => (inl e, s')
               end.
Proof. reflexivity. Qed.

Lemma keeps_fs_ret {A} (x : A) : keeps_fs (mret x).
Proof. by intros st. Qed.

Lemma keeps_fs_raise {A} (e : exn) : keeps_fs (raise e : M A).
Proof. by intros st. Qed.

Lemma keeps_fs_lift {A} (r : result A) : keeps_fs (lift r : M A).
Proof. by intros st. Qed.

Lemma keeps_fs_logger lv msg : keeps_fs (logger lv msg).
Proof. by intros st. Qed.

Lemma keeps_fs_io_call ev : keeps_fs (io_call ev).
Proof. by intros st. Qed.

Lemma keeps_fs_get_fs : keeps_fs get_fs.
Proof. by intros st. Qed.

Lemma keeps_fs_bind {A B} (m : M A) (f : A → M B) :
  keeps_fs m → (∀ x, keeps_fs (f x)) → keeps_fs (m ≫= f).
Proof.
  intros Hm Hf st. unfold mbind, SE_bind. specialize (Hm st).
  destruct (m st) as [[e|x] st']; simpl in *; [done|].
  by rewrite Hf.
Qed.

Lemma keeps_fs_try_except {A} (body : M A) (handler : exn → M A) :
  keeps_fs body → (∀ e, keeps_fs (handler e)) → keeps_fs (try_except body handler).
Proof.
  intros Hb Hh st. unfold try_except. specialize (Hb st).
  destruct (body st) as [[e|x] st']; simpl in *; [|done].
  by rewrite Hh.
Qed.

Ltac keeps_fs_step :=
  first
    [ apply keeps_fs_ret | apply keeps_fs_raise | apply keeps_fs_lift
    | apply keeps_fs_logger | apply keeps_fs_io_call | apply keeps_fs_get_fs
    | apply keeps_fs_bind; [|intros ?]
    | apply keeps_fs_try_except; [|intros ?]
    | match goal with
      | |- keeps_fs (match ?x with _ => _ end) => destruct x
      | |- keeps_fs (if ?b then _ else _) => destruct b
      end ].

Ltac keeps_fs := repeat keeps_fs_step.

Lemma keeps_fs_path_exists p : keeps_fs (path_exists p).
Proof. unfold path_exists. keeps_fs. Qed.

Lemma keeps_fs_path_is_file p : keeps_fs (path_is_file p).
Proof. unfold path_is_file. keeps_fs. Qed.

Lemma keeps_fs_read_node p : keeps_fs (read_node p).
Proof. unfold read_node. keeps_fs. Qed.

(** *** Keywords, and the loader a constructor builds *)

Lemma call_kw_run {A} (params : list string) (kw : kwargs) (body : M A) (st : state) :
  call_kw params kw body st = if binds params kw then body st else (inl TypeError, st).
Proof. unfold call_kw. by destruct (binds params kw). Qed.

Lemma binds_without (params : list string) (name : string) (kw : kwargs) :
  binds params kw = true → binds params (without name kw) = true.
Proof.
  unfold binds, without, keys. rewrite !forallb_forall. intros Hb k Hk. apply Hb.
  apply in_map_iff in Hk as (kv & <- & Hkv). apply in_map.
  by apply list_elem_of_In, list_elem_of_filter in Hkv as [_ ?%list_elem_of_In].
Qed.

Lemma binds_weaken (params params' : list string) (kw : kwargs) :
  params' ⊆ params → binds params kw = true → binds params' kw = true.
Proof.
  unfold binds. rewrite !forallb_forall. intros Hsub Hb k Hk.
  specialize (Hb k Hk). apply negb_true_iff, bool_decide_eq_false in Hb.
  apply negb_true_iff, bool_decide_eq_false. intros Hin. apply Hb. by apply Hsub.
Qed.

Lemma built_nil (c : LoaderClass) (p : path) : built c p [] = mk_loader c p.
Proof. by destruct c. Qed.

Lemma built_path (c : LoaderClass) (p : path) (kw : kwargs) : l_path (built c p kw) = p.
Proof. by destruct c. Qed.

Lemma built_class (c : LoaderClass) (p : path) (kw : kwargs) : l_class (built c p kw) = c.
Proof. by destruct c. Qed.

(** With no [mode] among the keywords, or the mode 'r', every loader has
    the mode 'r'. *)
Lemma built_read_mode (c : LoaderClass) (p : path) (kw : kwargs) :
  read_mode kw → l_mode (built c p kw) = PStr "r".
Proof. unfold read_mode. by destruct c. Qed.

Lemma validate_path_run (p : path) (st : state) :
  BaseDataLoader._validate_path p st
  = (if path_in (fs st) p then inr tt else inl FileNotFoundError, after_io st (IOStat p)).
Proof.
  unfold BaseDataLoader._validate_path, path_exists.
  unfold mbind, SE_bind, io_call, get_fs, mret, SE_ret, raise, after_io; simpl.
  by destruct (path_in (fs st) p).
Qed.

(** The constructor of every class: TypeError for a keyword [self] or
    [path], FileNotFoundError for a path that does not exist, and the
    loader otherwise, after one look at the path. *)
Lemma new_loader_run (c : LoaderClass) (p : path) (kw : kwargs) (st : state) :
  new_loader c p kw st
  = if binds ["self"; "path"] kw then
      (if path_in (fs st) p then inr (built c p kw) else inl FileNotFoundError,
       after_io st (IOStat p))
    else (inl TypeError, st).
Proof.
  unfold new_loader, BaseDataLoader.__init__.
  destruct (binds ["self"; "path"] kw) eqn:Hb;
    destruct c; rewrite ?call_kw_run, ?Hb, ?(binds_without _ _ _ Hb); try reflexivity;
    rewrite run_bind, validate_path_run; by destruct (path_in (fs st) p).
Qed.

Lemma keeps_fs_new_loader c p kw : keeps_fs (new_loader c p kw).
Proof.
  intros st. rewrite new_loader_run.
  by destruct (binds _ kw), (path_in (fs st) p).
Qed.

Section read_only.
Context `{Libs}.

Lemma keeps_fs_json_load_file p : keeps_fs (json.load_file p).
Proof.
  unfold json.load_file.
  apply keeps_fs_bind; [apply keeps_fs_read_node|intros; keeps_fs].
Qed.

Lemma keeps_fs_load_episodes files eps : keeps_fs (lerobot.load_episodes files eps).
Proof.
  revert eps. induction files as [|f files IH]; intros eps; simpl.
  - apply keeps_fs_ret.
  - apply keeps_fs_bind; [apply keeps_fs_json_load_file|intros; apply IH].
Qed.

Lemma keeps_fs_load_directory p : keeps_fs (lerobot._load_directory p).
Proof.
  unfold lerobot._load_directory.
  apply keeps_fs_bind; [apply keeps_fs_io_call|intros _].
  apply keeps_fs_bind; [apply keeps_fs_get_fs|intros m].
  apply keeps_fs_bind; [apply keeps_fs_load_episodes|intros; apply keeps_fs_ret].
Qed.

(** With the mode 'r' the tree codecs open what is there, for reading. *)
Lemma hdf5_open_file_r (p : path) : hdf5.open_file p (PStr "r") = hdf5.open_existing p.
Proof. reflexivity. Qed.

Lemma zarr_open_store_r (p : path) : zarr.open_store p (PStr "r") = zarr.open_read p.
Proof. reflexivity. Qed.

Lemma keeps_fs_open_existing (p : path) : keeps_fs (hdf5.open_existing p).
Proof.
  unfold hdf5.open_existing.
  apply keeps_fs_bind; [apply keeps_fs_read_node|intros; keeps_fs].
Qed.

(** Every codec's [load] is read-only, when the mode of the loader is 'r'
    (the classes other than [HDF5Loader] and [ZarrLoader] read no mode). *)
Lemma keeps_fs_loader_load (l : loader) :
  l_mode l = PStr "r" ∨ l_class l ∉ [HDF5Loader; ZarrLoader] →
  keeps_fs (loader_load l).
Proof.
  intros Hmode. unfold loader_load. destruct (l_class l) eqn:Ec.
  - destruct Hmode as [Hmode|Hc]; [|exfalso; apply Hc; rewrite !elem_of_cons; tauto].
    unfold hdf5.load. rewrite Hmode, hdf5_open_file_r.
    apply keeps_fs_try_except; [|intros; keeps_fs].
    apply keeps_fs_bind; [apply keeps_fs_open_existing|intros; keeps_fs].
  - destruct Hmode as [Hmode|Hc]; [|exfalso; apply Hc; rewrite !elem_of_cons; tauto].
    unfold zarr.load. rewrite Hmode, zarr_open_store_r. unfold zarr.open_read. keeps_fs.
  - unfold rlds.load, rlds._parse_rlds_dataset, rlds.read_records.
    apply keeps_fs_try_except; [|intros; keeps_fs].
    apply keeps_fs_bind; [|intros; keeps_fs].
    apply keeps_fs_bind; [|intros; keeps_fs].
    apply keeps_fs_bind; [apply keeps_fs_read_node|intros; keeps_fs].
  - unfold lerobot.load, lerobot._load_single_file.
    apply keeps_fs_try_except; [|intros; keeps_fs].
    apply keeps_fs_bind; [apply keeps_fs_path_is_file|intros single].
    apply keeps_fs_bind; [|intros; keeps_fs].
    destruct single; [|apply keeps_fs_load_directory].
    destruct (decide _); [apply keeps_fs_json_load_file|keeps_fs].
  - unfold json.load. apply keeps_fs_try_except; [|intros; keeps_fs].
    apply keeps_fs_bind; [apply keeps_fs_json_load_file|intros; keeps_fs].
  - unfold pickle.load. apply keeps_fs_try_except; [|intros; keeps_fs].
    apply keeps_fs_bind; [apply keeps_fs_read_node|intros; keeps_fs].
  - unfold numpy.load. apply keeps_fs_try_except; [|intros; keeps_fs].
    apply keeps_fs_bind; [apply keeps_fs_read_node|intros; keeps_fs].
Qed.

(** [load] of the Data Manager is read-only unless a keyword [mode] other
    than 'r' reaches the loader. *)
Lemma keeps_fs_load self p ft kw : read_mode kw → keeps_fs (DataManager.load self p ft kw).
Proof.
  intros Hkw st. unfold DataManager.load. rewrite call_kw_run.
  destruct (binds _ kw); [|done].
  destruct (_ !! _) as [c|]; [|done].
  rewrite run_bind, new_loader_run.
  destruct (binds _ kw); [|done].
  destruct (path_in (fs st) p); [|done].
  rewrite keeps_fs_loader_load; [done|]. left. by apply built_read_mode.
Qed.

Lemma read_mode_nil : read_mode [].
Proof. reflexivity. Qed.

End read_only.

(** ** A target that does not exist yet *)

Lemma init_missing (c : LoaderClass) (p : path) (st : state) :
  path_in (fs st) p = false →
  new_loader c p [] st = (inl FileNotFoundError, after_io st (IOStat p)).
Proof. intros Hp. rewrite new_loader_run. simpl. by rewrite Hp. Qed.

Lemma init_found (c : LoaderClass) (p : path) (st : state) :
  path_in (fs st) p = true →
  new_loader c p [] st = (inr (mk_loader c p), after_io st (IOStat p)).
Proof. intros Hp. rewrite new_loader_run. simpl. by rewrite Hp, built_nil. Qed.

(** The registry of a new Data Manager has a loader for every format but
    AUTO. *)
Lemma default_loaders_registered (format_type : FormatType) :
  format_type ≠ AUTO →
  is_Some (DataManager._loaders DataManager.__init__ !! format_type).
Proof. destruct format_type; intros Hne; try done; by eexists. Qed.

(** What [mkdir] makes lies on the way to its path: a path that holds
    nothing and is none of the steps still holds nothing. *)
Lemma mkdir_steps_missing (p : path) (qs : list path) (st : state) (x : path) :
  node_at (fs st) x = None → x ∉ qs →
  node_at (fs (for_each (mkdir_step p) qs st).2) x = None.
Proof.
  revert st. induction qs as [|q qs IH]; intros st Hx Hq; [done|].
  apply not_elem_of_cons in Hq as [Hne Hq].
  simpl. rewrite run_bind.
  unfold mkdir_step at 1. rewrite run_bind. unfold get_fs at 1. cbv beta iota.
  destruct (node_at (fs st) q) as [nq|] eqn:Eq.
  - destruct (node_is_dir nq); [by apply IH|done].
  - unfold put_fs. apply IH; [|done]. cbn [fs].
    destruct x as [|c x]; [done|]. simpl. by rewrite lookup_insert_ne.
Qed.

Lemma ancestors_and_self_prefix (p q : path) : q ∈ ancestors_and_self p → q `prefix_of` p.
Proof.
  unfold ancestors_and_self. intros (n & -> & _)%list_elem_of_fmap.
  apply prefix_take.
Qed.

Lemma parent_prefix (p : path) : parent p `prefix_of` p.
Proof.
  unfold parent. destruct (decide (p = [])) as [->|Hne]; [done|].
  exists [List.last p ""]. by apply app_removelast_last.
Qed.

Lemma node_at_remove_below_none (m : gmap path node) (p x : path) :
  node_at m x = None → node_at (remove_below p m) x = None.
Proof.
  destruct x as [|c x]; [done|]. simpl. unfold remove_below. intros Hx.
  apply map_lookup_filter_None. by left.
Qed.

Lemma path_in_false (m : gmap path node) (p : path) :
  path_in m p = false ↔ node_at m p = None.
Proof.
  unfold path_in. rewrite bool_decide_eq_false, <- eq_None_not_Some. done.
Qed.

Lemma binds_load_ctor (kw : kwargs) :
  binds DataManager.load_params kw = true → binds ["self"; "path"] kw = true.
Proof.
  apply binds_weaken. intros x. unfold DataManager.save_params, DataManager.load_params.
  rewrite !elem_of_cons. tauto.
Qed.

Lemma binds_save_ctor (kw : kwargs) :
  binds DataManager.save_params kw = true → binds ["self"; "path"] kw = true.
Proof.
  apply binds_weaken. intros x. unfold DataManager.save_params, DataManager.load_params.
  rewrite !elem_of_cons. tauto.
Qed.

Lemma binds_save_load (kw : kwargs) :
  binds DataManager.save_params kw = true → binds DataManager.load_params kw = true.
Proof.
  apply binds_weaken. intros x. unfold DataManager.save_params, DataManager.load_params.
  rewrite !elem_of_cons. tauto.
Qed.

Section fresh_target.
Context `{Libs}.

Lemma create_file_cases (p : path) (st : state) :
  (∃ e, hdf5.create_file p st = (inl e, after_io st (IOWrite p)))
  ∨ hdf5.create_file p st
    = (inr [], mk_state (<[p := H5File []]> (fs st)) (log st) (io st ++ [IOWrite p])).
Proof.
  unfold hdf5.create_file, mbind, SE_bind, io_call, get_fs, put_fs, raise, after_io,
    mret, SE_ret. simpl.
  destruct (path_in (fs st) p); [left; by eexists|].
  destruct (is_dir (fs st) (parent p)); [by right|left; by eexists].
Qed.

Lemma open_write_run (p : path) (empty : node) (st : state) :
  open_write p empty st
  = if is_dir (fs st) p then (inl IsADirectoryError, after_io st (IOWrite p))
    else if is_dir (fs st) (parent p)
    then (inr tt, mk_state (<[p := empty]> (fs st)) (log st) (io st ++ [IOWrite p]))
    else (inl FileNotFoundError, after_io st (IOWrite p)).
Proof.
  unfold open_write, mbind, SE_bind, io_call, get_fs, put_fs, raise, after_io. simpl.
  destruct (is_dir (fs st) p); [done|]. by destruct (is_dir (fs st) (parent p)).
Qed.

Lemma node_at_insert_other (m : gmap path node) (p q : path) (n : node) :
  q ≠ p → q ≠ [] → node_at (<[p := n]> m) q = node_at m q.
Proof. intros Hne Hq. destruct q as [|c q]; [done|]. simpl. by rewrite lookup_insert_ne. Qed.

(** The steps by which a zarr store is made at a path: the directories on
    the way, then the root group. *)
Lemma zarr_init_missing (p q : path) (clear : bool) (st : state) :
  node_at (fs st) q = None → ¬ q `prefix_of` p →
  node_at (fs ((for_each (mkdir_step p) (ancestors_and_self (parent p)) ;;
                m ← get_fs;
                put_fs (<[p := ZarrStore []]> (if clear then remove_below p m else m)))
               st : result unit * state).2) q = None.
Proof.
  intros Hq Hpre.
  assert (q ≠ p) as Hne by (by intros ->).
  assert (q ≠ []) as Hq0 by (intros ->; apply Hpre, prefix_nil).
  rewrite run_bind.
  pose proof (mkdir_steps_missing p (ancestors_and_self (parent p)) st q Hq) as Hmk.
  destruct (for_each _ _ st) as [[e|[]] s1]; simpl in Hmk.
  - apply Hmk. intros Hin%ancestors_and_self_prefix. apply Hpre.
    etrans; [done|apply parent_prefix].
  - unfold mbind, SE_bind, get_fs, put_fs. cbn [fs snd].
    rewrite node_at_insert_other by done.
    destruct clear; [apply node_at_remove_below_none|]; apply Hmk;
      intros Hin%ancestors_and_self_prefix; apply Hpre;
      (etrans; [done|apply parent_prefix]).
Qed.

(** Whatever its mode, a loader's [load] makes nothing where there was
    nothing, except at its own path. *)
Lemma hdf5_open_file_missing (p q : path) (mode : pyval) (st : state) :
  node_at (fs st) q = None → q ≠ p → q ≠ [] →
  node_at (fs (hdf5.open_file p mode st).2) q = None.
Proof.
  intros Hq Hne Hq0. unfold hdf5.open_file. rewrite run_bind. unfold lift.
  assert (∀ s, node_at (fs s) q = None →
            node_at (fs (hdf5.create_file p s).2) q = None) as Hcr.
  { intros s Hs. destruct (create_file_cases p s) as [[e ->]| ->]; [done|].
    simpl. by rewrite node_at_insert_other. }
  destruct (hdf5.mode_access access_names mode) as [e|[| | | |]]; try done.
  - by rewrite keeps_fs_open_existing.
  - by rewrite keeps_fs_open_existing.
  - rewrite run_bind, open_write_run.
    destruct (is_dir (fs st) p); [done|].
    destruct (is_dir (fs st) (parent p)); [|done].
    simpl. by rewrite node_at_insert_other.
  - by apply Hcr.
  - rewrite run_bind. unfold get_fs. cbv beta iota.
    destruct (path_in (fs st) p); [by rewrite keeps_fs_open_existing|by apply Hcr].
Qed.

Lemma zarr_open_read_keeps (p : path) : keeps_fs (zarr.open_read p).
Proof. unfold zarr.open_read. keeps_fs. Qed.

Lemma zarr_open_store_missing (p q : path) (mode : pyval) (st : state) :
  node_at (fs st) q = None → ¬ q `prefix_of` p →
  node_at (fs (zarr.open_store p mode st).2) q = None.
Proof.
  intros Hq Hpre. unfold zarr.open_store. rewrite run_bind. unfold lift.
  assert (∀ b s, node_at (fs s) q = None →
            node_at (fs (zarr.open_or_create b p s).2) q = None) as Hcr.
  { intros b s Hs. unfold zarr.open_or_create. rewrite run_bind.
    unfold get_fs at 1. cbv beta iota.
    assert (node_at (fs ((io_call (IOWrite p) ;;
               for_each (mkdir_step p) (ancestors_and_self (parent p)) ;;
               m ← get_fs; put_fs (<[p:=ZarrStore []]> m) ;; mret [])
               s : result group * state).2) q = None) as Hinit.
    { rewrite run_bind. unfold io_call at 1. cbv beta iota.
      pose proof (zarr_init_missing p q false
                    (mk_state (fs s) (log s) (io s ++ [IOWrite p])) Hs Hpre) as Hi.
      rewrite run_bind in Hi. rewrite run_bind.
      destruct (for_each _ _ _) as [[e|[]] s1]; [done|].
      rewrite run_bind in Hi. rewrite !run_bind.
      unfold get_fs, put_fs in *. by cbn [fs snd] in *. }
    destruct (node_at (fs s) p) as [[]|]; try done.
    destruct b; [by rewrite zarr_open_read_keeps|done]. }
  destruct (zarr.mode_access mode) as [e|[| | | |]]; try done;
    try (by rewrite zarr_open_read_keeps); try (by apply Hcr).
  rewrite run_bind. unfold zarr.open_write. rewrite run_bind.
  unfold io_call at 1. cbv beta iota. rewrite run_bind.
  unfold get_fs at 1. cbv beta iota. cbn [fs log io].
  destruct (is_file (fs st) p); [done|].
  pose proof (zarr_init_missing p q true
                (mk_state (fs st) (log st) (io st ++ [IOWrite p])) Hq Hpre) as Hi.
  cbv iota in Hi.
  match goal with |- context [let (_, _) := ?m in _] => destruct m as [[e|[]] s1] end;
    done.
Qed.

Lemma loader_load_missing (l : loader) (st : state) (q : path) :
  path_in (fs st) q = false → ¬ q `prefix_of` l_path l →
  path_in (fs (loader_load l st).2) q = false.
Proof.
  rewrite !path_in_false. intros Hq Hpre.
  assert (q ≠ l_path l) as Hne by (by intros ->).
  assert (q ≠ []) as Hq0 by (intros ->; apply Hpre, prefix_nil).
  destruct (decide (l_class l ∈ [HDF5Loader; ZarrLoader])) as [Hc|Hc];
    [|by rewrite keeps_fs_loader_load by (by right)].
  unfold loader_load.
  destruct (l_class l); try (exfalso; revert Hc; rewrite !elem_of_cons, elem_of_nil;
                             intuition congruence).
  - unfold hdf5.load, try_except. rewrite run_bind.
    pose proof (hdf5_open_file_missing (l_path l) q (l_mode l) st Hq Hne Hq0) as Hopen.
    destruct (hdf5.open_file (l_path l) (l_mode l) st) as [[e|g] s1]; done.
  - unfold zarr.load, try_except. rewrite run_bind.
    pose proof (zarr_open_store_missing (l_path l) q (l_mode l) st Hq Hpre) as Hopen.
    destruct (zarr.open_store (l_path l) (l_mode l) st) as [[e|g] s1]; done.
Qed.

Lemma load_missing (self : DataManager.t) (p : path) (format_type : FormatType)
    (kw : kwargs) (st : state) (q : path) :
  path_in (fs st) q = false → read_mode kw ∨ ¬ q `prefix_of` p →
  path_in (fs (DataManager.load self p format_type kw st).2) q = false.
Proof.
  intros Hq [Hkw|Hpre]; [by rewrite keeps_fs_load|].
  unfold DataManager.load. rewrite call_kw_run.
  destruct (binds _ kw); [|done].
  destruct (_ !! _) as [c|]; [|done].
  rewrite run_bind, new_loader_run.
  destruct (binds _ kw); [|done].
  destruct (path_in (fs st) p); [|done].
  apply loader_load_missing; [done|]. by rewrite built_path.
Qed.

Lemma save_missing (self : DataManager.t) (data : pyval) (p : path)
    (format_type : FormatType) (kw : kwargs) (st : state) :
  path_in (fs st) p = false →
  ∃ e st', DataManager.save self data p format_type kw st = (inl e, st')
    ∧ fs st' = fs st
    ∧ (is_Some (DataManager._loaders self !! format_type) →
       binds DataManager.save_params kw = true → e = FileNotFoundError).
Proof.
  intros Hp. unfold DataManager.save. rewrite call_kw_run.
  destruct (binds DataManager.save_params kw) eqn:Hb.
  - destruct (DataManager._loaders self !! format_type) as [c|] eqn:E.
    + rewrite run_bind, new_loader_run, (binds_save_ctor _ Hb), Hp.
      by eexists _, _.
    + exists ValueError, st. split; [reflexivity|]. split; [reflexivity|].
      by intros [? ?].
  - exists TypeError, st. by repeat split.
Qed.

(** C3. A loader cannot be built on a path that does not exist, whatever its
    class and its keywords: the constructor raises FileNotFoundError.  So
    [save] and [convert] on a target that does not exist raise, and the
    target still does not exist afterwards.  [save] changes no file at all,
    and neither does [convert] unless a keyword [mode] other than 'r'
    reaches the loader of the source.  The error is FileNotFoundError as
    soon as the target's loader is built, that is, when no keyword names a
    parameter, the target format is registered and (for [convert]) the
    source was loaded. *)
Theorem fresh_target_raises (self : DataManager.t) (data : pyval)
    (source_path target_path : path) (source_format target_format : FormatType)
    (kw : kwargs) (st : state) :
  path_in (fs st) target_path = false →
  (∀ c, binds ["self"; "path"] kw = true →
        new_loader c target_path kw st
        = (inl FileNotFoundError, after_io st (IOStat target_path)))
  ∧ (∃ e st', DataManager.save self data target_path target_format kw st = (inl e, st')
        ∧ fs st' = fs st
        ∧ (is_Some (DataManager._loaders self !! target_format) →
           binds DataManager.save_params kw = true →
           e = FileNotFoundError))
  ∧ (read_mode kw ∨ ¬ target_path `prefix_of` source_path →
     ∃ e st', DataManager.convert self source_path target_path
                source_format target_format kw st = (inl e, st')
        ∧ path_in (fs st') target_path = false
        ∧ (read_mode kw → fs st' = fs st)
        ∧ (is_Some (DataManager._loaders self !! resolved target_format target_path) →
           accepted kw = true →
           ∀ source_data st1,
             DataManager.load self source_path (resolved source_format source_path) kw st
               = (inr source_data, st1) →
             e = FileNotFoundError)).
Proof.
  intros Hp. split; [|split].
  - intros c Hb. by rewrite new_loader_run, Hb, Hp.
  - by apply save_missing.
  - intros Hframe. unfold DataManager.convert. rewrite call_kw_run.
    unfold accepted.
    destruct (binds DataManager.convert_params kw) eqn:Hbc;
      [|exists TypeError, st; by repeat split].
    fold (resolved source_format source_path).
    fold (resolved target_format target_path).
    rewrite run_bind.
    pose proof (load_missing self source_path (resolved source_format source_path)
                  kw st target_path Hp Hframe) as Hp1.
    pose proof (λ Hkw, keeps_fs_load self source_path
                  (resolved source_format source_path) kw Hkw st) as Hfs.
    destruct (DataManager.load self source_path _ kw st) as [[e|d] st1] eqn:El;
      simpl in Hfs, Hp1.
    + exists e, st1. repeat split; try done; intros _ _ ? ? [=].
    + destruct (save_missing self d target_path (resolved target_format target_path)
                  kw st1 Hp1) as (e & st' & Es & Hfs' & He).
      exists e, st'. split; [done|]. split; [by rewrite Hfs'|].
      split; [intros Hkw; rewrite Hfs'; by apply Hfs|].
      intros Hr Hb ? ? _. by apply He.
Qed.

End fresh_target.

(** ** What [try ... except Exception] leaves of an exception *)

Lemma try_except_total {S A} (body : SE S A) (handler : exn → SE S A) :
  (∀ e s, ∃ x s', handler e s = (inr x, s')) →
  ∀ s, ∃ x s', try_except body handler s = (inr x, s').
Proof.
  intros Hh s. unfold try_except.
  destruct (body s) as [[e|x] s']; [apply Hh|by eexists _, _].
Qed.

Lemma try_except_reraise {S A} (body : SE S A) (handler : exn → SE S unit)
    (e0 : exn) (s : S) :
  (∀ e s1, ∃ s2, handler e s1 = (inr tt, s2)) →
  ∀ e s', try_except body (λ e, handler e ;; raise e0) s = (inl e, s') → e = e0.
Proof.
  intros Hh e s'. unfold try_except.
  destruct (body s) as [[e1|x] s1]; [|discriminate].
  unfold mbind, SE_bind. destruct (Hh e1 s1) as [s2 ->].
  unfold raise. by intros [= <- _].
Qed.

Lemma logger_total lv msg st : ∃ st', logger lv msg st = (inr tt, st').
Proof. by eexists. Qed.

Section validate.
Context `{Libs}.

(** Each codec's [validate] catches whatever its body raises. *)
Lemma loader_validate_total (l : loader) (data : pyval) (st : state) :
  ∃ b st', loader_validate l data st = (inr b, st').
Proof.
  unfold loader_validate.
  destruct (l_class l);
    [ unfold hdf5.validate | unfold zarr.validate | unfold rlds.validate
    | unfold lerobot.validate | unfold json.validate | unfold pickle.validate
    | unfold numpy.validate ];
    apply try_except_total; intros e s; by eexists _, _.
Qed.

(** Each codec's [load] turns whatever its body raises into
    DataValidationError. *)
Lemma loader_load_raises (l : loader) (st st' : state) (e : exn) :
  loader_load l st = (inl e, st') → e = DataValidationError.
Proof.
  unfold loader_load.
  destruct (l_class l);
    [ unfold hdf5.load | unfold zarr.load | unfold rlds.load
    | unfold lerobot.load | unfold json.load | unfold pickle.load
    | unfold numpy.load ];
    apply try_except_reraise; intros; apply logger_total.
Qed.

(** C1. Every codec's [validate] returns a boolean for every value, and
    never raises.  The Data Manager's [validate] returns a boolean when the
    format is registered, the path exists and its content loads; otherwise
    it raises: ValueError for a format without loader, FileNotFoundError for
    a path that does not exist, DataValidationError for a file that does not
    load. *)
Theorem validate_outcomes :
  (∀ (l : loader) (data : pyval) (st : state),
     ∃ b st', loader_validate l data st = (inr b, st'))
  ∧ (∀ (self : DataManager.t) (p : path) (format_type : FormatType) (st : state),
       match DataManager._loaders self !! resolved format_type p with
       | None => DataManager.validate self p format_type st = (inl ValueError, st)
       | Some c =>
           if path_in (fs st) p then
             match loader_load (mk_loader c p) (after_io st (IOStat p)) with
             | (inl e, st1) =>
                 DataManager.validate self p format_type st
                 = (inl DataValidationError, st1)
             | (inr data, st1) =>
                 ∃ b st', DataManager.validate self p format_type st = (inr b, st')
             end
           else
             DataManager.validate self p format_type st
             = (inl FileNotFoundError, after_io st (IOStat p))
       end).
Proof.
  split; [apply loader_validate_total|].
  intros self p format_type st. unfold DataManager.validate.
  fold (resolved format_type p).
  destruct (DataManager._loaders self !! resolved format_type p) as [c|]; [|done].
  unfold mbind, SE_bind.
  destruct (path_in (fs st) p) eqn:Hp.
  - rewrite init_found by done.
    destruct (loader_load _ _) as [[e|data] st1] eqn:El.
    + by apply loader_load_raises in El as ->.
    + apply loader_validate_total.
  - by rewrite init_missing.
Qed.

End validate.

(** ** A format without loader *)

Lemma resolved_idemp (format_type : FormatType) (p : path) :
  resolved (resolved format_type p) p = resolved format_type p.
Proof.
  unfold resolved. destruct (decide (format_type = AUTO)); [|by rewrite decide_False].
  rewrite decide_False; [done|apply detect_format_not_auto].
Qed.

Section unregistered.
Context `{Libs}.

Lemma load_unregistered (self : DataManager.t) (p : path) (format_type : FormatType)
    (kw : kwargs) (st : state) :
  DataManager._loaders self !! resolved format_type p = None →
  DataManager.load self p format_type kw st
  = (inl (if binds DataManager.load_params kw then ValueError else TypeError), st).
Proof.
  intros E. unfold DataManager.load. rewrite call_kw_run.
  fold (resolved format_type p). rewrite E. by destruct (binds _ kw).
Qed.

Lemma load_resolved (self : DataManager.t) (p : path) (format_type : FormatType)
    (kw : kwargs) :
  DataManager.load self p (resolved format_type p) kw
  = DataManager.load self p format_type kw.
Proof.
  unfold DataManager.load. fold (resolved format_type p).
  fold (resolved (resolved format_type p) p). by rewrite resolved_idemp.
Qed.

(** C5, as the code has it. [load], [save] and [validate] raise ValueError
    for a format without loader before they touch the file system, and so
    does [convert] for its source format: the state is the one of the call.
    (A call whose keywords name one of its parameters is refused with
    TypeError, the state being the one of the call as well.)  For a target
    format without loader, [convert] first loads the source (and raises what
    loading raises); only then does it raise ValueError, the state being the
    one loading left: nothing is written, and no file has changed unless a
    keyword [mode] other than 'r' reached the loader of the source. *)
Theorem unregistered_format_raises (self : DataManager.t) (kw : kwargs) (st : state) :
  (∀ p format_type,
     DataManager._loaders self !! resolved format_type p = None →
     DataManager.load self p format_type kw st
     = (inl (if binds DataManager.load_params kw then ValueError else TypeError), st))
  ∧ (∀ data p format_type,
       DataManager._loaders self !! format_type = None →
       DataManager.save self data p format_type kw st
       = (inl (if binds DataManager.save_params kw then ValueError else TypeError), st))
  ∧ (∀ p format_type,
       DataManager._loaders self !! resolved format_type p = None →
       DataManager.validate self p format_type st = (inl ValueError, st))
  ∧ (∀ source_path target_path source_format target_format,
       DataManager._loaders self !! resolved source_format source_path = None →
       DataManager.convert self source_path target_path source_format target_format
         kw st
       = (inl (if binds DataManager.convert_params kw && binds DataManager.load_params kw
               then ValueError else TypeError), st))
  ∧ (∀ source_path target_path source_format target_format,
       DataManager._loaders self !! resolved target_format target_path = None →
       binds DataManager.convert_params kw = true →
       DataManager.convert self source_path target_path source_format target_format
         kw st
       = match DataManager.load self source_path source_format kw st with
         | (inl e, st1) => (inl e, st1)
         | (inr _, st1) =>
             (inl (if binds DataManager.save_params kw then ValueError else TypeError),
              st1)
         end
       ∧ (read_mode kw →
          fs (DataManager.convert self source_path target_path
                source_format target_format kw st).2 = fs st)).
Proof.
  split; [|split; [|split; [|split]]].
  - intros. by apply load_unregistered.
  - intros data p format_type E. unfold DataManager.save.
    rewrite call_kw_run, E. by destruct (binds _ kw).
  - intros p format_type E. unfold DataManager.validate.
    fold (resolved format_type p). by rewrite E.
  - intros source_path target_path source_format target_format E.
    unfold DataManager.convert. rewrite call_kw_run.
    destruct (binds DataManager.convert_params kw); [|done].
    fold (resolved source_format source_path).
    rewrite run_bind, load_resolved, load_unregistered by done.
    by destruct (binds _ kw).
  - intros source_path target_path source_format target_format E Hb.
    unfold DataManager.convert. rewrite call_kw_run, Hb.
    fold (resolved source_format source_path).
    fold (resolved target_format target_path).
    rewrite run_bind, load_resolved.
    pose proof (λ Hkw, keeps_fs_load self source_path source_format kw Hkw st) as Hfs.
    destruct (DataManager.load self source_path source_format kw st) as [[e|d] st1];
      [done|].
    unfold DataManager.save. rewrite call_kw_run, E.
    by destruct (binds DataManager.save_params kw).
Qed.

End unregistered.

(** ** File names, suffixes and extensions *)

Lemma chars_of_chars (l : list ascii) : chars (of_chars l) = l.
Proof. apply list_ascii_of_string_of_list_ascii. Qed.

Lemma of_chars_chars (s : string) : of_chars (chars s) = s.
Proof. apply string_of_list_ascii_of_string. Qed.

Lemma chars_inj (s t : string) : chars s = chars t → s = t.
Proof. intros E. by rewrite <- (of_chars_chars s), E, of_chars_chars. Qed.

Lemma rfind_dot_from_none (i : nat) (l : list ascii) :
  dot ∉ l → rfind_dot_from i l = None.
Proof.
  revert i. induction l as [|c l IH]; intros i Hl; simpl; [done|].
  apply not_elem_of_cons in Hl as [Hc Hl].
  rewrite IH by done. by destruct (decide (c = dot)).
Qed.

Lemma rfind_dot_from_app (i : nat) (stem e : list ascii) :
  dot ∉ e → rfind_dot_from i (stem ++ dot :: e) = Some (i + length stem).
Proof.
  intros He. revert i. induction stem as [|c stem IH]; intros i; simpl.
  - rewrite rfind_dot_from_none by done. destruct (decide (dot = dot)); [|done].
    f_equal. lia.
  - rewrite IH. f_equal. lia.
Qed.

Lemma plain_ext_chars (ext : string) :
  plain_ext ext = true →
  ∃ e, chars ext = dot :: e ∧ e ≠ [] ∧ (dot ∉ e) ∧ (slash ∉ e).
Proof.
  unfold plain_ext. destruct (chars ext) as [|c e]; [done|].
  rewrite !andb_true_iff, !negb_true_iff, !bool_decide_eq_true, !bool_decide_eq_false.
  intros [[[-> ?] ?] ?]. by exists e.
Qed.

Lemma name_suffix_app (stem : list ascii) (ext : string) :
  plain_ext ext = true → stem ≠ [] →
  name_suffix (of_chars (stem ++ chars ext)) = ext.
Proof.
  intros (e & Ee & Hne & Hdot & _)%plain_ext_chars Hstem.
  unfold name_suffix, rfind_dot. rewrite chars_of_chars, Ee.
  rewrite rfind_dot_from_app by done. simpl.
  rewrite length_app. simpl.
  assert (0 < length stem) by (destruct stem; [done|simpl; lia]).
  assert (0 < length e) by (destruct e; [done|simpl; lia]).
  replace (Nat.ltb 0 (length stem)) with true by (symmetry; apply Nat.ltb_lt; lia).
  replace (Nat.ltb (length stem) (length stem + S (length e) - 1)) with true
    by (symmetry; apply Nat.ltb_lt; lia).
  simpl. rewrite drop_app_length, <- Ee. apply of_chars_chars.
Qed.

(** A name that ends with an extension, and is more than the extension, has
    it as its suffix. *)
Lemma name_suffix_matches (ext name : string) :
  plain_ext ext = true → name_matches ext name = true → name ≠ ext →
  name_suffix name = ext.
Proof.
  intros Hext Hm Hne. unfold name_matches in Hm.
  apply bool_decide_eq_true in Hm as [stem Hstem].
  rewrite <- (of_chars_chars name), Hstem.
  apply name_suffix_app; [done|].
  intros ->. apply Hne, chars_inj. by rewrite Hstem.
Qed.

(** A name ends with its suffix. *)
Lemma name_matches_suffix (name : string) :
  name_matches (name_suffix name) name = true.
Proof.
  unfold name_matches. apply bool_decide_eq_true. unfold name_suffix.
  destruct (rfind_dot (chars name)) as [i|]; [|by apply suffix_nil].
  destruct (_ && _); [|by apply suffix_nil].
  rewrite chars_of_chars. exists (take i (chars name)). by rewrite take_drop.
Qed.

Lemma name_matches_nonempty (ext name : string) :
  plain_ext ext = true → name_matches ext name = true → name ≠ "".
Proof.
  intros (e & Ee & _)%plain_ext_chars Hm ->.
  apply bool_decide_eq_true in Hm as [stem Hstem].
  rewrite Ee in Hstem. by destruct stem.
Qed.

(** The suffix is shorter than a name that is not empty. *)
Lemma name_suffix_shorter (name : string) :
  name ≠ "" → length (chars (name_suffix name)) < length (chars name).
Proof.
  intros Hne. assert (0 < length (chars name)).
  { destruct (chars name) eqn:E; [|simpl; lia].
    exfalso. apply Hne, chars_inj. by rewrite E. }
  unfold name_suffix. destruct (rfind_dot (chars name)) as [i|]; [|done].
  destruct (Nat.ltb 0 i) eqn:Hi; [|done]. apply Nat.ltb_lt in Hi.
  destruct (Nat.ltb i _) eqn:Hi'; [|done]. apply Nat.ltb_lt in Hi'. simpl.
  rewrite chars_of_chars, length_drop. lia.
Qed.

Lemma path_name_app (p q : path) : q ≠ [] → path_name (p ++ q) = path_name q.
Proof.
  unfold path_name. intros Hq. revert p. induction p as [|c p IH]; [done|].
  simpl. destruct (p ++ q) eqn:E; [|done].
  by apply app_eq_nil in E as [_ ->].
Qed.

Lemma path_name_snoc (p : path) (name : string) : path_name (p ++ [name]) = name.
Proof. by rewrite path_name_app. Qed.

(** [with_suffix] succeeds on a path with a name, and the new path has the
    new suffix. *)
Lemma with_suffix_ok (p : path) (ext : string) :
  plain_ext ext = true → path_name p ≠ "" →
  ∃ renamed, with_suffix p ext = inr renamed
    ∧ suffix renamed = ext ∧ parent renamed = parent p ∧ renamed ≠ [].
Proof.
  intros Hext Hname. unfold with_suffix.
  destruct (plain_ext_chars ext Hext) as (e & Ee & Hne & Hdot & Hslash).
  assert (valid_suffix ext = true) as ->.
  { unfold valid_suffix. rewrite Ee. rewrite !andb_true_iff, !negb_true_iff.
    by rewrite bool_decide_eq_true, !bool_decide_eq_false. }
  simpl. rewrite bool_decide_eq_false_2 by done.
  eexists. split; [reflexivity|].
  pose proof (name_suffix_shorter _ Hname) as Hlen.
  set (stem := take _ _).
  assert (stem ≠ []) as Hstem.
  { unfold stem. intros E%(f_equal length). rewrite length_take in E. simpl in E. lia. }
  unfold suffix. rewrite path_name_snoc.
  split; [by apply name_suffix_app|].
  split; [|by destruct (parent p)].
  unfold parent. by rewrite removelast_last.
Qed.

(** ** Batch conversion *)

Lemma relative_to_app (base rel : path) : relative_to (base ++ rel) base = inr rel.
Proof.
  induction base as [|b base IH]; simpl; [by destruct rel|].
  by rewrite decide_True.
Qed.

Lemma walked_below (m : gmap path node) (directory q : path) :
  DataManager.walked m directory q = true →
  ∃ rel, q = directory ++ rel ∧ rel ≠ [].
Proof.
  unfold DataManager.walked. rewrite !andb_true_iff, bool_decide_eq_true.
  intros [[[rel ->] Hlen%Nat.ltb_lt] _]. exists rel. split; [done|].
  intros ->. rewrite app_nil_r in Hlen. lia.
Qed.

Lemma extensions_plain (format_type : FormatType) (ext : string) :
  ext ∈ default [] (DataManager.extensions !! format_type) → plain_ext ext = true.
Proof.
  destruct format_type; vm_compute;
    intros Hin; repeat (apply elem_of_cons in Hin as [->|Hin]; [reflexivity|]);
    by apply elem_of_nil in Hin.
Qed.

Lemma get_extension_plain (format_type : FormatType) :
  plain_ext (DataManager._get_extension format_type) = true.
Proof. by destruct format_type. Qed.

(** The formats without entry in the table of extensions. *)
Lemma extensions_none (format_type : FormatType) :
  format_type ∈ [AUTO; RLDS; LEROBOT] →
  default [] (DataManager.extensions !! format_type) = [].
Proof.
  intros Hin. repeat (apply elem_of_cons in Hin as [->|Hin]; [reflexivity|]).
  by apply elem_of_nil in Hin.
Qed.

Lemma elem_of_rglob (m : gmap path node) (directory : path) (ext : string) (q : path) :
  q ∈ DataManager.rglob m directory ext ↔
  is_Some (m !! q) ∧ DataManager.walked m directory q = true
  ∧ name_matches ext (path_name q) = true.
Proof.
  unfold DataManager.rglob. rewrite list_elem_of_filter, list_elem_of_fmap.
  split.
  - intros [[Hw Hn] ([q' x] & -> & Hx%elem_of_map_to_list)]. eauto.
  - intros ([x Hx] & Hw & Hn). split; [done|].
    exists (q, x). split; [done|]. by apply elem_of_map_to_list.
Qed.

Lemma elem_of_found_files (m : gmap path node) (directory : path)
    (format_type : FormatType) (q : path) :
  q ∈ found_files m directory format_type ↔
  is_Some (m !! q) ∧ DataManager.walked m directory q = true
  ∧ ∃ ext, ext ∈ default [] (DataManager.extensions !! format_type)
           ∧ name_matches ext (path_name q) = true.
Proof.
  unfold found_files. rewrite list_elem_of_In, in_flat_map. split.
  - intros (ext & Hext%list_elem_of_In & Hq%list_elem_of_In%elem_of_rglob).
    destruct Hq as (? & ? & ?). eauto 6.
  - intros (? & ? & ext & Hext & ?). exists ext.
    rewrite <- !list_elem_of_In, elem_of_rglob. eauto.
Qed.

Lemma find_files_run (directory : path) (format_type : FormatType) (st : state) :
  DataManager._find_files directory format_type st
  = (inr (found_files (fs st) directory format_type),
     after_walks st directory format_type).
Proof.
  unfold DataManager._find_files, found_files, after_walks.
  generalize (default [] (DataManager.extensions !! format_type)). intros exts.
  assert (∀ files st0,
    (fix loop (exts : list string) (files : list path) : M (list path) :=
       match exts with
       | [] => mret files
       | ext :: exts' =>
           io_call (IOWalk directory) ;;
           m ← get_fs; loop exts' (files ++ DataManager.rglob m directory ext)
       end) exts files st0
    = (inr (files ++ flat_map (DataManager.rglob (fs st0) directory) exts),
       mk_state (fs st0) (log st0) (io st0 ++ map (λ _, IOWalk directory) exts)))
    as Hloop.
  { induction exts as [|ext exts IH]; intros files st0; simpl.
    - rewrite !app_nil_r. by destruct st0.
    - unfold mbind, SE_bind, io_call, get_fs. simpl. rewrite IH. simpl.
      by rewrite <- !app_assoc. }
  apply Hloop.
Qed.

Lemma for_each_total {A} (body : A → M unit) (l : list A) (s : state) :
  (∀ x, x ∈ l → ∀ s, (body x s).1 = inr tt) →
  for_each body l s = (inr tt, fold_left (λ s x, (body x s).2) l s).
Proof.
  revert s. induction l as [|x l IH]; intros s Hbody; simpl; [done|].
  unfold mbind, SE_bind.
  pose proof (Hbody x ltac:(left) s) as Hx.
  destruct (body x s) as [r s'] eqn:E. simpl in Hx. subst r.
  apply IH. intros y Hy. apply Hbody. by right.
Qed.

Section batch.
Context `{Libs}.

(** One turn of the loop on a file of the walk: the target is the file's
    path below the source directory, moved below the target directory, with
    the extension of the target format; the conversion's exception, if any,
    ends in the log. *)
Lemma convert_one_found (self : DataManager.t) (source_dir target_dir : path)
    (source_format target_format : FormatType) (kw : kwargs) (m : gmap path node)
    (q : path) :
  q ∈ found_files m source_dir source_format →
  ∃ rel renamed,
    q = source_dir ++ rel
    ∧ with_suffix rel (DataManager._get_extension target_format) = inr renamed
    ∧ parent renamed = parent rel
    ∧ suffix (target_dir ++ renamed) = DataManager._get_extension target_format
    ∧ ∀ s, DataManager.convert_one self source_dir target_dir
             source_format target_format kw q s
           = record_outcome q (target_dir ++ renamed)
               (DataManager.convert self q (target_dir ++ renamed)
                  source_format target_format kw s).
Proof.
  intros (_ & Hw & ext & Hext & Hm)%elem_of_found_files.
  destruct (walked_below _ _ _ Hw) as (rel & -> & Hrel).
  rewrite path_name_app in Hm by done.
  pose proof (name_matches_nonempty _ _ (extensions_plain _ _ Hext) Hm) as Hname.
  destruct (with_suffix_ok rel _ (get_extension_plain target_format) Hname)
    as (renamed & Hren & Hsfx & Hpar & Hne).
  exists rel, renamed. repeat split; try done.
  - unfold suffix in *. by rewrite path_name_app.
  - intros s. unfold DataManager.convert_one, mbind, SE_bind, lift.
    rewrite relative_to_app. cbv beta iota. rewrite Hren. cbv beta iota.
    unfold try_except, record_outcome.
    by destruct (DataManager.convert _ _ _ _ _ _ s) as [[e|[]] s'].
Qed.

Lemma record_outcome_ok (q t : path) (r : result unit * state) :
  (record_outcome q t r).1 = inr tt.
Proof. by destruct r as [[e|[]] s]. Qed.

(** The run of [batch_convert] once the target directory is there. *)
Lemma batch_convert_run (self : DataManager.t) (source_dir target_dir : path)
    (source_format target_format : FormatType) (kw : kwargs) (st st1 : state) :
  binds DataManager.batch_convert_params kw = true →
  mkdir_parents target_dir st = (inr tt, st1) →
  DataManager.batch_convert self source_dir target_dir source_format target_format
    kw st
  = (inr tt,
     fold_left (λ s q, (DataManager.convert_one self source_dir target_dir
                          source_format target_format kw q s).2)
               (found_files (fs st1) source_dir source_format)
               (after_walks st1 source_dir source_format)).
Proof.
  intros Hb Hmk. unfold DataManager.batch_convert. rewrite call_kw_run, Hb.
  unfold mbind at 1 2, SE_bind at 1 2. rewrite Hmk, find_files_run.
  apply for_each_total. intros q Hq s.
  destruct (convert_one_found self source_dir target_dir source_format target_format
              kw _ q Hq) as (rel & renamed & _ & _ & _ & _ & ->).
  apply record_outcome_ok.
Qed.

(** C8. Once the target directory is made, [batch_convert] returns normally
    and its final state is the one reached by taking the files of the
    enumeration one after the other, each from the state the previous one
    left: no file is skipped.  One turn runs [convert] on the file; what
    [convert] raises is caught there and logged as an error, and the turn
    itself returns normally.  (The keywords are those of the call; one that
    names a parameter of [batch_convert] makes the call itself a
    TypeError.) *)
Theorem batch_convert_isolates (self : DataManager.t) (source_dir target_dir : path)
    (source_format target_format : FormatType) (kw : kwargs) (st : state) :
  if binds DataManager.batch_convert_params kw then
    match mkdir_parents target_dir st with
    | (inl e, st1) =>
        DataManager.batch_convert self source_dir target_dir
          source_format target_format kw st = (inl e, st1)
    | (inr _, st1) =>
        let files := found_files (fs st1) source_dir source_format in
        DataManager.batch_convert self source_dir target_dir
          source_format target_format kw st
        = (inr tt,
           fold_left (λ s q, (DataManager.convert_one self source_dir target_dir
                                source_format target_format kw q s).2)
                     files (after_walks st1 source_dir source_format))
        ∧ ∀ q, q ∈ files → ∀ s, ∃ target_file,
            DataManager.convert_one self source_dir target_dir
              source_format target_format kw q s
            = match DataManager.convert self q target_file
                      source_format target_format kw s with
              | (inr _, s') => (inr tt, mk_state (fs s')
                                  (log s' ++ [(INFO, Converted q target_file)]) (io s'))
              | (inl e, s') => (inr tt, mk_state (fs s')
                                  (log s' ++ [(ERROR, ConvertFailed q e)]) (io s'))
              end
    end
  else
    DataManager.batch_convert self source_dir target_dir
      source_format target_format kw st = (inl TypeError, st).
Proof.
  destruct (binds DataManager.batch_convert_params kw) eqn:Hb;
    [|unfold DataManager.batch_convert; by rewrite call_kw_run, Hb].
  destruct (mkdir_parents target_dir st) as [[e|[]] st1] eqn:Hmk.
  - unfold DataManager.batch_convert. rewrite call_kw_run, Hb.
    unfold mbind at 1, SE_bind at 1. by rewrite Hmk.
  - split; [by apply batch_convert_run|].
    intros q Hq s.
    destruct (convert_one_found self source_dir target_dir source_format target_format
                kw _ q Hq) as (rel & renamed & _ & _ & _ & _ & Hone).
    exists (target_dir ++ renamed). rewrite Hone. unfold record_outcome.
    by destruct (DataManager.convert _ _ _ _ _ _ s) as [[e|[]] s'].
Qed.

End batch.

(** ** Which files a batch takes *)

(** Two extensions of the tables that end the same name are the same. *)
Lemma plain_ext_unique (ext1 ext2 name : string) :
  plain_ext ext1 = true → plain_ext ext2 = true →
  name_matches ext1 name = true → name_matches ext2 name = true → ext1 = ext2.
Proof.
  intros (e1 & E1 & _ & Hd1 & _)%plain_ext_chars (e2 & E2 & _ & Hd2 & _)%plain_ext_chars.
  unfold name_matches. rewrite !bool_decide_eq_true, E1, E2. intros H1 H2.
  apply chars_inj. rewrite E1, E2.
  destruct (suffix_weak_total _ _ _ H1 H2) as [Hs|Hs];
    apply suffix_cons_inv in Hs as [Hs|Hs]; try congruence.
  - destruct Hs as [k ->]. exfalso. apply Hd2. apply elem_of_app. right. by left.
  - destruct Hs as [k ->]. exfalso. apply Hd1. apply elem_of_app. right. by left.
Qed.

Lemma NoDup_rglob (m : gmap path node) (directory : path) (ext : string) :
  NoDup (DataManager.rglob m directory ext).
Proof. apply NoDup_filter, NoDup_fst_map_to_list. Qed.

Lemma extensions_NoDup (format_type : FormatType) :
  NoDup (default [] (DataManager.extensions !! format_type)).
Proof.
  destruct format_type; vm_compute;
    repeat (constructor; [rewrite ?elem_of_cons, elem_of_nil; intros H; intuition congruence|]);
    constructor.
Qed.

Lemma NoDup_found_files (m : gmap path node) (directory : path)
    (format_type : FormatType) :
  NoDup (found_files m directory format_type).
Proof.
  unfold found_files.
  pose proof (extensions_NoDup format_type) as Hnd.
  pose proof (extensions_plain format_type) as Hplain.
  revert Hnd Hplain.
  generalize (default [] (DataManager.extensions !! format_type)). intros exts.
  induction exts as [|ext exts IH]; intros Hnd Hplain; simpl; [constructor|].
  apply NoDup_cons in Hnd as [Hext Hnd].
  apply NoDup_app. split; [apply NoDup_rglob|]. split.
  - intros q (_ & _ & Hm)%elem_of_rglob Hq.
    apply list_elem_of_In, in_flat_map in Hq as (ext' & Hin & Hq).
    apply list_elem_of_In in Hin. apply list_elem_of_In, elem_of_rglob in Hq as (_ & _ & Hm').
    apply Hext.
    rewrite (plain_ext_unique ext ext' (path_name q)); auto.
    + apply Hplain. by left.
    + apply Hplain. by right.
  - apply IH; [done|]. intros ? ?. apply Hplain. by right.
Qed.

Section batch_files.
Context `{Libs}.

(** C9. [batch_convert] works through the entries of the enumeration, each
    once.  These are the entries, files and directories alike, reached by
    walking down from the source directory whose name ends with an
    extension of the source format: every such entry whose suffix is one of
    the extensions, and an entry named by an extension alone.  The target of
    an entry is its path below the source directory, moved below the target
    directory, with the suffix replaced by the extension of the target
    format.  For AUTO, RLDS and LEROBOT, which have no extension in the
    table, there is no entry and nothing is attempted. *)
Theorem batch_convert_files (self : DataManager.t) (source_dir target_dir : path)
    (source_format target_format : FormatType) (kw : kwargs) (st st1 : state) :
  binds DataManager.batch_convert_params kw = true →
  mkdir_parents target_dir st = (inr tt, st1) →
  let m := fs st1 in
  let exts := default [] (DataManager.extensions !! source_format) in
  let files := found_files m source_dir source_format in
  DataManager.batch_convert self source_dir target_dir source_format target_format
    kw st
  = (inr tt,
     fold_left (λ s q, (DataManager.convert_one self source_dir target_dir
                          source_format target_format kw q s).2)
               files (after_walks st1 source_dir source_format))
  ∧ NoDup files
  ∧ (∀ q, q ∈ files ↔
          is_Some (m !! q) ∧ DataManager.walked m source_dir q = true
          ∧ ∃ ext, ext ∈ exts ∧ name_matches ext (path_name q) = true)
  ∧ (∀ q, is_Some (m !! q) → DataManager.walked m source_dir q = true →
          suffix q ∈ exts → q ∈ files)
  ∧ (∀ q, q ∈ files → suffix q ∈ exts ∨ path_name q ∈ exts)
  ∧ (∀ q, q ∈ files →
       ∃ rel renamed,
         q = source_dir ++ rel
         ∧ with_suffix rel (DataManager._get_extension target_format) = inr renamed
         ∧ parent renamed = parent rel
         ∧ suffix (target_dir ++ renamed) = DataManager._get_extension target_format
         ∧ ∀ s, DataManager.convert_one self source_dir target_dir
                  source_format target_format kw q s
                = record_outcome q (target_dir ++ renamed)
                    (DataManager.convert self q (target_dir ++ renamed)
                       source_format target_format kw s))
  ∧ (source_format ∈ [AUTO; RLDS; LEROBOT] →
       files = []
       ∧ DataManager.batch_convert self source_dir target_dir
           source_format target_format kw st = (inr tt, st1)).
Proof.
  intros Hb Hmk m exts files.
  split; [by apply batch_convert_run|].
  split; [apply NoDup_found_files|].
  split; [intros q; apply elem_of_found_files|].
  split; [|split; [|split]].
  - intros q Hq Hw Hs. apply elem_of_found_files. repeat split; try done.
    exists (suffix q). split; [done|]. apply name_matches_suffix.
  - intros q (_ & _ & ext & Hext & Hm)%elem_of_found_files.
    destruct (decide (path_name q = ext)) as [->|Hne]; [by right|].
    left. unfold suffix.
    by rewrite (name_suffix_matches ext) by eauto using extensions_plain.
  - intros q Hq. by eapply convert_one_found.
  - intros Hsf. rewrite (batch_convert_run _ _ _ _ _ _ _ _ Hb Hmk).
    subst files. unfold found_files, after_walks.
    rewrite (extensions_none _ Hsf). simpl. rewrite app_nil_r.
    by destruct st1.
Qed.

End batch_files.

(** ** Opening a file or a store for writing *)

Lemma open_write_ok (p : path) (empty : node) (st : state) :
  is_dir (fs st) p = false → is_dir (fs st) (parent p) = true →
  open_write p empty st
  = (inr tt, mk_state (<[p := empty]> (fs st)) (log st) (io st ++ [IOWrite p])).
Proof.
  intros Hp Hpar. unfold open_write, mbind, SE_bind, io_call, get_fs, put_fs. simpl.
  by rewrite Hp, Hpar.
Qed.

Lemma mkdir_steps_noop (p : path) (qs : list path) (st : state) :
  Forall (λ q, is_dir (fs st) q = true) qs →
  for_each (mkdir_step p) qs st = (inr tt, st).
Proof.
  induction 1 as [|q qs Hq _ IH]; simpl; [done|].
  unfold mbind, SE_bind. unfold mkdir_step at 1, mbind, SE_bind, get_fs.
  unfold is_dir in Hq. destruct (node_at (fs st) q) as [n|]; [|done].
  by rewrite Hq.
Qed.

Section open_for_writing.
Context `{Libs}.


End open_for_writing.

(** ** Saving, then loading *)

Lemma keys_app {A} (d1 d2 : list (string * A)) : keys (d1 ++ d2) = keys d1 ++ keys d2.
Proof. apply map_app. Qed.




Lemma for_items_cons {S A} (body : string → A → SE S unit) k v d :
  for_items body ((k, v) :: d) = (body k v ;; for_items body d).
Proof. reflexivity. Qed.

(** Writing an array tree: the proof is the same for the two tree codecs,
    which differ in how a leaf is written. *)
Section tree_write.
Variable write : pyval → W unit.
Variable write_leaf : string → pyval → W unit.
Variable ok : ndarray → Prop.

Hypothesis write_dict : ∀ d,
  write (PDict d)
  = for_items (λ key value,
      match value with
      | PDict _ => create_group key ;; in_new_group key (write value)
      | _ => write_leaf key value
      end) d.

Hypothesis write_leaf_ok : ∀ key a g lg,
  ok a → key ∉ keys g →
  ∃ lg', write_leaf key (PArray a) (g, lg) = (inr tt, (g ++ [(key, Dataset a)], lg')).


End tree_write.



Lemma is_dir_root (m : gmap path node) : is_dir m [] = true.
Proof. reflexivity. Qed.

Lemma ancestors_and_self_last (q : path) : q ≠ [] → q ∈ ancestors_and_self q.
Proof.
  intros Hq. unfold ancestors_and_self. apply list_elem_of_fmap.
  exists (length q). split; [by rewrite firstn_all|].
  apply list_elem_of_In, in_seq. destruct q; [done|simpl; lia].
Qed.

Lemma ancestors_dir (m : gmap path node) (q : path) :
  Forall (λ q, is_dir m q = true) (ancestors_and_self q) → is_dir m q = true.
Proof.
  intros Hq. destruct (decide (q = [])) as [->|Hne]; [done|].
  eapply Forall_forall in Hq; [done|]. by apply ancestors_and_self_last.
Qed.

Lemma mkdir_parents_noop (p : path) (st : state) :
  Forall (λ q, is_dir (fs st) q = true) (ancestors_and_self p) →
  mkdir_parents p st = (inr tt, after_io st (IOMkdir p)).
Proof.
  intros Hanc. unfold mkdir_parents. rewrite run_bind. unfold io_call.
  by rewrite mkdir_steps_noop.
Qed.

Lemma is_dir_false_nonroot (m : gmap path node) (p : path) :
  is_dir m p = false → p ≠ [].
Proof. by intros Hp ->. Qed.

Lemma node_at_insert (m : gmap path node) (p : path) (n : node) :
  p ≠ [] → node_at (<[p := n]> m) p = Some n.
Proof. intros Hp. destruct p; [done|]. apply lookup_insert_eq. Qed.

Lemma read_node_file (p : path) (n : node) (st : state) :
  node_at (fs st) p = Some n → node_is_dir n = false →
  read_node p st = (inr n, after_io st (IORead p)).
Proof.
  intros Hn Hd. unfold read_node, mbind, SE_bind, io_call, get_fs.
  cbn [fs log io]. by rewrite Hn, Hd.
Qed.

Section roundtrip.
Context `{Libs}.









Lemma to_json_scalar_items (d : list (string * pyval)) :
  scalar_items d → to_json (PDict d) = PDict d.
Proof.
  intros Hd. simpl. f_equal.
  induction Hd as [|k n d _ IH|k x d _ IH|k s d _ IH|k d' d _ IHsub _ IH]; simpl;
    try (by rewrite IH); [done|].
  by rewrite IH, IHsub.
Qed.



Lemma suffix_matches (p : path) : name_matches (suffix p) (path_name p) = true.
Proof. apply name_matches_suffix. Qed.







Lemma path_is_file_run (p : path) (st : state) :
  path_is_file p st = (inr (is_file (fs st) p), after_io st (IOStat p)).
Proof. reflexivity. Qed.

Lemma json_load_file_doc (p : path) (v : pyval) (st : state) :
  node_at (fs st) p = Some (JsonFile v) →
  json.load_file p st = (inr v, after_io st (IORead p)).
Proof.
  intros Hv. unfold json.load_file. rewrite run_bind.
  by erewrite read_node_file by done.
Qed.

(** Induction on a value and the values it holds. *)
Lemma pyval_all_ind (P : pyval → Prop) :
  (∀ v, (∀ l, v ≠ PList l) → (∀ l, v ≠ PTuple l) → (∀ d, v ≠ PDict d) → P v) →
  (∀ l, Forall P l → P (PList l)) →
  (∀ l, Forall P l → P (PTuple l)) →
  (∀ d, Forall (λ kv, P kv.2) d → P (PDict d)) →
  ∀ v, P v.
Proof.
  intros Hleaf Hlist Htuple Hdict. fix IH 1. intros v.
  destruct v as [ | | | | | |l|l|d| | ]; try (by apply Hleaf).
  - apply Hlist. induction l as [|x l IHl]; constructor; [apply IH|apply IHl].
  - apply Htuple. induction l as [|x l IHl]; constructor; [apply IH|apply IHl].
  - apply Hdict. induction d as [|[k x] d IHd]; constructor; [apply IH|apply IHd].
Qed.




End roundtrip.

(** ** What [validate] does to the file of a tree codec *)

Section validate_effects.
Context `{Libs}.






End validate_effects.

(** * Further properties of the code *)

(** ** What [load] raises *)

Section load_props.
Context `{Libs}.

(** X1. [DataManager.load] ends in one of five ways: TypeError when a
    keyword names one of its parameters; ValueError when the format (after
    detection, for AUTO) has no loader; FileNotFoundError when it has one
    and the path does not exist; otherwise what the loader built with the
    keywords loads, or DataValidationError.  It changes no file when no
    keyword [mode] other than 'r' is given.  With the keyword [mode='w'] it
    empties the HDF5 file it is to load, and returns the empty dict. *)
Theorem load_outcomes (self : DataManager.t) (p : path) (format_type : FormatType)
    (kw : kwargs) (st : state) :
  let r := DataManager.load self p format_type kw st in
  (read_mode kw → fs r.2 = fs st)
  ∧ (if binds DataManager.load_params kw then
       match DataManager._loaders self !! resolved format_type p with
       | None => r = (inl ValueError, st)
       | Some c =>
           if path_in (fs st) p
           then r = loader_load (built c p kw) (after_io st (IOStat p))
                ∧ (r.1 = inl DataValidationError ∨ ∃ data, r.1 = inr data)
           else r = (inl FileNotFoundError, after_io st (IOStat p))
       end
     else r = (inl TypeError, st))
  ∧ (∀ g, binds DataManager.load_params kw = true →
          DataManager._loaders self !! resolved format_type p = Some HDF5Loader →
          assoc "mode" kw = Some (PStr "w") →
          node_at (fs st) p = Some (H5File g) → is_dir (fs st) (parent p) = true →
          r.1 = inr (PDict []) ∧ fs r.2 = <[p := H5File []]> (fs st)).
Proof.
  intros r. split; [intros Hkw; by apply keeps_fs_load|]. subst r.
  unfold DataManager.load. rewrite call_kw_run. fold (resolved format_type p).
  destruct (binds DataManager.load_params kw) eqn:Hb; [|split; [done|by intros ? [=]]].
  destruct (DataManager._loaders self !! resolved format_type p) as [c|];
    [|split; [done|by intros ? _ [=]]].
  rewrite run_bind, new_loader_run, (binds_load_ctor _ Hb).
  destruct (path_in (fs st) p) eqn:Hp.
  - split.
    + split; [done|].
      destruct (loader_load _ _) as [[e|data] st1] eqn:El; simpl.
      * left. by apply loader_load_raises in El as ->.
      * right. by exists data.
    + intros g _ [= ->] Hmode Hg Hpar. unfold built, loader_load. rewrite Hmode.
      change (default (PStr "r") (Some (PStr "w"))) with (PStr "w").
      cbn [l_class]. unfold hdf5.load, try_except. cbn [l_path l_mode].
      change (hdf5.open_file p (PStr "w"))
        with (open_write p (H5File []) ;; mret [] : M group).
      rewrite !run_bind, open_write_run. cbn [fs after_io].
      unfold is_dir in *. rewrite Hg, Hpar. simpl. done.
  - split; [done|]. intros g _ _ _ Hg. unfold path_in in Hp.
    rewrite Hg in Hp. by rewrite bool_decide_eq_true_2 in Hp.
Qed.

(** X2. A new Data Manager has a loader for every format that [load],
    [validate] and [convert] work with, whatever the format argument and
    the path: AUTO is resolved to a format of the detection table.  [save]
    does not resolve AUTO: with AUTO it raises ValueError before it touches
    the file system (TypeError, if a keyword names one of its parameters). *)
Theorem default_registry_resolves (p : path) (format_type : FormatType)
    (data : pyval) (kw : kwargs) (st : state) :
  is_Some (DataManager._loaders DataManager.__init__ !! resolved format_type p)
  ∧ DataManager.save DataManager.__init__ data p AUTO kw st
    = (inl (if binds DataManager.save_params kw then ValueError else TypeError), st).
Proof.
  split.
  - apply default_loaders_registered. unfold resolved.
    destruct (decide (format_type = AUTO)); [apply detect_format_not_auto|done].
  - unfold DataManager.save. rewrite call_kw_run.
    by destruct (binds DataManager.save_params kw).
Qed.

End load_props.

(** ** The three tables of extensions *)

(** X3. The table of [_find_files], the table of [_get_extension] and the
    table of [_detect_format] agree on the five formats they list: a path
    whose suffix is an extension [_find_files] looks for is detected as that
    format, the extension of [_get_extension] is one of them, and a path
    renamed with it is detected as the format.  For the three other
    identifiers the path is renamed to [.h5] and detected as HDF5. *)
Theorem extension_tables_agree (format_type : FormatType) (p : path) :
  (∀ ext, ext ∈ default [] (DataManager.extensions !! format_type) →
          suffix p = ext → DataManager._detect_format p = format_type)
  ∧ (path_name p ≠ "" →
     ∃ q, with_suffix p (DataManager._get_extension format_type) = inr q
       ∧ DataManager._detect_format q
         = if bool_decide (format_type ∈ [HDF5; ZARR; JSON; PICKLE; NUMPY])
           then format_type else HDF5)
  ∧ (format_type ∈ [HDF5; ZARR; JSON; PICKLE; NUMPY] →
     DataManager._get_extension format_type
     ∈ default [] (DataManager.extensions !! format_type)).
Proof.
  split; [|split].
  - intros ext Hext Hs. unfold DataManager._detect_format. rewrite Hs.
    destruct format_type; vm_compute in Hext;
      repeat (apply elem_of_cons in Hext as [->|Hext]; [reflexivity|]);
      by apply elem_of_nil in Hext.
  - intros Hname.
    destruct (with_suffix_ok p _ (get_extension_plain format_type) Hname)
      as (q & Hq & Hs & _).
    exists q. split; [done|]. unfold DataManager._detect_format. rewrite Hs.
    by destruct format_type.
  - intros Hin.
    destruct format_type;
      try (apply list_elem_of_In; vm_compute; tauto);
      repeat (apply elem_of_cons in Hin as [Hin|Hin]; [discriminate|]);
      by apply elem_of_nil in Hin.
Qed.

(** ** The RLDS codec reads and writes placeholders *)

Lemma assoc_keys {A} (k : string) (d : list (string * A)) (v : A) :
  assoc k d = Some v → k ∈ keys d.
Proof.
  induction d as [|[k' x] d IH]; simpl; [done|].
  destruct (decide (k = k')) as [->|]; [left|right; auto].
Qed.

Section rlds_props.
Context `{Libs}.

Lemma rlds_load_shape (l : loader) (st st' : state) (data : pyval) :
  rlds.load l st = (inr data, st') →
  ∃ k, data = PDict [("episodes", PList (replicate k rlds._parse_tf_example));
                     ("metadata", PDict [("num_episodes", PInt (Z.of_nat k));
                                         ("format", PStr "rlds")])].
Proof.
  unfold rlds.load, try_except, rlds._parse_rlds_dataset. rewrite !run_bind.
  destruct (rlds.read_records (l_path l) st) as [[e|k] s1]; [done|].
  cbv beta iota. unfold mret, SE_ret. rewrite run_bind. unfold logger.
  intros [= <- _]. exists k. by rewrite length_replicate.
Qed.

Lemma rlds_validate_false (l : loader) (s s' : state) (data : pyval) :
  rlds.load l s = (inr data, s') →
  ∃ s'', rlds.validate l data s' = (inr false, s'').
Proof. intros (k & ->)%rlds_load_shape. by eexists. Qed.

Lemma rlds_registered :
  DataManager._loaders DataManager.__init__ !! RLDS = Some RLDSLoader.
Proof. reflexivity. Qed.

Lemma rlds_manager_not_true (p : path) (st : state) :
  (DataManager.validate DataManager.__init__ p RLDS st).1 ≠ inr true.
Proof.
  unfold DataManager.validate. destruct (decide (RLDS = AUTO)); [done|].
  cbv zeta. rewrite rlds_registered, run_bind.
  destruct (path_in (fs st) p) eqn:Hp; [|by rewrite init_missing].
  rewrite init_found by done.
  rewrite run_bind. change (loader_load ?l) with (rlds.load l).
  destruct (rlds.load _ _) as [[e|data] s2] eqn:El; [done|].
  change (loader_validate ?l data) with (rlds.validate l data).
  destruct (rlds_validate_false _ _ _ _ El) as [s3 ->]. done.
Qed.

(** X4. What the RLDS loader loads never passes the RLDS loader's own
    [validate]: [load] returns a dict with the keys "episodes" and
    "metadata", and [validate] asks for the key "steps".  So
    [DataManager.validate(path, FormatType.RLDS)] of a new Data Manager
    never returns True; on a TFRecord file it returns False. *)
Theorem rlds_never_validates (p : path) (st : state) :
  (DataManager.validate DataManager.__init__ p RLDS st).1 ≠ inr true
  ∧ (∀ k, node_at (fs st) p = Some (TFRecordFile k) →
          (DataManager.validate DataManager.__init__ p RLDS st).1 = inr false).
Proof.
  split; [apply rlds_manager_not_true|].
  unfold DataManager.validate. destruct (decide (RLDS = AUTO)); [done|].
  cbv zeta. rewrite rlds_registered, run_bind.
  intros k Hk. rewrite init_found by (unfold path_in; by rewrite Hk).
  rewrite run_bind. change (loader_load ?l) with (rlds.load l).
  destruct (rlds.load _ _) as [[e|data] s2] eqn:El.
  - exfalso. revert El. unfold rlds.load, try_except, rlds._parse_rlds_dataset,
      rlds.read_records. rewrite !run_bind.
    by erewrite read_node_file by (simpl; done).
  - change (loader_validate ?l data) with (rlds.validate l data).
    destruct (rlds_validate_false _ _ _ _ El) as [s3 ->]. done.
Qed.

(** X5. Saving with the RLDS loader and loading again keeps the number of
    episodes and nothing else: for data whose "episodes" entry is a list of
    [n] episodes, saved to a path that can be written, [load] returns [n]
    placeholder episodes [{"steps": [], "metadata": {}}]. *)
Theorem rlds_roundtrip_placeholders (l : loader) (d : list (string * pyval))
    (eps : list pyval) (st : state) :
  ready_file (fs st) (l_path l) →
  assoc "episodes" d = Some (PList eps) →
  ∃ st1 st2,
    rlds.save l (PDict d) None st = (inr tt, st1)
    ∧ rlds.load l st1
      = (inr (PDict [("episodes",
                      PList (replicate (length eps) rlds._parse_tf_example));
                     ("metadata",
                      PDict [("num_episodes", PInt (Z.of_nat (length eps)));
                             ("format", PStr "rlds")])]), st2).
Proof.
  intros [Hp Hanc] Heps. unfold rlds.save. simpl default.
  rewrite run_bind, mkdir_parents_noop by done.
  unfold try_except. rewrite !run_bind.
  unfold rlds._convert_to_rlds_format, py_contains, py_getitem.
  rewrite bool_decide_eq_true_2 by (by eapply assoc_keys). rewrite Heps.
  unfold lift at 1. cbv beta iota. rewrite run_bind.
  rewrite open_write_ok by (simpl; auto using ancestors_dir).
  cbv beta iota. rewrite run_bind. unfold lift, py_len. cbv beta iota.
  rewrite run_bind.
  unfold write_node, get_fs, put_fs, logger, after_io. rewrite run_bind.
  cbn [fs log io].
  eexists _, _. split; [reflexivity|].
  unfold rlds.load, try_except, rlds._parse_rlds_dataset, rlds.read_records.
  rewrite !run_bind.
  erewrite read_node_file;
    [|simpl; apply node_at_insert, (is_dir_false_nonroot _ _ Hp)|done].
  cbv beta iota. unfold mret, SE_ret, logger. cbn [fs log io].
  by rewrite length_replicate.
Qed.

End rlds_props.

(** ** The NumPy codec *)

Lemma node_at_insert_ne (m : gmap path node) (p q : path) (n : node) :
  q ≠ [] → p ≠ q → node_at (<[q := n]> m) p = node_at m p.
Proof.
  intros Hq Hne. destruct p; [done|]. simpl. by rewrite lookup_insert_ne.
Qed.

(** [mkdir] creates directories where there was nothing: what a path held,
    it still holds. *)
Lemma mkdir_steps_keep (p : path) (qs : list path) (st : state) (x : path) (n : node) :
  node_at (fs st) x = Some n →
  node_at (fs (for_each (mkdir_step p) qs st).2) x = Some n.
Proof.
  revert st. induction qs as [|q qs IH]; intros st Hx; [done|].
  simpl. rewrite run_bind.
  unfold mkdir_step at 1. rewrite run_bind. unfold get_fs at 1. cbv beta iota.
  destruct (node_at (fs st) q) as [nq|] eqn:Hq.
  - destruct (node_is_dir nq); [by apply IH|done].
  - unfold put_fs. apply IH. cbn [fs].
    destruct (decide (x = q)) as [->|Hne]; [congruence|].
    rewrite node_at_insert_ne; [done| |done]. by intros ->.
Qed.

Lemma mkdir_parents_keeps (p : path) (st : state) (x : path) (n : node) :
  node_at (fs st) x = Some n →
  node_at (fs (mkdir_parents p st).2) x = Some n.
Proof.
  intros Hx. unfold mkdir_parents. rewrite run_bind. unfold io_call.
  by apply mkdir_steps_keep.
Qed.

Lemma with_suffix_inr (p q : path) (ext : string) :
  plain_ext ext = true → with_suffix p ext = inr q →
  suffix q = ext ∧ parent q = parent p ∧ q ≠ [].
Proof.
  intros Hext Hq. destruct (decide (path_name p = "")) as [E|Hne].
  - unfold with_suffix in Hq. rewrite E in Hq.
    destruct (negb (valid_suffix ext)); [done|]. by rewrite bool_decide_eq_true_2 in Hq.
  - destruct (with_suffix_ok p ext Hext Hne) as (q' & Hq' & ?). congruence.
Qed.

(** Opening for writing raises and leaves the files as they are, or leaves
    the empty file. *)
Lemma open_write_cases (p : path) (empty : node) (st : state) :
  (∃ e, open_write p empty st = (inl e, after_io st (IOWrite p)))
  ∨ open_write p empty st
    = (inr tt, mk_state (<[p := empty]> (fs st)) (log st) (io st ++ [IOWrite p])).
Proof.
  unfold open_write, mbind, SE_bind, io_call, get_fs, put_fs, raise, after_io. simpl.
  destruct (is_dir (fs st) p); [left; by eexists|].
  destruct (is_dir (fs st) (parent p)); [by right|left; by eexists].
Qed.

#[local] Ltac raised :=
  eexists _, _; split; [reflexivity|]; cbn [fs log io fst snd]; split; [assumption|done].

Section numpy_props.
Context `{Libs}.


Lemma result_map_written_keys (allow_pickle : option pyval) (d : list (string * pyval))
    (out : list (string * ndarray)) :
  result_map (λ kv : string * pyval, let '(k, v) := kv in
                match np_asarray v with
                | inl e => inl e
                | inr a =>
                    match numpy.write_array allow_pickle a with
                    | inl e => inl e
                    | inr a => inr (k, a)
                    end
                end) d
  = inr out →
  keys out = keys d.
Proof.
  revert out. induction d as [|[k v] d IH]; simpl; intros out.
  - by intros [= <-].
  - destruct (np_asarray v) as [e|a]; [done|].
    destruct (numpy.write_array allow_pickle a) as [e|a']; [done|].
    destruct (result_map _ d) as [e|out']; [done|].
    intros [= <-]. simpl. f_equal. by apply IH.
Qed.

(** X7. [save] of the NumPy loader with a dict that does not hold exactly
    one item, bound to a path whose suffix is not [.npz], never writes to
    that path: what the path held it still holds, whatever [save] returns.
    When [save] returns normally, the arrays are in the file of the same
    name with the suffix [.npz], under the keys of the dict (but for the
    key "allow_pickle", where [np.savez_compressed] has a parameter of that
    name). *)
Theorem numpy_save_many_goes_to_npz (l : loader) (d : list (string * pyval))
    (st : state) (n : node) :
  suffix (l_path l) ≠ ".npz" → length d ≠ 1 →
  node_at (fs st) (l_path l) = Some n →
  let r := numpy.save l (PDict d) None st in
  node_at (fs r.2) (l_path l) = Some n
  ∧ (r.1 = inr tt →
     ∃ q arrays, with_suffix (l_path l) ".npz" = inr q
       ∧ node_at (fs r.2) q = Some (NpzFile arrays)
       ∧ keys arrays
         = keys (if np_savez_allow_pickle then without "allow_pickle" d else d)).
Proof.
  intros Hs Hlen Hn r.
  assert (∃ res s, r = (res, s) ∧ node_at (fs s) (l_path l) = Some n
            ∧ (res = inr tt →
               ∃ q arrays, with_suffix (l_path l) ".npz" = inr q
                 ∧ node_at (fs s) q = Some (NpzFile arrays)
                 ∧ keys arrays
                   = keys (if np_savez_allow_pickle then without "allow_pickle" d
                           else d)))
    as (res & s & -> & ? & ?); [|done].
  subst r. unfold numpy.save. simpl default. rewrite run_bind.
  pose proof (mkdir_parents_keeps (parent (l_path l)) st _ _ Hn) as Hn1.
  destruct (mkdir_parents (parent (l_path l)) st) as [[e|[]] s1]; [by raised|].
  simpl in Hn1. unfold try_except. rewrite run_bind, decide_False by done.
  rewrite run_bind. unfold lift at 1, py_len. cbv beta iota.
  rewrite decide_False by done. rewrite run_bind. unfold lift at 1.
  destruct (with_suffix (l_path l) ".npz") as [e|q] eqn:Hq; [by raised|].
  destruct (with_suffix_inr (l_path l) q ".npz" eq_refl Hq) as (Hsq & _ & Hqne).
  assert (l_path l ≠ q) as Hpq by (intros E; apply Hs; by rewrite E).
  cbv beta iota.
  unfold numpy.savez_compressed. rewrite run_bind. unfold lift at 1.
  cbv beta iota. rewrite run_bind.
  destruct (bool_decide ("file" ∈ keys d)); [by raised|].
  unfold mret at 1, SE_ret at 1. cbv beta iota zeta.
  assert (numpy.with_extension ".npz" q = q) as ->.
  { unfold numpy.with_extension. rewrite <- Hsq. by rewrite suffix_matches. }
  rewrite run_bind.
  destruct (open_write_cases q (RawFile "") s1) as [[e ->]| ->]; [by raised|].
  cbv beta iota. rewrite run_bind. unfold lift at 1.
  destruct (result_map _ _) as [e|arrays] eqn:Harr.
  { eexists _, _. split; [reflexivity|]. simpl. split; [|done].
    by rewrite node_at_insert_ne. }
  apply result_map_written_keys in Harr.
  unfold write_node, get_fs, put_fs, logger. rewrite run_bind. cbn [fs log io].
  eexists _, _. split; [reflexivity|]. simpl.
  split; [by rewrite !node_at_insert_ne|].
  intros _. exists q, arrays. by rewrite node_at_insert.
Qed.

End numpy_props.

(** ** The LeRobot codec *)

Section lerobot_props.
Context `{Libs}.

Lemma json_load_file_other (p : path) (st : state) :
  (∀ v, node_at (fs st) p ≠ Some (JsonFile v)) →
  ∃ e, json.load_file p st = (inl e, after_io st (IORead p)).
Proof.
  intros Hv.
  unfold json.load_file, read_node, mbind, SE_bind, io_call, get_fs, raise, mret,
    SE_ret, after_io.
  cbn [fs log io].
  destruct (node_at (fs st) p) as [n|]; [|by eexists].
  destruct n; try (by eexists). by destruct (Hv v).
Qed.

(** X8. A single file is loaded by the LeRobot loader only when its suffix
    is exactly [.json] (the comparison is case sensitive): any other
    regular file gives DataValidationError, and a JSON file gives its
    document as it is, with no check that it has episodes. *)
Theorem lerobot_load_single_file (l : loader) (st : state) :
  is_file (fs st) (l_path l) = true →
  (suffix (l_path l) ≠ ".json" →
   ∃ st', lerobot.load l st = (inl DataValidationError, st'))
  ∧ (suffix (l_path l) = ".json" →
     ∀ v, node_at (fs st) (l_path l) = Some (JsonFile v) →
          ∃ st', lerobot.load l st = (inr v, st')).
Proof.
  intros Hfile. unfold lerobot.load, try_except. rewrite !run_bind.
  rewrite path_is_file_run, Hfile. cbv beta iota. rewrite !run_bind.
  unfold lerobot._load_single_file. split.
  - intros Hs. rewrite decide_False by done. by eexists.
  - intros Hs v Hv. rewrite decide_True by done.
    rewrite (json_load_file_doc _ v) by done. by eexists.
Qed.

Lemma load_episodes_docs (files : list path) (docs acc : list pyval) (st : state) :
  Forall2 (λ q v, node_at (fs st) q = Some (JsonFile v)) files docs →
  ∃ st', lerobot.load_episodes files acc st = (inr (acc ++ docs), st')
         ∧ fs st' = fs st ∧ log st' = log st.
Proof.
  intros Hdocs. revert docs acc st Hdocs.
  induction files as [|q files IH]; intros docs acc st Hdocs.
  - apply Forall2_nil_inv_l in Hdocs as ->. rewrite app_nil_r. by eexists.
  - apply Forall2_cons_inv_l in Hdocs as (v & docs' & Hv & Hrest & ->).
    simpl. rewrite run_bind, (json_load_file_doc _ v) by done.
    destruct (IH docs' (acc ++ [v]) (after_io st (IORead q)) Hrest)
      as (st' & -> & ? & ?).
    exists st'. by rewrite <- app_assoc.
Qed.

Lemma load_episodes_fails (files : list path) (acc : list pyval) (st : state) :
  Exists (λ q, ∀ v, node_at (fs st) q ≠ Some (JsonFile v)) files →
  ∃ e st', lerobot.load_episodes files acc st = (inl e, st').
Proof.
  intros Hbad. revert acc st Hbad.
  induction files as [|q files IH]; intros acc st Hbad.
  - by apply Exists_nil in Hbad.
  - simpl. rewrite run_bind.
    assert ((∃ v, node_at (fs st) q = Some (JsonFile v))
            ∨ (∀ v, node_at (fs st) q ≠ Some (JsonFile v))) as [[v Hv]|Hno].
    { destruct (node_at (fs st) q) as [[]|]; try (right; by intros ?).
      left. by eexists. }
    + rewrite (json_load_file_doc _ v) by done.
      apply IH. apply Exists_cons in Hbad as [Hq|Hrest]; [by destruct (Hq v)|done].
    + destruct (json_load_file_other q st Hno) as [e ->]. by eexists _, _.
Qed.

Lemma load_directory_run (p : path) (st : state) :
  lerobot._load_directory p st
  = match lerobot.load_episodes
            (if is_dir (fs st) p then lerobot.episode_files (fs st) p else []) []
            (after_io st (IOWalk p)) with
    | (inr episodes, s) =>
        (inr (PDict [("episodes", PList episodes);
                     ("metadata",
                      PDict [("num_episodes", PInt (Z.of_nat (length episodes)));
                             ("format", PStr "lerobot")])]), s)
    | (inl e, s) => (inl e, s)
    end.
Proof. reflexivity. Qed.

(** X9. Bound to a directory, the LeRobot loader reads the files
    [episode_*.json] that lie directly in it.  When each of them holds a
    JSON document, [load] returns the documents as the episodes, and their
    number as [num_episodes]; when one of them does not, [load] raises
    DataValidationError.  Other files of the directory are not looked at. *)
Theorem lerobot_load_directory (l : loader) (st : state) :
  is_dir (fs st) (l_path l) = true →
  let files := lerobot.episode_files (fs st) (l_path l) in
  (∀ docs, Forall2 (λ q v, node_at (fs st) q = Some (JsonFile v)) files docs →
     ∃ st', lerobot.load l st
            = (inr (PDict [("episodes", PList docs);
                           ("metadata",
                            PDict [("num_episodes", PInt (Z.of_nat (length files)));
                                   ("format", PStr "lerobot")])]), st'))
  ∧ (Exists (λ q, ∀ v, node_at (fs st) q ≠ Some (JsonFile v)) files →
     ∃ st', lerobot.load l st = (inl DataValidationError, st')).
Proof.
  intros Hdir files.
  assert (is_file (fs st) (l_path l) = false) as Hfile.
  { unfold is_dir, is_file in *. destruct (node_at (fs st) (l_path l)); [|done].
    by rewrite Hdir. }
  unfold lerobot.load, try_except. rewrite !run_bind.
  rewrite path_is_file_run, Hfile. cbv beta iota. rewrite !run_bind.
  rewrite load_directory_run. cbn [fs after_io]. rewrite Hdir. fold files.
  split.
  - intros docs Hdocs.
    destruct (load_episodes_docs files docs []
                (after_io (after_io st (IOStat (l_path l))) (IOWalk (l_path l)))
                Hdocs)
      as (st' & -> & _). simpl.
    rewrite (Forall2_length _ _ _ Hdocs). by eexists.
  - intros Hbad.
    destruct (load_episodes_fails files []
                (after_io (after_io st (IOStat (l_path l))) (IOWalk (l_path l)))
                Hbad)
      as (e & st' & ->). by eexists.
Qed.

(** X10. [save] of the LeRobot loader wraps data without the key
    "episodes" as the one episode of a data set: for a tree of dicts with
    integer, float and string leaves, saved to a [.json] path that can be
    written, [load] returns [{"episodes": [data], "metadata":
    {"num_episodes": 1, "format": "lerobot"}}]. *)
Theorem lerobot_save_wraps_episode (l : loader) (d : list (string * pyval))
    (st : state) :
  suffix (l_path l) = ".json" → ready_file (fs st) (l_path l) →
  scalar_items d → "episodes" ∉ keys d →
  ∃ st1 st2, lerobot.save l (PDict d) None st = (inr tt, st1)
    ∧ lerobot.load l st1
      = (inr (PDict [("episodes", PList [PDict d]);
                     ("metadata", PDict [("num_episodes", PInt 1);
                                         ("format", PStr "lerobot")])]), st2).
Proof.
  intros Hs [Hp Hanc] Hd Hno. unfold lerobot.save. simpl default.
  rewrite run_bind, mkdir_parents_noop by done.
  unfold try_except. rewrite !run_bind.
  unfold lerobot._convert_to_lerobot_format, py_contains.
  rewrite bool_decide_eq_false_2 by done. unfold lift at 1. cbv beta iota.
  unfold json.dump_file. rewrite !run_bind.
  rewrite open_write_ok by (simpl; auto using ancestors_dir).
  cbv beta iota. rewrite run_bind. unfold lift, json.dumps.
  pose proof (to_json_scalar_items d Hd) as Hjson.
  unfold write_node, get_fs, put_fs, logger, after_io. rewrite run_bind.
  cbn [fs log io].
  eexists _, _. split; [reflexivity|].
  unfold lerobot.load, try_except. rewrite !run_bind.
  rewrite path_is_file_run. cbn [fs log io].
  assert (l_path l ≠ []) as Hne by apply (is_dir_false_nonroot _ _ Hp).
  unfold is_file. rewrite node_at_insert by done. simpl negb. cbv beta iota.
  rewrite !run_bind. unfold lerobot._load_single_file. rewrite decide_True by done.
  erewrite json_load_file_doc by (simpl; by apply node_at_insert).
  cbv beta iota. unfold mret, SE_ret, logger. cbn [fs log io].
  simpl in Hjson. injection Hjson as Hjson. simpl. by rewrite Hjson.
Qed.

End lerobot_props.

(** ** The pickle codec, and converting into it *)

Lemma pickle_save_run (l : loader) (data : pyval) (st : state) :
  ready_file (fs st) (l_path l) → picklable data = true →
  ∃ st1, pickle.save l data None st = (inr tt, st1)
    ∧ fs st1 = <[l_path l := PickleFile data]> (fs st).
Proof.
  intros [Hp Hanc] Hd. unfold pickle.save. simpl default.
  rewrite run_bind, mkdir_parents_noop by done.
  unfold try_except. rewrite !run_bind.
  rewrite open_write_ok by (simpl; auto using ancestors_dir).
  cbv beta iota. rewrite run_bind. unfold lift, pickle.dumps. rewrite Hd.
  rewrite run_bind.
  unfold write_node, get_fs, put_fs, logger, after_io. rewrite run_bind.
  cbn [fs log io].
  eexists. split; [reflexivity|]. cbn [fs]. apply insert_insert_eq.
Qed.

Lemma pickle_load_run (l : loader) (v : pyval) (st : state) :
  node_at (fs st) (l_path l) = Some (PickleFile v) →
  ∃ st', pickle.load l st
         = (inr (if is_dict v then v else PDict [("data", v)]), st').
Proof.
  intros Hv. unfold pickle.load, try_except. rewrite !run_bind.
  erewrite read_node_file by done. by eexists.
Qed.

(** X11. The pickle loader wraps what is not a dict: a value pickle can
    serialise, saved to a path that can be written, comes back from [load]
    as it was when it is a dict, and as [{"data": value}] when it is
    anything else (a list, a number, an array). *)
Theorem pickle_roundtrip_wraps (l : loader) (data : pyval) (st : state) :
  ready_file (fs st) (l_path l) → picklable data = true →
  ∃ st1 st2, pickle.save l data None st = (inr tt, st1)
    ∧ pickle.load l st1
      = (inr (if is_dict data then data else PDict [("data", data)]), st2).
Proof.
  intros Hp Hd. destruct (pickle_save_run l data st Hp Hd) as (st1 & Hsave & Hfs).
  destruct (pickle_load_run l data st1) as [st2 Hload].
  { rewrite Hfs. apply node_at_insert, (is_dir_false_nonroot _ _ (proj1 Hp)). }
  by exists st1, st2.
Qed.

Section convert_props.
Context `{Libs}.

(** X12. Converting into an existing pickle file loses nothing: when the
    source loads as a dict that pickle can serialise, [convert] with the
    target format PICKLE returns normally, and loading the target gives
    the value the source loaded as.  The keywords, if any, name no
    parameter and ask for no other mode than 'r'. *)
Theorem convert_to_pickle_lossless (self : DataManager.t)
    (source_path target_path : path) (source_format : FormatType)
    (d : list (string * pyval)) (kw : kwargs) (st st1 : state) :
  accepted kw = true → read_mode kw →
  DataManager._loaders self !! PICKLE = Some PickleLoader →
  DataManager.load self source_path source_format kw st = (inr (PDict d), st1) →
  picklable (PDict d) = true →
  path_in (fs st) target_path = true → ready_file (fs st) target_path →
  ∃ st2 st3,
    DataManager.convert self source_path target_path source_format PICKLE kw st
    = (inr tt, st2)
    ∧ DataManager.load self target_path PICKLE kw st2 = (inr (PDict d), st3).
Proof.
  intros [Hbc Hbs]%andb_true_iff Hkw Hreg Hload Hd Hin Hready.
  pose proof (keeps_fs_load self source_path source_format kw Hkw st) as Hfs.
  rewrite Hload in Hfs. simpl in Hfs.
  unfold DataManager.convert. rewrite call_kw_run, Hbc.
  fold (resolved source_format source_path).
  destruct (decide (PICKLE = AUTO)); [done|]. cbv zeta. rewrite run_bind.
  rewrite load_resolved, Hload.
  unfold DataManager.save. rewrite call_kw_run, Hbs, Hreg, run_bind.
  rewrite new_loader_run, (binds_save_ctor _ Hbs), Hfs, Hin.
  change (loader_save ?l ?x None) with (pickle.save l x None).
  destruct (pickle_save_run (built PickleLoader target_path kw) (PDict d)
              (after_io st1 (IOStat target_path))) as (st2 & -> & Hfs2);
    [by rewrite <- Hfs in Hready|done|].
  exists st2. unfold DataManager.load.
  rewrite call_kw_run, (binds_save_load _ Hbs).
  destruct (decide (PICKLE = AUTO)); [done|]. cbv zeta. rewrite Hreg, run_bind.
  assert (target_path ≠ []) as Hne by apply (is_dir_false_nonroot _ _ (proj1 Hready)).
  assert (node_at (fs st2) target_path = Some (PickleFile (PDict d))) as Hnode.
  { rewrite Hfs2. by apply node_at_insert. }
  rewrite new_loader_run, (binds_save_ctor _ Hbs).
  replace (path_in (fs st2) target_path) with true
    by (unfold path_in; by rewrite Hnode).
  change (loader_load ?l) with (pickle.load l).
  destruct (pickle_load_run (built PickleLoader target_path kw) (PDict d)
              (after_io st2 (IOStat target_path)) Hnode) as [st3 ->].
  by exists st3.
Qed.

End convert_props.
(** ** Dicts and dotted keys *)

Lemma assoc_dict_set_eq {A} (k : string) (v : A) (d : list (string * A)) :
  assoc k (dict_set k v d) = Some v.
Proof.
  induction d as [|[k' x] d IH]; simpl.
  - by rewrite decide_True.
  - destruct (decide (k = k')) as [->|Hne]; simpl.
    + by rewrite decide_True.
    + by rewrite decide_False.
Qed.

Lemma assoc_dict_set_ne {A} (k k' : string) (v : A) (d : list (string * A)) :
  k ≠ k' → assoc k (dict_set k' v d) = assoc k d.
Proof.
  intros Hne. induction d as [|[k'' x] d IH]; simpl.
  - by rewrite decide_False.
  - destruct (decide (k' = k'')) as [->|Hne']; simpl.
    + by rewrite !decide_False.
    + destruct (decide (k = k'')); [done|apply IH].
Qed.

Lemma dict_set_same {A} (k : string) (v : A) (d : list (string * A)) :
  assoc k d = Some v → dict_set k v d = d.
Proof.
  induction d as [|[k' x] d IH]; simpl; [done|].
  destruct (decide (k = k')) as [->|Hne]; [by intros [= ->]|].
  intros Hv. by rewrite IH.
Qed.

Lemma assoc_None {A} (k : string) (d : list (string * A)) :
  assoc k d = None ↔ k ∉ keys d.
Proof.
  induction d as [|[k' x] d IH]; simpl.
  - split; [intros _; apply not_elem_of_nil|done].
  - rewrite not_elem_of_cons. destruct (decide (k = k')) as [->|Hne].
    + split; [done|]. by intros [? _].
    + rewrite IH. tauto.
Qed.

Lemma dict_set_fresh {A} (k : string) (v : A) (d : list (string * A)) :
  k ∉ keys d → dict_set k v d = d ++ [(k, v)].
Proof.
  induction d as [|[k' x] d IH]; simpl; [done|].
  intros [Hne Hd]%not_elem_of_cons. rewrite decide_False by done. by rewrite IH.
Qed.

Lemma keys_dict_set {A} (k : string) (v : A) (d : list (string * A)) :
  keys (dict_set k v d) = if bool_decide (k ∈ keys d) then keys d else keys d ++ [k].
Proof.
  induction d as [|[k' x] d IH]; simpl; [done|].
  destruct (decide (k = k')) as [->|Hne]; simpl.
  - rewrite bool_decide_eq_true_2; [done|by left].
  - rewrite IH. destruct (bool_decide (k ∈ keys d)) eqn:E.
    + apply bool_decide_eq_true in E. rewrite bool_decide_eq_true_2; [done|by right].
    + apply bool_decide_eq_false in E.
      rewrite bool_decide_eq_false_2; [done|]. by apply not_elem_of_cons.
Qed.

Lemma split_chars_nonempty (sep : list ascii) (skip : nat) (s : list ascii) :
  split_chars sep skip s ≠ [].
Proof.
  revert skip. induction s as [|c s IH]; intros skip; simpl; [done|].
  destruct skip; [|apply IH].
  destruct (bool_decide _); [done|].
  by destruct (split_chars sep 0 s).
Qed.

Lemma split_nonempty (sep s : string) (keys : list string) :
  split sep s = inr keys → keys ≠ [].
Proof.
  unfold split. destruct (bool_decide (sep = "")); [done|].
  intros [= <-] E%fmap_nil_inv. by apply split_chars_nonempty in E.
Qed.

Lemma removelast_last {A} (l : list A) (x : A) :
  l ≠ [] → removelast l ++ [List.last l x] = l.
Proof. intros Hl. symmetry. by apply app_removelast_last. Qed.

(** ** [Config.get] and [Config.set] *)

Section config_props.
Context `{Libs}.

Lemma set_at_get (current : pyval) (keys : list string) (last : string)
    (value current' : pyval) :
  set_at current keys last value = (inr tt, current') →
  Config.get_walk current' (keys ++ [last]) = inr value.
Proof.
  revert current current'. induction keys as [|k keys IH]; intros current current'; simpl.
  - destruct current; simpl; try done.
    intros [= <-]. simpl. by rewrite assoc_dict_set_eq.
  - destruct (py_contains k current) as [e|present]; [done|].
    destruct (if present then _ else _) as [e|current1]; [done|].
    destruct (py_getitem current1 k) as [e|child] eqn:Hchild; [done|].
    destruct (set_at child keys last value) as [r child'] eqn:Hset.
    intros [= -> <-].
    destruct current1; try done. simpl.
    rewrite assoc_dict_set_eq. by eapply IH.
Qed.

(** In a new dict the walk creates what it needs. *)
Lemma set_at_empty (keys : list string) (last : string) (value : pyval) :
  ∃ c, set_at (PDict []) keys last value = (inr tt, c).
Proof.
  induction keys as [|k keys [c IH]]; simpl; [by eexists|].
  destruct (decide (k = k)); [|done]. rewrite IH. by eexists.
Qed.

Lemma set_at_raises (current : pyval) (keys : list string) (last : string)
    (value current' : pyval) (e : exn) :
  set_at current keys last value = (inl e, current') → current' = current.
Proof.
  revert current current'. induction keys as [|k keys IH]; intros current current'; simpl.
  - destruct (py_setitem current last value); [by intros [= _ <-]|done].
  - destruct (py_contains k current) as [e'|present] eqn:Hin; [by intros [= _ <-]|].
    destruct present.
    + destruct (py_getitem current k) as [e'|child] eqn:Hchild; [by intros [= _ <-]|].
      destruct (set_at child keys last value) as [r child'] eqn:Hset.
      intros [= -> <-]. apply IH in Hset as ->.
      destruct current; try done. simpl in Hchild.
      destruct (assoc k d) as [x|] eqn:Hk; [|done]. injection Hchild as ->.
      by rewrite dict_set_same.
    + destruct (py_setitem current k (PDict [])) as [e'|current1] eqn:Hnew;
        [by intros [= _ <-]|].
      destruct current; try done. simpl in Hnew. injection Hnew as <-.
      simpl. rewrite assoc_dict_set_eq.
      destruct (set_at_empty keys last value) as [c ->]. done.
Qed.

(** X13. A value that [Config.set] has stored is the value [Config.get]
    returns for the same key, dotted or not, whatever the default: when
    [set] returns normally, [get] on the configuration it leaves gives the
    value. *)
Theorem config_get_after_set (self self' : Config.t) (key : string)
    (value default : pyval) :
  Config.set self key value = (inr tt, self') →
  Config.get self' key default = inr value.
Proof.
  unfold Config.set, Config.get.
  destruct (split "." key) as [e|keys] eqn:Hkeys; [done|].
  destruct (set_at _ _ _ _) as [r c] eqn:Hset. intros [= -> <-]. simpl.
  apply set_at_get in Hset.
  rewrite removelast_last in Hset by (by eapply split_nonempty).
  by rewrite Hset.
Qed.

(** The walk raises at a value that is no dict. *)
Lemma set_at_raises_at (current : pyval) (ks : list string) (last : string)
    (value current' : pyval) (e : exn) :
  set_at current ks last value = (inl e, current') →
  ∃ pre v, pre `prefix_of` ks ∧ Config.get_walk current pre = inr v
           ∧ is_dict v = false.
Proof.
  revert current current'. induction ks as [|k ks IH]; intros current current' Hset.
  - exists [], current. split; [done|]. split; [done|]. by destruct current.
  - destruct (is_dict current) eqn:Hdict.
    2:{ exists [], current. split; [apply prefix_nil|done]. }
    destruct current as [ | | | | | | | |d| | ]; try done.
    cbn [set_at py_contains] in Hset.
    destruct (bool_decide (k ∈ keys d)) eqn:Hin.
    + cbn [py_getitem] in Hset.
      destruct (assoc k d) as [child|] eqn:Hk.
      * destruct (set_at child ks last value) as [r child'] eqn:Hsub.
        injection Hset as -> _.
        destruct (IH _ _ Hsub) as (pre & v & Hpre & Hv & Hnd).
        exists (k :: pre), v. split; [by apply prefix_cons|].
        split; [|done]. simpl. by rewrite Hk.
      * apply bool_decide_eq_true in Hin. by apply assoc_None in Hk.
    + cbn [py_setitem py_getitem] in Hset. rewrite assoc_dict_set_eq in Hset.
      destruct (set_at_empty ks last value) as [c Hc]. rewrite Hc in Hset. done.
Qed.

(** X14. When [Config.set] raises it has changed nothing: the
    configuration is as it was before the call.  And it raises only when
    the walk along the dotted key comes to a value that is not a dict: some
    keys of the key, short of the last, lead to such a value. *)
Theorem config_set_raises_unchanged (self self' : Config.t) (key : string)
    (value : pyval) (e : exn) :
  Config.set self key value = (inl e, self') →
  self' = self
  ∧ ∃ ks pre v, split "." key = inr ks ∧ pre `prefix_of` removelast ks
      ∧ Config.get_walk (Config.config self) pre = inr v ∧ is_dict v = false.
Proof.
  unfold Config.set.
  destruct (split "." key) as [e'|ks] eqn:Hkeys; [done|].
  destruct (set_at _ _ _ _) as [r c] eqn:Hset. intros [= -> <-].
  destruct (set_at_raises_at _ _ _ _ _ _ Hset) as (pre & v & Hpre & Hv & Hnd).
  apply set_at_raises in Hset as ->. split; [by destruct self|].
  by exists ks, pre, v.
Qed.

End config_props.
(** ** [Config._merge_configs] *)

Lemma pyval_dict_ind (P : pyval → Prop) :
  (∀ v, is_dict v = false → P v) →
  (∀ d, Forall (λ kv, P kv.2) d → P (PDict d)) →
  ∀ v, P v.
Proof.
  intros Hleaf Hdict. fix IH 1. intros v.
  destruct v as [ | | | | | | | |d| | ]; try (by apply Hleaf).
  apply Hdict. induction d as [|[k x] d IHd]; constructor; [apply IH|apply IHd].
Qed.

Lemma dict_tree_inv (d : list (string * pyval)) :
  dict_tree (PDict d) → NoDup (keys d) ∧ Forall (λ kv, dict_tree kv.2) d.
Proof. by inversion 1. Qed.

Lemma merge_nil (d : list (string * pyval)) : Config._merge_configs d (PDict []) = inr d.
Proof. reflexivity. Qed.

Lemma merge_cons (d : list (string * pyval)) (k : string) (v : pyval)
    (u : list (string * pyval)) :
  Config._merge_configs d (PDict ((k, v) :: u))
  = match (match assoc k d, v with
           | Some (PDict r), PDict _ =>
               match Config._merge_configs r v with
               | inl e => inl e
               | inr merged => inr (dict_set k (PDict merged) d)
               end
           | _, _ => inr (dict_set k v d)
           end) with
    | inl e => inl e
    | inr res => Config._merge_configs res (PDict u)
    end.
Proof.
  cbn [Config._merge_configs fold_left].
  match goal with |- fold_left ?f u ?a = _ => generalize a; intros acc end.
  destruct acc as [e|res]; [|done].
  induction u as [|[k' v'] u IH]; [done|apply IH].
Qed.

(** Merging a dict into a dict never raises. *)
Lemma merge_total (user : pyval) :
  ∀ d, is_dict user = true → ∃ m, Config._merge_configs d user = inr m.
Proof.
  induction user as [v Hv|u IH] using pyval_dict_ind; intros d Hd; [congruence|].
  clear Hd. revert d. induction IH as [|[k v] u Hv _ IHu]; intros d.
  - by eexists.
  - rewrite merge_cons. simpl in Hv.
    destruct (assoc k d) as [[]|]; try apply IHu.
    destruct v; try apply IHu.
    edestruct Hv as [m ->]; [done|]. apply IHu.
Qed.

(** What a key holds after a merge: the user's value, merged with the
    default's when both are dicts, and the default's value for a key the
    user does not give. *)
Lemma merge_lookup (u : list (string * pyval)) :
  NoDup (keys u) →
  ∀ d m, Config._merge_configs d (PDict u) = inr m →
  ∀ k, assoc k m
       = match assoc k u with
         | None => assoc k d
         | Some v =>
             match assoc k d, v with
             | Some (PDict r), PDict _ =>
                 match Config._merge_configs r v with
                 | inr merged => Some (PDict merged)
                 | inl _ => None
                 end
             | _, _ => Some v
             end
         end.
Proof.
  induction u as [|[k' v] u IH]; intros Hnd d m Hm k.
  - rewrite merge_nil in Hm. by injection Hm as ->.
  - apply NoDup_cons in Hnd as [Hk' Hnd]. simpl in Hk'. rewrite merge_cons in Hm.
    match type of Hm with
    | match ?x with _ => _ end = _ => destruct x as [e|res] eqn:Hstep; [done|]
    end.
    rewrite (IH Hnd res m Hm k). simpl.
    destruct (decide (k = k')) as [->|Hne].
    + apply assoc_None in Hk'. rewrite Hk'.
      destruct (assoc k' d) as [[]|]; try (injection Hstep as <-; apply assoc_dict_set_eq).
      destruct v; try (injection Hstep as <-; apply assoc_dict_set_eq).
      destruct (Config._merge_configs d0 (PDict d1)); [done|].
      injection Hstep as <-. apply assoc_dict_set_eq.
    + assert (assoc k res = assoc k d) as Hres.
      { destruct (assoc k' d) as [[]|];
          try (injection Hstep as <-; by apply assoc_dict_set_ne).
        destruct v; try (injection Hstep as <-; by apply assoc_dict_set_ne).
        destruct (Config._merge_configs d0 (PDict d1)); [done|].
        injection Hstep as <-. by apply assoc_dict_set_ne. }
      rewrite Hres. done.
Qed.

Lemma assoc_elem_of {A} (k : string) (v : A) (d : list (string * A)) :
  NoDup (keys d) → (k, v) ∈ d → assoc k d = Some v.
Proof.
  induction d as [|[k' x] d IH]; simpl; intros Hnd Hin.
  - by apply elem_of_nil in Hin.
  - apply NoDup_cons in Hnd as [Hk' Hnd].
    apply elem_of_cons in Hin as [[= <- <-]|Hin]; [by rewrite decide_True|].
    rewrite decide_False; [by apply IH|].
    intros ->. apply Hk'. apply list_elem_of_fmap. by exists (k', v).
Qed.

(** A merge whose every step leaves the dict as it is, leaves it as it is. *)
Lemma merge_fixed (m u : list (string * pyval)) :
  (∀ k v, (k, v) ∈ u →
     match assoc k m, v with
     | Some (PDict r), PDict _ =>
         match Config._merge_configs r v with
         | inl e => inl e
         | inr merged => inr (dict_set k (PDict merged) m)
         end
     | _, _ => inr (dict_set k v m)
     end = inr m) →
  Config._merge_configs m (PDict u) = inr m.
Proof.
  induction u as [|[k v] u IH]; intros Hstep; [done|].
  rewrite merge_cons, (Hstep k v) by (by left).
  apply IH. intros k' v' Hin. apply Hstep. by right.
Qed.

Lemma merge_again (user : pyval) :
  dict_tree user →
  (∀ d m, Config._merge_configs d user = inr m → Config._merge_configs m user = inr m)
  ∧ (∀ u, user = PDict u → Config._merge_configs u user = inr u).
Proof.
  induction user as [v Hv|u IH] using pyval_dict_ind; intros Htree.
  { split; [intros d m; by destruct v|by intros u ->]. }
  apply dict_tree_inv in Htree as [Hnd Hall].
  assert (∀ k v, (k, v) ∈ u →
            dict_tree v
            ∧ (∀ d m, Config._merge_configs d v = inr m →
                      Config._merge_configs m v = inr m)
            ∧ (∀ u', v = PDict u' → Config._merge_configs u' v = inr u')) as Hsub.
  { intros k v Hin. rewrite Forall_forall in IH, Hall.
    specialize (IH _ Hin). specialize (Hall _ Hin). simpl in *.
    split; [done|]. by apply IH. }
  split.
  - intros d m Hm. apply merge_fixed. intros k v Hin.
    pose proof (merge_lookup u Hnd d m Hm k) as Hk.
    rewrite (assoc_elem_of k v u Hnd Hin) in Hk.
    destruct (Hsub k v Hin) as (_ & Hidem & Hself).
    destruct (assoc k d) as [[]|] eqn:Hd; destruct v; cbv beta iota in Hk;
      try (rewrite Hk; cbv beta iota; by rewrite (dict_set_same _ _ _ Hk));
      try (rewrite Hk; cbv beta iota; rewrite (Hself _ eq_refl);
           by rewrite (dict_set_same _ _ _ Hk)).
    destruct (merge_total (PDict d1) d0 eq_refl) as [merged Hr].
    rewrite Hr in Hk. rewrite Hk. cbv beta iota. rewrite (Hidem _ _ Hr).
    by rewrite (dict_set_same _ _ _ Hk).
  - intros u' [= <-]. apply merge_fixed. intros k v Hin.
    pose proof (assoc_elem_of k v u Hnd Hin) as Hk. rewrite Hk.
    destruct (Hsub k v Hin) as (_ & _ & Hself).
    destruct v; cbv beta iota; try (by rewrite (dict_set_same _ _ _ Hk)).
    rewrite (Hself _ eq_refl). by rewrite (dict_set_same _ _ _ Hk).
Qed.

Lemma filter_ext_elem {A} (P Q : A → Prop) `{!∀ x, Decision (P x)}
    `{!∀ x, Decision (Q x)} (l : list A) :
  (∀ x, x ∈ l → (P x ↔ Q x)) → filter P l = filter Q l.
Proof.
  induction l as [|x l IH]; intros Hext; [done|].
  rewrite !filter_cons.
  rewrite IH by (intros y Hy; apply Hext; by right).
  destruct (decide (P x)) as [HP|HP], (decide (Q x)) as [HQ|HQ]; try done.
  - destruct HQ. apply Hext; [by left|done].
  - destruct HP. apply Hext; [by left|done].
Qed.

(** X15. Merging a user configuration into a configuration a second time
    changes nothing: the merge of [user] into what the merge of [user] into
    [default] gave is that same dict, keys in the same order. *)
Theorem merge_configs_idempotent (default merged : list (string * pyval))
    (user : pyval) :
  dict_tree user →
  Config._merge_configs default user = inr merged →
  Config._merge_configs merged user = inr merged.
Proof. intros Htree. by apply merge_again. Qed.

(** X16. [_merge_configs] never raises on a user dict, and after it every
    key holds: the user's value when the user gives one (merged with the
    default's value when both are dicts), and the default's value when the
    user gives none.  The keys of the default keep their places, the new
    keys of the user follow in the user's order. *)
Theorem merge_configs_lookup (default user : list (string * pyval)) :
  NoDup (keys user) →
  ∃ merged, Config._merge_configs default (PDict user) = inr merged
    ∧ keys merged = keys default ++ filter (λ k, k ∉ keys default) (keys user)
    ∧ ∀ k, assoc k merged
           = match assoc k user with
             | None => assoc k default
             | Some v =>
                 match assoc k default, v with
                 | Some (PDict r), PDict _ =>
                     match Config._merge_configs r v with
                     | inr sub => Some (PDict sub)
                     | inl _ => None
                     end
                 | _, _ => Some v
                 end
             end.
Proof.
  intros Hnd. destruct (merge_total (PDict user) default eq_refl) as [merged Hm].
  exists merged. split; [done|]. split; [|by apply merge_lookup].
  clear -Hnd Hm. revert default merged Hm.
  induction user as [|[k v] u IH]; intros d m Hm.
  - rewrite merge_nil in Hm. injection Hm as ->. simpl. by rewrite app_nil_r.
  - apply NoDup_cons in Hnd as [Hk Hnd]. simpl in Hk. rewrite merge_cons in Hm.
    match type of Hm with
    | match ?x with _ => _ end = _ => destruct x as [e|res] eqn:Hstep; [done|]
    end.
    assert (keys res = if bool_decide (k ∈ keys d) then keys d else keys d ++ [k])
      as Hres.
    { destruct (assoc k d) as [[]|]; try (injection Hstep as <-; apply keys_dict_set).
      destruct v; try (injection Hstep as <-; apply keys_dict_set).
      destruct (Config._merge_configs d0 (PDict d1)); [done|].
      injection Hstep as <-. apply keys_dict_set. }
    rewrite (IH Hnd res m Hm), Hres.
    change (keys ((k, v) :: u)) with (k :: keys u). rewrite filter_cons.
    destruct (decide (k ∈ keys d)) as [Hin|Hout].
    + rewrite bool_decide_eq_true_2 by done.
      rewrite decide_False by (intros Hn; by apply Hn). done.
    + rewrite bool_decide_eq_false_2 by done. rewrite decide_True by done.
      rewrite <- app_assoc. simpl. do 2 f_equal.
      apply filter_ext_elem. intros k' Hk'. rewrite not_elem_of_app.
      split; [by intros [? _]|]. intros ?. split; [done|].
      rewrite list_elem_of_singleton. by intros ->.
Qed.
(** ** [flatten_dict] and [unflatten_dict] *)

Lemma chars_append (s t : string) : chars (String.append s t) = chars s ++ chars t.
Proof. induction s as [|a s IH]; simpl; [done|]. by rewrite IH. Qed.

Lemma chars_nonempty (s : string) : s ≠ "" ↔ chars s ≠ [].
Proof. destruct s; simpl; split; congruence. Qed.

Lemma prefix_singleton (c x : ascii) (s : list ascii) :
  [c] `prefix_of` x :: s ↔ c = x.
Proof.
  split.
  - intros [t Ht]. by injection Ht.
  - intros ->. by exists s.
Qed.

Lemma split_chars_free (c : ascii) (k : list ascii) :
  c ∉ k → split_chars [c] 0 k = [k].
Proof.
  induction k as [|x k IH]; [done|]. intros [Hx Hk]%not_elem_of_cons. simpl.
  rewrite bool_decide_eq_false_2 by (by rewrite prefix_singleton).
  by rewrite IH.
Qed.

Lemma split_chars_app (c : ascii) (k rest : list ascii) :
  c ∉ k → split_chars [c] 0 (k ++ c :: rest) = k :: split_chars [c] 0 rest.
Proof.
  induction k as [|x k IH]; simpl.
  - intros _. by rewrite bool_decide_eq_true_2 by (by rewrite prefix_singleton).
  - intros [Hx Hk]%not_elem_of_cons.
    rewrite bool_decide_eq_false_2 by (by rewrite prefix_singleton).
    by rewrite IH.
Qed.

(** Splitting what was joined gives the pieces. *)
Lemma split_join (c : ascii) (p : list (list ascii)) (k : list ascii) :
  c ∉ k → Forall (λ k', c ∉ k') p →
  split_chars [c] 0 (join_chars c k p) = k :: p.
Proof.
  intros Hk Hp. revert k Hk. induction Hp as [|k' p Hk' _ IH]; intros k Hk.
  - unfold join_chars. simpl. rewrite app_nil_r. by apply split_chars_free.
  - unfold join_chars. simpl. rewrite split_chars_app by done.
    f_equal. by apply IH.
Qed.

Lemma flat_key_nonempty (pk sep : string) (p : list string) :
  pk ≠ "" →
  chars (flat_key pk sep p)
  = chars pk ++ flat_map (λ k, chars sep ++ chars k) p.
Proof.
  revert pk. induction p as [|k p IH]; intros pk Hpk; simpl.
  - by rewrite app_nil_r.
  - rewrite bool_decide_eq_false_2 by done.
    rewrite IH.
    + rewrite !chars_append. by rewrite <- !app_assoc.
    + apply chars_nonempty. rewrite chars_append.
      apply chars_nonempty in Hpk. by destruct (chars pk).
Qed.

(** The key of a leaf below the root, as characters. *)
Lemma flat_key_join (c : ascii) (k : string) (p : list string) :
  k ≠ "" →
  chars (flat_key "" (String c "") (k :: p)) = join_chars c (chars k) (map chars p).
Proof.
  intros Hk. unfold flat_key. cbn [fold_left].
  rewrite bool_decide_eq_true_2 by done. fold (flat_key k (String c "") p).
  rewrite flat_key_nonempty by done. unfold join_chars.
  f_equal. induction p as [|k' p IH]; [done|]. cbn [flat_map map]. by rewrite IH.
Qed.

Lemma split_flat_key (c : ascii) (p : list string) :
  p ≠ [] → Forall (plain_key c) p →
  split (String c "") (flat_key "" (String c "") p) = inr p.
Proof.
  intros Hne Hp. destruct p as [|k p]; [done|].
  apply Forall_cons in Hp as [[Hk Hck] Hp].
  unfold split. simpl bool_decide. cbv iota.
  rewrite flat_key_join by done.
  change (chars (String c "")) with [c].
  rewrite split_join.
  - simpl. rewrite of_chars_chars. f_equal. f_equal.
    rewrite map_map. clear. induction p as [|k' p IH]; simpl; [done|].
    by rewrite of_chars_chars, IH.
  - done.
  - apply Forall_map. eapply Forall_impl; [exact Hp|]. by intros k' [_ ?].
Qed.

Lemma fold_dict_set_fresh {A} (l acc : list (string * A)) :
  NoDup (keys (acc ++ l)) →
  fold_left (λ d kv, dict_set kv.1 kv.2 d) l acc = acc ++ l.
Proof.
  revert acc. induction l as [|[k v] l IH]; intros acc Hnd; simpl.
  - by rewrite app_nil_r.
  - rewrite dict_set_fresh.
    + rewrite IH; rewrite <- app_assoc; done.
    + rewrite keys_app in Hnd. apply NoDup_app in Hnd as (_ & Hdis & _).
      intros Hk. apply (Hdis k Hk). by left.
Qed.

Lemma dict_of_NoDup {A} (l : list (string * A)) : NoDup (keys l) → dict_of l = l.
Proof. intros Hnd. by apply (fold_dict_set_fresh l []). Qed.

Lemma NoDup_keys_dict_set {A} (k : string) (v : A) (d : list (string * A)) :
  NoDup (keys d) → NoDup (keys (dict_set k v d)).
Proof.
  intros Hnd. rewrite keys_dict_set. destruct (bool_decide (k ∈ keys d)) eqn:E; [done|].
  apply bool_decide_eq_false in E. apply NoDup_app. split; [done|].
  split; [|apply NoDup_singleton].
  intros k' Hk' ->%list_elem_of_singleton. done.
Qed.

Lemma NoDup_keys_dict_of {A} (l : list (string * A)) : NoDup (keys (dict_of l)).
Proof.
  unfold dict_of. assert (NoDup (keys (@nil (string * A)))) as Hacc by constructor.
  revert Hacc. generalize (@nil (string * A)).
  induction l as [|[k v] l IH]; intros acc Hacc; simpl; [done|].
  by apply IH, NoDup_keys_dict_set.
Qed.

Lemma elem_of_dict_set {A} (k : string) (v : A) (d : list (string * A)) (x : string * A) :
  x ∈ dict_set k v d → x = (k, v) ∨ x ∈ d.
Proof.
  induction d as [|[k' y] d IH]; simpl.
  - intros ->%list_elem_of_singleton. by left.
  - destruct (decide (k = k')) as [->|Hne].
    + intros [->|Hx]%elem_of_cons; [by left|right; by right].
    + intros [->|Hx]%elem_of_cons; [right; by left|].
      destruct (IH Hx) as [->|?]; [by left|right; by right].
Qed.

Lemma elem_of_dict_of {A} (l : list (string * A)) (x : string * A) :
  x ∈ dict_of l → x ∈ l.
Proof.
  unfold dict_of.
  assert (∀ acc, x ∈ fold_left (λ d kv, dict_set kv.1 kv.2 d) l acc → x ∈ acc ∨ x ∈ l)
    as Hgen.
  { induction l as [|[k v] l IH]; intros acc; simpl; [by left|].
    intros Hx. destruct (IH _ Hx) as [Hacc|Hl]; [|right; by right].
    destruct (elem_of_dict_set _ _ _ _ Hacc) as [->|?]; [right; by left|by left]. }
  intros Hx. destruct (Hgen [] Hx) as [Hnil|?]; [by apply elem_of_nil in Hnil|done].
Qed.

(** X17. What [flatten_dict] returns is flat, whatever it is given: no
    value of it is a dict, and flattening it again with the same separator
    gives it back. *)
Theorem flatten_dict_flat (data : pyval) (separator : string) :
  ∃ flat, utils.flatten_dict data separator = PDict flat
    ∧ NoDup (keys flat)
    ∧ Forall (λ kv, is_dict kv.2 = false) flat
    ∧ utils.flatten_dict (PDict flat) separator = PDict flat.
Proof.
  exists (utils._flatten data "" separator). split; [done|].
  assert (∀ v pk, NoDup (keys (utils._flatten v pk separator))) as Hnd.
  { intros [] pk; apply NoDup_keys_dict_of. }
  assert (∀ v pk, Forall (λ kv, is_dict kv.2 = false) (utils._flatten v pk separator))
    as Hflat.
  { induction v as [v Hv|d IH] using pyval_dict_ind; intros pk.
    - apply Forall_forall. intros x Hx.
      assert (x ∈ dict_of [(pk, v)]) as Hx' by (by destruct v).
      by apply elem_of_dict_of, list_elem_of_singleton in Hx' as ->.
    - apply Forall_forall. intros x Hx. simpl in Hx.
      apply elem_of_dict_of, list_elem_of_In, in_flat_map in Hx
        as ([k v] & Hkv & Hx).
      apply list_elem_of_In in Hkv, Hx. rewrite Forall_forall in IH.
      pose proof (IH _ Hkv (if bool_decide (pk = "") then k
                            else String.append pk (String.append separator k))) as Hsub.
      rewrite Forall_forall in Hsub. by apply Hsub. }
  split; [apply Hnd|]. split; [apply Hflat|].
  unfold utils.flatten_dict. f_equal.
  specialize (Hnd data ""). specialize (Hflat data "").
  revert Hnd Hflat. generalize (utils._flatten data "" separator). intros flat Hnd Hflat.
  simpl. rewrite <- (dict_of_NoDup flat Hnd) at 2. f_equal.
  clear Hnd. induction Hflat as [|[k v] flat Hv _ IH]; simpl; [done|].
  rewrite IH. simpl in Hv. by destruct v.
Qed.

Lemma leaves_cons (k : string) (v : pyval) (d : list (string * pyval)) :
  leaves (PDict ((k, v) :: d))
  = map (λ py : list string * pyval, (k :: py.1, py.2)) (leaves v) ++ leaves (PDict d).
Proof. reflexivity. Qed.

Lemma leaves_leaf (v : pyval) : is_dict v = false → leaves v = [([], v)].
Proof. by destruct v. Qed.

(** The leaves of a nested dict: each lies below a key of the dict, at the
    end of plain keys, and is no dict. *)
Lemma nested_leaves (c : ascii) (d : list (string * pyval)) :
  nested c d →
  Forall (λ py, (∃ k p, py.1 = k :: p ∧ k ∈ keys d)
                ∧ Forall (plain_key c) py.1 ∧ is_dict py.2 = false)
         (leaves (PDict d)).
Proof.
  induction 1 as [|k v d Hk Hv Hfresh _ IH|k d' d Hk Hne _ IHsub Hfresh _ IH].
  - constructor.
  - rewrite leaves_cons, leaves_leaf by done. apply Forall_app. split.
    + apply Forall_singleton. simpl. split; [|split; [by apply Forall_singleton|done]].
      eexists _, _. split; [done|by left].
    + eapply Forall_impl; [exact IH|]. intros py ((k' & p & -> & Hk') & ? & ?).
      split; [|done]. eexists _, _. split; [done|by right].
  - rewrite leaves_cons. apply Forall_app. split.
    + apply Forall_map. eapply Forall_impl; [exact IHsub|].
      intros py (_ & Hp & Hy). simpl. split; [|split; [by constructor|done]].
      eexists _, _. split; [done|by left].
    + eapply Forall_impl; [exact IH|]. intros py ((k' & p & -> & Hk') & ? & ?).
      split; [|done]. eexists _, _. split; [done|by right].
Qed.

Lemma nested_leaves_nonempty (c : ascii) (d : list (string * pyval)) :
  nested c d → d ≠ [] → leaves (PDict d) ≠ [].
Proof.
  induction 1 as [|k v d Hk Hv Hfresh _ IH|k d' d Hk Hne _ IHsub Hfresh _ IH];
    intros Hd; [done| |].
  - by rewrite leaves_cons, leaves_leaf.
  - rewrite leaves_cons. specialize (IHsub Hne).
    destruct (leaves (PDict d')); [done|]. done.
Qed.

Lemma nested_paths_NoDup (c : ascii) (d : list (string * pyval)) :
  nested c d → NoDup (map fst (leaves (PDict d))).
Proof.
  induction 1 as [|k v d Hk Hv Hfresh Hd IH|k d' d Hk Hne _ IHsub Hfresh Hd IH].
  - constructor.
  - rewrite leaves_cons, leaves_leaf, map_app by done.
    apply NoDup_app. split; [|split; [|done]].
    + apply NoDup_singleton.
    + intros p Hp Hp'. apply list_elem_of_fmap in Hp' as (py & -> & Hpy).
      pose proof (nested_leaves c d Hd) as Hall. rewrite Forall_forall in Hall.
      destruct (Hall _ Hpy) as ((k' & p' & Hpath & Hk') & _).
      apply list_elem_of_fmap in Hp as (py' & Hpath' & Hpy').
      apply list_elem_of_fmap in Hpy' as (py'' & -> & _). simpl in Hpath'.
      rewrite Hpath in Hpath'. injection Hpath' as -> _. done.
  - rewrite leaves_cons, map_app. apply NoDup_app. split; [|split; [|done]].
    + rewrite map_map. simpl.
      rewrite <- (map_map fst (cons k)). apply NoDup_fmap_2; [|done].
      by intros p q [= ->].
    + intros p Hp Hp'. apply list_elem_of_fmap in Hp' as (py & -> & Hpy).
      pose proof (nested_leaves c d Hd) as Hall. rewrite Forall_forall in Hall.
      destruct (Hall _ Hpy) as ((k' & p' & Hpath & Hk') & _).
      apply list_elem_of_fmap in Hp as (py' & Hpath' & Hpy').
      apply list_elem_of_fmap in Hpy' as (py'' & -> & _). simpl in Hpath'.
      rewrite Hpath in Hpath'. injection Hpath' as -> _. done.
Qed.

Lemma flat_key_cons (pk sep k : string) (p : list string) :
  flat_key pk sep (k :: p)
  = flat_key (if bool_decide (pk = "") then k
              else String.append pk (String.append sep k)) sep p.
Proof. reflexivity. Qed.

(** Two leaves with the same flattened key are at the same keys. *)
Lemma flat_key_inj (c : ascii) (pk : string) (p q : list string) :
  p ≠ [] → q ≠ [] → Forall (plain_key c) p → Forall (plain_key c) q →
  flat_key pk (String c "") p = flat_key pk (String c "") q → p = q.
Proof.
  intros Hp Hq Hpp Hpq Heq.
  assert (flat_key "" (String c "") p = flat_key "" (String c "") q) as Hroot.
  { destruct (decide (pk = "")) as [->|Hpk]; [done|].
    apply chars_inj. apply (f_equal chars) in Heq.
    rewrite !flat_key_nonempty in Heq by done. apply app_inv_head in Heq.
    destruct p as [|k p]; [done|]. destruct q as [|k' q]; [done|].
    apply Forall_cons in Hpp as [[Hk _] _]. apply Forall_cons in Hpq as [[Hk' _] _].
    unfold flat_key at 1 2. cbn [fold_left].
    rewrite !bool_decide_eq_true_2 by done.
    fold (flat_key k (String c "") p). fold (flat_key k' (String c "") q).
    rewrite !flat_key_nonempty by done.
    cbn [flat_map] in Heq. change (chars (String c "")) with [c] in Heq.
    simpl app in Heq. injection Heq as Heq. exact Heq. }
  pose proof (split_flat_key c p Hp Hpp) as H1.
  pose proof (split_flat_key c q Hq Hpq) as H2.
  rewrite Hroot in H1. congruence.
Qed.

Lemma nested_flat_keys_NoDup (c : ascii) (d : list (string * pyval)) (pk : string) :
  nested c d →
  NoDup (keys (map (λ py : list string * pyval,
                      (flat_key pk (String c "") py.1, py.2)) (leaves (PDict d)))).
Proof.
  intros Hd. unfold keys. rewrite map_map. simpl.
  rewrite <- (map_map fst (flat_key pk (String c ""))).
  apply NoDup_fmap_2_strong; [|by apply (nested_paths_NoDup c)].
  pose proof (nested_leaves c d Hd) as Hall. rewrite Forall_forall in Hall.
  intros p q (py & -> & Hpy)%list_elem_of_fmap (qy & -> & Hqy)%list_elem_of_fmap.
  destruct (Hall _ Hpy) as ((k & p' & Hp & _) & Hpp & _).
  destruct (Hall _ Hqy) as ((k' & q' & Hq & _) & Hpq & _).
  apply (flat_key_inj c); try done; congruence.
Qed.

(** The items [_flatten] collects are the leaves, each under its key. *)
Lemma flatten_items_leaves (c : ascii) (d : list (string * pyval)) :
  nested c d →
  ∀ pk,
    flat_map (λ kv : string * pyval, let '(k, v) := kv in
                utils._flatten v
                  (if bool_decide (pk = "") then k
                   else String.append pk (String.append (String c "") k))
                  (String c "")) d
    = map (λ py : list string * pyval, (flat_key pk (String c "") py.1, py.2))
          (leaves (PDict d)).
Proof.
  induction 1 as [|k v d Hk Hv Hfresh _ IH|k d' d Hk Hne Hd' IHsub Hfresh _ IH];
    intros pk; [done| |].
  - rewrite leaves_cons, leaves_leaf, map_app by done. cbn [flat_map].
    rewrite IH. f_equal. by destruct v.
  - rewrite leaves_cons, map_app. cbn [flat_map]. rewrite IH. f_equal.
    cbn [utils._flatten]. rewrite IHsub.
    rewrite dict_of_NoDup by (by apply nested_flat_keys_NoDup).
    by rewrite map_map.
Qed.

Lemma flatten_leaves (c : ascii) (d : list (string * pyval)) :
  nested c d →
  utils._flatten (PDict d) "" (String c "")
  = map (λ py : list string * pyval, (flat_key "" (String c "") py.1, py.2))
        (leaves (PDict d)).
Proof.
  intros Hd. cbn [utils._flatten]. rewrite (flatten_items_leaves c d Hd "").
  apply dict_of_NoDup. by apply nested_flat_keys_NoDup.
Qed.

Lemma dict_set_twice {A} (k : string) (v w : A) (d : list (string * A)) :
  dict_set k w (dict_set k v d) = dict_set k w d.
Proof.
  induction d as [|[k' x] d IH]; simpl.
  - by rewrite decide_True.
  - destruct (decide (k = k')) as [->|Hne]; simpl.
    + by rewrite decide_True.
    + by rewrite decide_False, IH.
Qed.

Section unflatten_props.
Context `{Libs}.

Lemma set_at_dict (s : list (string * pyval)) (ks : list string) (l : string)
    (y c' : pyval) :
  set_at (PDict s) ks l y = (inr tt, c') → ∃ s', c' = PDict s'.
Proof.
  destruct ks as [|k ks]; simpl.
  - intros [= <-]. by eexists.
  - destruct (bool_decide (k ∈ keys s)).
    + simpl. destruct (assoc k s) as [child|]; [|done].
      destruct (set_at child ks l y) as [r child']. intros [= _ <-]. by eexists.
    + simpl. rewrite assoc_dict_set_eq.
      destruct (set_at (PDict []) ks l y) as [r child']. intros [= _ <-]. by eexists.
Qed.

Lemma insert_all_app (res : pyval) (L1 L2 : list (list string * pyval)) :
  insert_all res (L1 ++ L2)
  = match insert_all res L1 with
    | inl e => inl e
    | inr r => insert_all r L2
    end.
Proof.
  revert res. induction L1 as [|[p y] L1 IH]; intros res; simpl; [done|].
  destruct (set_at res (removelast p) (List.last p "") y) as [[e|[]] res']; [done|].
  apply IH.
Qed.

Lemma removelast_cons {A} (x : A) (l : list A) :
  l ≠ [] → removelast (x :: l) = x :: removelast l.
Proof. by destruct l. Qed.

Lemma last_cons {A} (x d : A) (l : list A) :
  l ≠ [] → List.last (x :: l) d = List.last l d.
Proof. by destruct l. Qed.

(** Items below a key the dict has go into the dict under that key. *)
Lemma insert_below (k : string) (L : list (list string * pyval)) :
  Forall (λ py, py.1 ≠ []) L →
  ∀ sub acc, assoc k acc = Some (PDict sub) →
  insert_all (PDict acc) (map (λ py : list string * pyval, (k :: py.1, py.2)) L)
  = match insert_all (PDict sub) L with
    | inl e => inl e
    | inr r => inr (PDict (dict_set k r acc))
    end.
Proof.
  induction 1 as [|[p y] L Hp _ IH]; intros sub acc Hk.
  - simpl. by rewrite dict_set_same.
  - simpl in Hp. cbn [map insert_all fst snd].
    rewrite removelast_cons, last_cons by done. cbn [set_at py_contains].
    rewrite bool_decide_eq_true_2 by (by eapply assoc_keys).
    cbn [py_getitem]. rewrite Hk.
    destruct (set_at (PDict sub) (removelast p) (List.last p "") y) as [[e|[]] child']
      eqn:Hset; [done|].
    destruct (set_at_dict _ _ _ _ _ Hset) as [sub' ->].
    rewrite (IH sub' (dict_set k (PDict sub') acc)) by apply assoc_dict_set_eq.
    destruct (insert_all (PDict sub') L); [done|]. by rewrite dict_set_twice.
Qed.

(** Items below a key the dict does not have make a new dict under that
    key, at the end. *)
Lemma insert_new (k : string) (L : list (list string * pyval))
    (acc : list (string * pyval)) :
  Forall (λ py, py.1 ≠ []) L → L ≠ [] → k ∉ keys acc →
  insert_all (PDict acc) (map (λ py : list string * pyval, (k :: py.1, py.2)) L)
  = match insert_all (PDict []) L with
    | inl e => inl e
    | inr r => inr (PDict (acc ++ [(k, r)]))
    end.
Proof.
  intros HL Hne Hk.
  assert (insert_all (PDict acc)
            (map (λ py : list string * pyval, (k :: py.1, py.2)) L)
          = insert_all (PDict (acc ++ [(k, PDict [])]))
              (map (λ py : list string * pyval, (k :: py.1, py.2)) L)) as ->.
  { destruct L as [|[p y] L]; [done|]. apply Forall_cons in HL as [Hp _]. simpl in Hp.
    cbn [map insert_all fst snd]. rewrite removelast_cons, last_cons by done.
    cbn [set_at py_contains]. rewrite bool_decide_eq_false_2 by done.
    rewrite bool_decide_eq_true_2
      by (rewrite keys_app; apply elem_of_app; right; by left).
    cbn [py_setitem]. by rewrite dict_set_fresh. }
  rewrite (insert_below k L HL [] (acc ++ [(k, PDict [])])).
  - destruct (insert_all (PDict []) L); [done|].
    rewrite <- (dict_set_fresh k (PDict []) acc Hk), dict_set_twice.
    by rewrite dict_set_fresh.
  - rewrite <- (dict_set_fresh k (PDict []) acc Hk). apply assoc_dict_set_eq.
Qed.

(** Inserting the leaves of a nested dict builds the dict. *)
Lemma insert_leaves (c : ascii) (d : list (string * pyval)) :
  nested c d →
  ∀ acc, (∀ k, k ∈ keys d → k ∉ keys acc) →
  insert_all (PDict acc) (leaves (PDict d)) = inr (PDict (acc ++ d)).
Proof.
  induction 1 as [|k v d Hk Hv Hfresh _ IH|k d' d Hk Hne Hd' IHsub Hfresh _ IH];
    intros acc Hacc.
  - simpl. by rewrite app_nil_r.
  - rewrite leaves_cons, leaves_leaf by done. cbn [map app insert_all fst snd].
    cbn [removelast List.last set_at py_setitem].
    rewrite dict_set_fresh by (apply Hacc; by left).
    rewrite IH.
    + by rewrite <- app_assoc.
    + intros k' Hk'. rewrite keys_app. apply not_elem_of_app. split.
      * apply Hacc. by right.
      * simpl. rewrite list_elem_of_singleton. by intros ->.
  - rewrite leaves_cons, insert_all_app.
    rewrite insert_new.
    + rewrite (IHsub []) by (intros ? _; apply not_elem_of_nil). simpl app at 1.
      rewrite IH.
      * by rewrite <- app_assoc.
      * intros k' Hk'. rewrite keys_app. apply not_elem_of_app. split.
        -- apply Hacc. by right.
        -- simpl. rewrite list_elem_of_singleton. by intros ->.
    + eapply Forall_impl; [apply (nested_leaves c d' Hd')|].
      intros py ((k' & p & -> & _) & _). done.
    + by apply (nested_leaves_nonempty c).
    + apply Hacc. by left.
Qed.

Lemma unflatten_items_leaves (c : ascii) (L : list (list string * pyval))
    (res : pyval) :
  Forall (λ py, py.1 ≠ [] ∧ Forall (plain_key c) py.1) L →
  utils.unflatten_items res
    (map (λ py : list string * pyval, (flat_key "" (String c "") py.1, py.2)) L)
    (String c "")
  = insert_all res L.
Proof.
  intros HL. revert res. induction HL as [|[p y] L [Hp Hpp] _ IH]; intros res; [done|].
  cbn [map utils.unflatten_items insert_all fst snd]. simpl in Hp, Hpp.
  rewrite split_flat_key by done.
  destruct (set_at res (removelast p) (List.last p "") y) as [[e|[]] res']; [done|].
  apply IH.
Qed.

(** X18. [unflatten_dict] undoes [flatten_dict]: a nested dict whose keys
    are not empty and do not hold the separator, with no key twice in a
    dict and no empty dict inside, flattened and unflattened with a
    separator of one character, comes back as it was, the keys of every
    dict in their order. *)
Theorem flatten_unflatten_roundtrip (c : ascii) (d : list (string * pyval)) :
  nested c d →
  utils.unflatten_dict (utils.flatten_dict (PDict d) (String c "")) (String c "")
  = inr (PDict d).
Proof.
  intros Hd. unfold utils.unflatten_dict, utils.flatten_dict. cbn [py_items].
  rewrite (flatten_leaves c d Hd).
  rewrite (unflatten_items_leaves c).
  - apply (insert_leaves c d Hd []). intros ? _. apply not_elem_of_nil.
  - eapply Forall_impl; [apply (nested_leaves c d Hd)|].
    intros py ((k & p & -> & _) & Hp & _). done.
Qed.

End unflatten_props.
(** ** The configuration file *)

Lemma on_files_run {A} (m : M A) (s : session) :
  on_files m s = ((m (files s)).1, mk_session (m (files s)).2 (notes s) (stdout s)).
Proof. unfold on_files. by destruct (m (files s)). Qed.

Lemma json_load_file_cases (p : path) (st : state) :
  match node_at (fs st) p with
  | Some (JsonFile v) => json.load_file p st = (inr v, after_io st (IORead p))
  | _ => ∃ e, json.load_file p st = (inl e, after_io st (IORead p))
  end.
Proof.
  destruct (node_at (fs st) p) as [n|] eqn:Hn.
  - destruct n; try (apply json_load_file_other; intros ?; rewrite Hn; congruence).
    by apply json_load_file_doc.
  - apply json_load_file_other. intros v. by rewrite Hn.
Qed.

(** X19. [Config.load_config] never raises and never changes a file.
    When the path holds a JSON document that is a dict, the configuration
    becomes the merge of the document into the configuration; in every
    other case (no file, a directory, no JSON, a document that is a list
    or a number) the configuration stays as it is and a warning is
    logged. *)
Theorem config_load_never_raises (self : Config.t) (p : path) (s : session) :
  let r := Config.load_config self p s in
  fs (files r.2) = fs (files s)
  ∧ match node_at (fs (files s)) p, Config.config self with
    | Some (JsonFile (PDict user)), PDict default =>
        ∃ merged, Config._merge_configs default (PDict user) = inr merged
          ∧ r.1 = inr (Config.mk (Config.config_path self) (PDict merged))
          ∧ notes r.2 = notes s ++ [(INFO, ConfigLoaded p)]
    | _, _ =>
        ∃ e, r.1 = inr self
          ∧ notes r.2 = notes s ++ [(WARNING, ConfigLoadFailed p e)]
    end.
Proof.
  intros r. subst r. unfold Config.load_config, try_except.
  rewrite !run_bind, on_files_run.
  pose proof (json_load_file_cases p (files s)) as Hload.
  destruct (node_at (fs (files s)) p) as [n|] eqn:Hn.
  2:{ destruct Hload as [e ->]. split; [done|]. by exists e. }
  destruct n;
    try (lazymatch type of Hload with
         | ex _ => destruct Hload as [e ->]; split; [done|]; by exists e
         end).
  rewrite Hload. cbn [fst snd]. rewrite run_bind. unfold lift at 1.
  destruct (Config.config self) as [ | | | | | | | |default| | ] eqn:Hc;
    try (split; [done|]; destruct v; by eexists).
  destruct v as [ | | | | | | | |user| | ];
    try (split; [done|]; by eexists).
  destruct (merge_total (PDict user) default eq_refl) as [merged Hm].
  rewrite Hm. split; [done|]. by exists merged.
Qed.



Lemma path_exists_run (p : path) (st : state) :
  path_exists p st = (inr (path_in (fs st) p), after_io st (IOStat p)).
Proof. reflexivity. Qed.

(** X21. A configuration that [save_config] has saved is what
    [Config(path)] starts from: when the configuration is a dict json can
    encode and the path can be written, [save_config] returns normally and
    a new [Config] for the path holds the default configuration with the
    saved document merged into it. *)
Theorem config_save_restore (self : Config.t) (p : path) (s : session)
    (d : list (string * pyval)) (doc : pyval) :
  ready_file (fs (files s)) p →
  Config.config self = PDict d → json_dumps (PDict d) = inr doc →
  ∃ s1 s2 merged,
    Config.save_config self (Some p) s = (inr tt, s1)
    ∧ Config._merge_configs default_config doc = inr merged
    ∧ Config.__init__ (Some p) s1 = (inr (Config.mk (Some p) (PDict merged)), s2).
Proof.
  intros [Hp Hanc] Hc Hdoc.
  assert (p ≠ []) as Hne by apply (is_dir_false_nonroot _ _ Hp).
  assert (is_dict doc = true) as Hdict.
  { simpl in Hdoc. destruct (result_map _ d); [done|]. by injection Hdoc as <-. }
  destruct (merge_total doc default_config Hdict) as [merged Hm].
  unfold Config.save_config. rewrite run_bind, on_files_run.
  rewrite mkdir_parents_noop by done. cbn [fst snd].
  unfold try_except. rewrite !run_bind, on_files_run. cbn [files notes stdout].
  rewrite open_write_ok by (simpl; auto using ancestors_dir).
  cbn [fst snd]. rewrite run_bind. unfold lift at 1. rewrite Hc, Hdoc.
  rewrite run_bind, on_files_run. cbn [files notes stdout fst snd].
  unfold write_node, get_fs, put_fs, note, after_io. rewrite run_bind.
  cbn [fs log io files notes stdout].
  eexists _, _, merged. split; [reflexivity|]. split; [exact Hm|].
  unfold Config.__init__. rewrite run_bind, on_files_run. cbn [files notes stdout].
  rewrite path_exists_run. cbn [fs after_io fst snd]. unfold path_in.
  rewrite insert_insert_eq, node_at_insert by done.
  rewrite bool_decide_eq_true_2 by (by eexists).
  unfold Config.load_config, try_except. rewrite !run_bind, on_files_run.
  cbn [files notes stdout Config.config Config.config_path].
  erewrite json_load_file_doc by (cbn [fs]; by apply node_at_insert).
  cbn [fst snd]. rewrite run_bind. unfold lift at 1.
  unfold default_config, Config._load_default_config in Hm. cbv iota in Hm.
  unfold Config._load_default_config. cbv iota. rewrite Hm. reflexivity.
Qed.

(** ** The converters *)

(** X22. The registry of converters of a new Data Manager holds 42
    entries: one for every ordered pair of two different formats other
    than AUTO, and none for a format to itself or for AUTO; the class
    registered for a pair is the converter class of its source format. *)
Theorem default_converters_registered (source_format target_format : FormatType) :
  size Converters.__init__ = 42
  ∧ (is_Some (Converters.__init__ !! (source_format, target_format))
     ↔ source_format ≠ target_format ∧ source_format ≠ AUTO ∧ target_format ≠ AUTO)
  ∧ ∀ c, Converters.__init__ !! (source_format, target_format) = Some c →
         (source_format, c) ∈ Converters.formats.
Proof.
  split; [by vm_compute|]. split.
  - destruct source_format, target_format;
      (split; [intros [c Hc]; vm_compute in Hc; try discriminate; done
              |intros (? & ? & ?); try done; by eexists]).
  - intros c Hc. apply list_elem_of_In.
    destruct source_format, target_format; vm_compute in Hc; try discriminate;
      injection Hc as <-; vm_compute; tauto.
Qed.

Section converter_props.
Context `{Libs}.

Lemma to_arrays_spec (items acc out : list (string * pyval)) :
  converter.to_arrays acc items = inr out →
  Forall (λ kv, ∃ a, kv.2 = PArray a) acc →
  Forall (λ kv, ∃ a, kv.2 = PArray a) out
  ∧ keys out = keys (fold_left (λ d kv, dict_set kv.1 kv.2 d) items acc).
Proof.
  assert (∀ k v (d : list (string * pyval)),
            Forall (λ kv, ∃ a, kv.2 = PArray a) d → (∃ a, v = PArray a) →
            Forall (λ kv, ∃ a, kv.2 = PArray a) (dict_set k v d)) as Hset.
  { intros k v d Hd Hv. apply Forall_forall. intros x Hx.
    apply elem_of_dict_set in Hx as [->|Hx]; [done|].
    rewrite Forall_forall in Hd. by apply Hd. }
  assert (∀ k v w (d : list (string * pyval)),
            keys (dict_set k v d) = keys (dict_set k w d)) as Hkeys.
  { intros. by rewrite !keys_dict_set. }
  revert acc. induction items as [|[key value] items IH]; intros acc Hout Hacc.
  - simpl in Hout. by injection Hout as <-.
  - cbn [converter.to_arrays] in Hout. cbn [fold_left fst snd].
    assert (∀ w, keys (fold_left (λ d kv, dict_set kv.1 kv.2 d) items
                         (dict_set key w acc))
                 = keys (fold_left (λ d kv, dict_set kv.1 kv.2 d) items
                           (dict_set key value acc))) as Hfold.
    { intros w. generalize (Hkeys key w value acc).
      generalize (dict_set key w acc) (dict_set key value acc).
      clear. induction items as [|[k v] items IH]; intros d1 d2 Hd; [done|].
      simpl. apply IH. rewrite !keys_dict_set, Hd. done. }
    destruct value;
      try (destruct (np_array _) as [e|a] eqn:Ha; [done|];
           destruct (IH _ Hout) as [Hall Hk]; [apply Hset; [done|by eexists]|];
           split; [done|]; by rewrite Hk, Hfold).
    destruct (IH _ Hout) as [Hall Hk]; [apply Hset; [done|by eexists]|]. done.
Qed.

Lemma for_items_ok {St A} (body : string → A → SE St unit) (d : list (string * A))
    (s : St) :
  (∀ k v s', (k, v) ∈ d → body k v s' = (inr tt, s')) →
  for_items body d s = (inr tt, s).
Proof.
  induction d as [|[k v] d IH]; intros Hbody; [done|].
  rewrite for_items_cons, run_bind, Hbody by (by left).
  apply IH. intros k' v' s' Hin. apply Hbody. by right.
Qed.

Lemma numpy_validate_arrays (l : loader) (d : list (string * pyval)) (s : state) :
  Forall (λ kv, ∃ a, kv.2 = PArray a) d →
  numpy.validate l (PDict d) s = (inr true, s).
Proof.
  intros Hd. unfold numpy.validate, try_except. rewrite !run_bind.
  unfold lift at 1. cbn [py_items]. rewrite run_bind, for_items_ok; [done|].
  intros k v s' Hin. rewrite Forall_forall in Hd.
  destruct (Hd _ Hin) as [a Hv]. simpl in Hv. by subst v.
Qed.

(** X23. What [NumPyConverter.convert_from] returns is a dict of arrays
    under the keys of the dict the source loader loaded, and
    [NumPyLoader.validate] accepts it.  (The other converter classes return
    what the loader loaded as it is.) *)
Theorem numpy_converter_gives_arrays (source_loader : loader) (st st' : state)
    (data : pyval) :
  converter.convert_from NumPyConverter source_loader st = (inr data, st') →
  ∃ items d,
    loader_load source_loader st = (inr (PDict items), st')
    ∧ data = PDict d
    ∧ keys d = keys (dict_of items)
    ∧ Forall (λ kv, ∃ a, kv.2 = PArray a) d
    ∧ ∀ l s, numpy.validate l data s = (inr true, s).
Proof.
  unfold converter.convert_from. rewrite !run_bind.
  destruct (loader_load source_loader st) as [[e|loaded] st1]; [done|].
  unfold lift at 1. destruct (py_items loaded) as [e|items] eqn:Hitems; [done|].
  rewrite run_bind. unfold lift.
  destruct (converter.to_arrays [] items) as [e|d] eqn:Hd; [done|].
  intros [= <- <-]. destruct loaded; try done. injection Hitems as ->.
  destruct (to_arrays_spec items [] d Hd) as [Hall Hk]; [constructor|].
  exists items, d. split; [done|]. split; [done|]. split; [done|]. split; [done|].
  intros l s. by apply numpy_validate_arrays.
Qed.

End converter_props.
(** ** The command line *)

Lemma format_arg_not_auto_registered (arg : option string) (format_type : FormatType) :
  cli.format_arg arg = inr format_type → format_type ≠ AUTO →
  is_Some (DataManager._loaders DataManager.__init__ !! format_type).
Proof. intros _ Hne. by apply default_loaders_registered. Qed.

Section cli_props.
Context `{Libs}.

(** X24. [rdm batch-convert] reports success whatever happens to the
    files: once the format options are read and the target directory is
    made, the command returns normally and prints its success line, without
    logging an error of its own, even when every conversion failed.
    Without [--source-format] it converts nothing at all. *)
Theorem batch_command_reports_success (source_dir target_dir : path)
    (source_format target_format : option string)
    (source_type target_type : FormatType) (s : session) (st1 : state) :
  cli.format_arg source_format = inr source_type →
  cli.format_arg target_format = inr target_type →
  mkdir_parents target_dir (files s) = (inr tt, st1) →
  ∃ s', cli.batch_convert_command source_dir target_dir source_format target_format s
        = (inr cli.Returned, s')
    ∧ stdout s' = stdout s ++ [BatchConvertedLine source_dir target_dir]
    ∧ notes s' = notes s
    ∧ (source_format = None → files s' = st1).
Proof.
  intros Hsf Htf Hmk. unfold cli.batch_convert_command, try_except.
  rewrite !run_bind. unfold lift at 1. rewrite Hsf. cbv beta iota.
  rewrite run_bind. unfold lift at 1. rewrite Htf. cbv beta iota.
  rewrite run_bind, on_files_run.
  rewrite (batch_convert_run _ _ _ _ _ [] _ _ eq_refl Hmk). cbn [fst snd].
  eexists. split; [reflexivity|]. cbn [stdout notes files]. split; [done|].
  split; [done|]. intros ->. injection Hsf as <-.
  unfold found_files, after_walks. simpl. rewrite app_nil_r. by destruct st1.
Qed.

(** X25. [rdm validate] exits with status 0 exactly when
    [DataManager.validate] returned True; when it returned False or raised,
    the status is 1.  With [--format rlds] the status is always 1. *)
Theorem validate_command_status (p : path) (format : option string)
    (format_type : FormatType) (s : session) :
  cli.format_arg format = inr format_type →
  let v := DataManager.validate DataManager.__init__ p format_type (files s) in
  ∃ st s', cli.validate_command p format s = (inr st, s')
    ∧ files s' = v.2
    ∧ st = (if bool_decide (v.1 = inr true) then cli.Returned else cli.Exit 1)
    ∧ (format_type = RLDS → st = cli.Exit 1).
Proof.
  intros Hf v. unfold cli.validate_command, try_except.
  rewrite !run_bind. unfold lift at 1. rewrite Hf. cbv beta iota.
  rewrite run_bind, on_files_run. fold v.
  assert (format_type = RLDS → v.1 ≠ inr true) as Hrlds.
  { intros ->. apply rlds_manager_not_true. }
  destruct v as [[e|[]] st1]; cbn [fst snd] in *.
  - eexists _, _. split; [reflexivity|]. by rewrite bool_decide_eq_false_2.
  - eexists _, _. split; [reflexivity|]. split; [done|].
    rewrite bool_decide_eq_true_2 by done. split; [done|].
    intros Hr. by destruct (Hrlds Hr).
  - eexists _, _. split; [reflexivity|]. by rewrite bool_decide_eq_false_2.
Qed.

End cli_props.

Section info_props.
Variable st_size : node → Z.
Variables hdf5_version zarr_version zarr_store_type tensorflow_version : string.

Lemma stat_size_run (p : path) (n : node) (st : state) :
  node_at (fs st) p = Some n →
  stat_size st_size p st = (inr (PInt (st_size n)), after_io st (IOStat p)).
Proof.
  intros Hn. unfold stat_size, mbind, SE_bind, io_call, get_fs. cbn [fs log io].
  by rewrite Hn.
Qed.

Lemma base_get_metadata_run (l : loader) (st : state) :
  ∃ size st',
    base_get_metadata st_size l st
    = (inr [("path", PStr (path_str (l_path l)));
            ("format", PStr (class_name (l_class l))); ("size", size)], st').
Proof.
  unfold base_get_metadata. rewrite run_bind, path_is_file_run.
  destruct (is_file (fs st) (l_path l)) eqn:Hfile; [|by eexists _, _].
  rewrite run_bind. unfold is_file in Hfile. cbn [after_io fs].
  destruct (node_at (fs st) (l_path l)) as [n|] eqn:Hn; [|done].
  rewrite (stat_size_run _ n) by done. by eexists _, _.
Qed.

Lemma info_prints (p : path) (format_type : FormatType)
    (metadata : list (string * pyval)) (s : session) :
  (print (FileLine p) ;;
   print (FormatLine format_type) ;;
   print (SizeLine (assoc "file_size" metadata)) ;;
   (if bool_decide ("groups" ∈ keys metadata)
    then print (GroupsLine (default PNone (assoc "groups" metadata)))
    else mret tt) ;;
   mret cli.Returned) s
  = (inr cli.Returned,
     mk_session (files s) (notes s)
       (stdout s ++ [FileLine p; FormatLine format_type;
                     SizeLine (assoc "file_size" metadata)]
        ++ (if bool_decide ("groups" ∈ keys metadata)
            then [GroupsLine (default PNone (assoc "groups" metadata))] else []))).
Proof.
  unfold mbind, SE_bind, print, mret, SE_ret. cbn [files notes stdout].
  destruct (bool_decide ("groups" ∈ keys metadata)); cbn [files notes stdout];
    by rewrite <- !app_assoc.
Qed.

(** X26. [rdm info] without [--format] fails before it looks at the path:
    no loader is registered for AUTO, so it prints that no loader is
    available and exits with status 1.  With the format zarr, json, pickle
    or numpy and a path that exists it returns normally and prints the
    size as unknown: the metadata of these loaders has no key
    [file_size]. *)
Theorem info_command_outcomes (p : path) (format : option string)
    (format_type : FormatType) (s : session) :
  cli.format_arg format = inr format_type →
  let r := cli.info_command st_size hdf5_version zarr_version zarr_store_type
             tensorflow_version p format s in
  (format_type = AUTO →
   r = (inr (cli.Exit 1),
        mk_session (files s) (notes s) (stdout s ++ [NoLoaderLine AUTO])))
  ∧ (format_type ∈ [ZARR; JSON; PICKLE; NUMPY] →
     path_in (fs (files s)) p = true →
     r.1 = inr cli.Returned
     ∧ ∃ rest, stdout r.2
               = stdout s ++ [FileLine p; FormatLine format_type; SizeLine None] ++ rest).
Proof.
  intros Hf r. subst r. unfold cli.info_command, try_except. cbv zeta.
  rewrite !run_bind. rewrite Hf. unfold lift. cbv beta iota. split.
  - intros ->. reflexivity.
  - intros Hin Hp.
    match goal with
    | |- ?r.1 = _ ∧ _ =>
        assert (∃ s' rest, r = (inr cli.Returned, s')
                  ∧ stdout s' = stdout s ++ [FileLine p; FormatLine format_type;
                                             SizeLine None] ++ rest)
          as (s' & rest & -> & Hs); [|split; [done|by exists rest]]
    end.
    assert (∃ c, DataManager._loaders DataManager.__init__ !! format_type = Some c
                 ∧ c ∈ [ZarrLoader; JSONLoader; PickleLoader; NumPyLoader]) as (c & -> & Hc).
    { repeat (apply elem_of_cons in Hin as [->|Hin];
              [eexists; split; [reflexivity|]; rewrite !elem_of_cons; tauto|]).
      by apply elem_of_nil in Hin. }
    rewrite !run_bind, on_files_run, init_found by done. cbn [fst snd].
    unfold get_metadata. rewrite !run_bind, on_files_run. cbn [files notes stdout].
    destruct (base_get_metadata_run (mk_loader c p)
                (after_io (files s) (IOStat p))) as (size & st1 & ->).
    cbn [fst snd l_class l_path].
    assert (assoc "file_size"
              [("path", PStr (path_str p)); ("format", PStr (class_name c));
               ("size", size)] = None) as Hbase by reflexivity.
    repeat (apply elem_of_cons in Hc as [->|Hc]);
      [|unfold mret at 1, SE_ret at 1; cbv beta iota;
        rewrite info_prints, Hbase; by eexists _, _..
       |by apply elem_of_nil in Hc].
    unfold try_except. rewrite run_bind, on_files_run. cbn [files].
    destruct (zarr.open_read p st1) as [[e|g] st2]; cbn [fst snd].
    + rewrite run_bind. unfold note at 1. unfold mret at 1, SE_ret at 1.
      cbv beta iota. rewrite info_prints, Hbase. by eexists _, _.
    + unfold mret at 1, SE_ret at 1. cbv beta iota. rewrite info_prints.
      by eexists _, _.
Qed.

End info_props.
(** ** Values that are not arrays, through the tree codecs *)

Section tree_write_any.
Variable write : pyval → W unit.
Variable write_leaf : string → pyval → W unit.
Variable leaf : pyval → result ndarray.
Variable accepts : bool → ndarray → bool.

Hypothesis write_dict : ∀ d,
  write (PDict d)
  = for_items (λ key value,
      match value with
      | PDict _ => create_group key ;; in_new_group key (write value)
      | _ => write_leaf key value
      end) d.

Hypothesis write_leaf_ok : ∀ key v a g lg,
  leaf v = inr a → accepts true a = true ∨ accepts false a = true →
  key ∉ keys g →
  ∃ lg', write_leaf key v (g, lg) = (inr tt, (g ++ [(key, Dataset a)], lg')).

Lemma stored_items_keys (d d' : list (string * pyval)) :
  stored_items leaf accepts d d' → keys d' = keys d.
Proof. induction 1; simpl; congruence. Qed.


End tree_write_any.


Section stored_props.
Context `{Libs}.




End stored_props.
(** ** Saving to a path that does not exist yet *)

Lemma is_file_false (m : gmap path node) (q : path) :
  is_file m q = false →
  node_at m q = None ∨ ∃ n, node_at m q = Some n ∧ node_is_dir n = true.
Proof.
  unfold is_file. destruct (node_at m q) as [n|]; [|by left].
  intros Hn. right. exists n. split; [done|]. by destruct (node_is_dir n).
Qed.

(** [mkdir(parents=True)] makes the directories that are missing, when no
    file is in the way, and touches nothing else. *)
Lemma mkdir_steps_create (p : path) (qs : list path) (st : state) :
  Forall (λ q, q ≠ [] ∧ is_file (fs st) q = false) qs →
  ∃ st', for_each (mkdir_step p) qs st = (inr tt, st')
    ∧ Forall (λ q, is_dir (fs st') q = true) qs
    ∧ (∀ x n, node_at (fs st) x = Some n → node_at (fs st') x = Some n)
    ∧ (∀ x, x ∉ qs → node_at (fs st') x = node_at (fs st) x)
    ∧ log st' = log st ∧ io st' = io st.
Proof.
  revert st. induction qs as [|q qs IH]; intros st Hqs.
  - exists st. by repeat split.
  - apply Forall_cons in Hqs as [[Hq Hfile] Hqs].
    cbn [for_each]. rewrite run_bind.
    assert (∃ st1, mkdir_step p q st = (inr tt, st1)
              ∧ is_dir (fs st1) q = true
              ∧ (∀ x n, node_at (fs st) x = Some n → node_at (fs st1) x = Some n)
              ∧ (∀ x, x ≠ q → node_at (fs st1) x = node_at (fs st) x)
              ∧ log st1 = log st ∧ io st1 = io st) as (st1 & -> & Hdir & Hkeep & Hother & Hl & Hi).
    { unfold mkdir_step. rewrite run_bind. unfold get_fs at 1. cbv beta iota.
      destruct (is_file_false _ _ Hfile) as [Hnone|(n & Hn & Hd)].
      - rewrite Hnone. unfold put_fs. eexists. split; [reflexivity|]. cbn [fs log io].
        split; [unfold is_dir; by rewrite node_at_insert|].
        split; [|split; [|done]].
        + intros x n Hx. rewrite node_at_insert_ne; [done|done|]. congruence.
        + intros x Hx. by rewrite node_at_insert_ne.
      - rewrite Hn, Hd. exists st. split; [done|].
        split; [unfold is_dir; by rewrite Hn|]. done. }
    destruct (IH st1) as (st' & Hrun & Hall & Hkeep' & Hother' & Hl' & Hi').
    { eapply Forall_impl; [exact Hqs|]. intros q' [Hq' Hf']. split; [done|].
      destruct (decide (q' = q)) as [->|Hne].
      - unfold is_dir in Hdir. unfold is_file.
        destruct (node_at (fs st1) q); [by rewrite Hdir|done].
      - unfold is_file. by rewrite Hother. }
    exists st'. split; [exact Hrun|]. split; [|split; [|split]].
    + apply Forall_cons. split; [|done]. unfold is_dir in *.
      destruct (node_at (fs st1) q) as [n|] eqn:Hn; [|done].
      by rewrite (Hkeep' _ _ Hn).
    + intros x n Hx. by apply Hkeep', Hkeep.
    + intros x [Hx Hxs]%not_elem_of_cons. by rewrite Hother', Hother.
    + split; congruence.
Qed.

Lemma ancestors_nonempty (p q : path) : q ∈ ancestors_and_self p → q ≠ [].
Proof.
  unfold ancestors_and_self. intros (n & -> & Hn%list_elem_of_In%in_seq)%list_elem_of_fmap.
  destruct p; simpl in *; [lia|]. destruct n; [lia|done].
Qed.

Lemma ancestors_length (p q : path) :
  q ∈ ancestors_and_self p → (List.length q <= List.length p)%nat.
Proof.
  unfold ancestors_and_self. intros (n & -> & _)%list_elem_of_fmap.
  rewrite length_take. lia.
Qed.

Lemma mkdir_parents_creates (p : path) (st : state) :
  (∀ q, q ∈ ancestors_and_self p → is_file (fs st) q = false) →
  ∃ st', mkdir_parents p st = (inr tt, st')
    ∧ Forall (λ q, is_dir (fs st') q = true) (ancestors_and_self p)
    ∧ (∀ x n, node_at (fs st) x = Some n → node_at (fs st') x = Some n)
    ∧ (∀ x, x ∉ ancestors_and_self p → node_at (fs st') x = node_at (fs st) x)
    ∧ log st' = log st.
Proof.
  intros Hfree. unfold mkdir_parents. rewrite run_bind. unfold io_call.
  destruct (mkdir_steps_create p (ancestors_and_self p)
              (mk_state (fs st) (log st) (io st ++ [IOMkdir p])))
    as (st' & Hrun & Hall & Hkeep & Hother & Hl & _).
  { apply Forall_forall. intros q Hq. split; [by eapply ancestors_nonempty|].
    by apply Hfree. }
  exists st'. by rewrite Hrun.
Qed.

Lemma parent_length (q : path) :
  q ≠ [] → (List.length (parent q) < List.length q)%nat.
Proof.
  intros Hq. unfold parent.
  rewrite <- (removelast_last q "" Hq) at 2. rewrite length_app. simpl. lia.
Qed.

(** A path that is to be written below directories that [mkdir] can make. *)
Lemma mkdir_then_open (q : path) (empty : node) (st : state) :
  q ≠ [] → is_dir (fs st) q = false →
  (∀ a, a ∈ ancestors_and_self (parent q) → is_file (fs st) a = false) →
  ∃ st1, (mkdir_parents (parent q) ;; open_write q empty) st
         = (inr tt, mk_state (<[q := empty]> (fs st1)) (log st) (io st1 ++ [IOWrite q]))
    ∧ Forall (λ a, is_dir (fs st1) a = true) (ancestors_and_self (parent q))
    ∧ (∀ x n, node_at (fs st) x = Some n → node_at (fs st1) x = Some n).
Proof.
  intros Hq Hdir Hfree.
  destruct (mkdir_parents_creates (parent q) st Hfree)
    as (st1 & Hmk & Hall & Hkeep & Hother & Hlog).
  exists st1. rewrite run_bind, Hmk. split; [|done].
  rewrite open_write_ok.
  - by rewrite Hlog.
  - unfold is_dir in *. rewrite Hother; [done|].
    intros Hin%ancestors_length. pose proof (parent_length q Hq). lia.
  - by apply ancestors_dir.
Qed.

Section fresh_save.
Context `{Libs}.

(** X28. [save] of the JSON loader with an explicit path makes the path:
    when the path is no directory and no file is in the way of its parent
    directories, [save(data, path)] creates the directories that are
    missing and the file, returns normally, and a JSON loader for the path
    loads what json wrote of the data.  What the file system held
    elsewhere, it still holds. *)
Theorem json_save_creates_path (l : loader) (data : pyval) (q : path) (st : state) :
  q ≠ [] → is_dir (fs st) q = false →
  (∀ a, a ∈ ancestors_and_self (parent q) → is_file (fs st) a = false) →
  ∃ st1 st2,
    json.save l data (Some q) st = (inr tt, st1)
    ∧ Forall (λ a, is_dir (fs st1) a = true) (ancestors_and_self (parent q))
    ∧ json.load (mk_loader JSONLoader q) st1 = (inr (to_json data), st2)
    ∧ (∀ x n, x ≠ q → node_at (fs st) x = Some n → node_at (fs st1) x = Some n).
Proof.
  intros Hq Hdir Hfree.
  destruct (mkdir_then_open q (RawFile "") st Hq Hdir Hfree)
    as (st0 & Hopen & Hall & Hkeep).
  rewrite run_bind in Hopen.
  unfold json.save. simpl default. rewrite run_bind.
  destruct (mkdir_parents (parent q) st) as [[e|[]] s0]; [done|].
  unfold try_except, json.dump_file. rewrite !run_bind, Hopen.
  cbv beta iota. rewrite run_bind. unfold lift, json.dumps.
  unfold write_node, get_fs, put_fs, logger. rewrite run_bind. cbn [fs log io].
  eexists _, _. split; [reflexivity|]. cbn [fs log io].
  rewrite insert_insert_eq. split; [|split].
  - apply Forall_forall. intros a Ha. rewrite Forall_forall in Hall.
    unfold is_dir. rewrite node_at_insert_ne; [by apply Hall|done|].
    intros ->. apply ancestors_length in Ha. pose proof (parent_length q Hq). lia.
  - unfold json.load, json.load_file, try_except. rewrite !run_bind.
    erewrite read_node_file; [|simpl; by apply node_at_insert|done].
    reflexivity.
  - intros x n Hx Hn. rewrite node_at_insert_ne by done. by apply Hkeep.
Qed.

End fresh_save.

(** ** [save_metadata] and [load_metadata] *)

(** Where json needs no [default], [default=str] changes nothing. *)
Lemma json_dumps_agree (py_str : pyval → string) (v : pyval) :
  ∀ doc, json_dumps v = inr doc → json_dumps_str py_str v = doc.
Proof.
  induction v as [v Hl Ht Hd|l IH|l IH|d IH] using pyval_all_ind; intros doc.
  - destruct v; try (by intros [= <-]); try done.
    + by destruct (Hl l).
    + by destruct (Ht l).
    + by destruct (Hd d).
  - simpl. destruct (result_map json_dumps l) as [e|l'] eqn:Hl; [done|].
    intros [= <-]. f_equal. revert l' Hl.
    induction IH as [|x l Hx _ IHl]; intros l'; simpl; [by intros [= <-]|].
    destruct (json_dumps x) as [e|x'] eqn:Ex; [done|].
    destruct (result_map json_dumps l) as [e|l''] eqn:El; [done|].
    intros [= <-]. by rewrite (Hx _ eq_refl), (IHl _ eq_refl).
  - simpl. destruct (result_map json_dumps l) as [e|l'] eqn:Hl; [done|].
    intros [= <-]. f_equal. revert l' Hl.
    induction IH as [|x l Hx _ IHl]; intros l'; simpl; [by intros [= <-]|].
    destruct (json_dumps x) as [e|x'] eqn:Ex; [done|].
    destruct (result_map json_dumps l) as [e|l''] eqn:El; [done|].
    intros [= <-]. by rewrite (Hx _ eq_refl), (IHl _ eq_refl).
  - simpl. destruct (result_map _ d) as [e|d'] eqn:Hd; [done|].
    intros [= <-]. f_equal. revert d' Hd.
    induction IH as [|[k x] d Hx _ IHd]; intros d'; simpl; [by intros [= <-]|].
    simpl in Hx. destruct (json_dumps x) as [e|x'] eqn:Ex; [done|].
    destruct (result_map _ d) as [e|d''] eqn:Ed; [done|].
    intros [= <-]. by rewrite (Hx _ eq_refl), (IHd _ eq_refl).
Qed.

(** X29. [save_metadata] makes its path, and [load_metadata] reads back
    what was saved: when the path is no directory and no file is in the
    way of its parent directories, [save_metadata] creates the missing
    directories and the file and returns normally, and [load_metadata]
    returns the metadata as json writes it with [default=str]; that is the
    metadata itself when json can encode it as it is. *)
Theorem save_metadata_roundtrip (py_str : pyval → string) (metadata : pyval)
    (q : path) (st : state) :
  q ≠ [] → is_dir (fs st) q = false →
  (∀ a, a ∈ ancestors_and_self (parent q) → is_file (fs st) a = false) →
  ∃ st1 st2,
    utils.save_metadata py_str metadata q st = (inr tt, st1)
    ∧ utils.load_metadata q st1 = (inr (json_dumps_str py_str metadata), st2)
    ∧ (json_dumps metadata = inr metadata →
       utils.load_metadata q st1 = (inr metadata, st2)).
Proof.
  intros Hq Hdir Hfree.
  destruct (mkdir_then_open q (RawFile "") st Hq Hdir Hfree)
    as (st0 & Hopen & Hall & Hkeep).
  rewrite run_bind in Hopen.
  unfold utils.save_metadata. rewrite run_bind.
  destruct (mkdir_parents (parent q) st) as [[e|[]] s0]; [done|].
  rewrite run_bind, Hopen.
  unfold write_node, get_fs, put_fs. rewrite run_bind. cbn [fs log io].
  eexists _, _. split; [reflexivity|].
  unfold utils.load_metadata.
  erewrite json_load_file_doc by (cbn [fs]; by apply node_at_insert).
  split; [reflexivity|].
  intros Hplain. by rewrite (json_dumps_agree py_str metadata metadata Hplain).
Qed.

(** ** A save that fails *)

Section save_fails.
Context `{Libs}.


End save_fails.

(** * The model at work *)

#[local] Existing Instance Reference.libs.

(** C1, counterexample. The Data Manager's [validate] raises: for a path
    that does not exist, for a file that does not load, and for a format
    without loader. *)
Lemma validate_raises :
  (DataManager.validate DataManager.__init__ ["missing.json"] AUTO no_files).1
  = inl FileNotFoundError
  ∧ (DataManager.validate DataManager.__init__ ["in"; "d.json"] JSON batch_input).1
    = inl DataValidationError
  ∧ (DataManager.validate json_only ["a.json"] PICKLE one_json).1
    = inl ValueError.
Proof. repeat split; vm_compute; reflexivity. Qed.

(** C2, the code on the input of the scenario: four files, one of them
    corrupt, a target directory that does not exist yet.  The call returns
    normally, but the target directory holds no file and no conversion
    succeeded: each of the three conversions that loaded its source failed
    on building the loader of its target. *)
Lemma batch_convert_writes_nothing :
  let r := DataManager.batch_convert DataManager.__init__ ["in"] ["out"]
             JSON PICKLE [] batch_input in
  r.1 = inr tt
  ∧ filter (λ q, ["out"] `prefix_of` q) (map fst (map_to_list (fs r.2))) = [["out"]]
  ∧ batch_successes (log r.2) = []
  ∧ batch_failures (log r.2)
    = [(["in"; "d.json"], DataValidationError);
       (["in"; "c.json"], FileNotFoundError);
       (["in"; "b.json"], FileNotFoundError);
       (["in"; "a.json"], FileNotFoundError)].
Proof. repeat split; vm_compute; reflexivity. Qed.

(** C3, at work: converting a JSON file that loads to a path that does not
    exist; and converting an HDF5 file with the keyword [mode='w'], which
    empties the source but still writes no target. *)
Lemma fresh_target_raises_witness :
  (path_in (fs one_json) ["out.pkl"] = false
   ∧ ∃ e st', DataManager.convert DataManager.__init__ ["a.json"] ["out.pkl"]
                AUTO AUTO [] one_json = (inl e, st')
       ∧ path_in (fs st') ["out.pkl"] = false
       ∧ (read_mode [] → fs st' = fs one_json)
       ∧ (is_Some (DataManager._loaders DataManager.__init__
                     !! resolved AUTO ["out.pkl"]) →
          accepted [] = true →
          ∀ source_data st1,
            DataManager.load DataManager.__init__ ["a.json"]
              (resolved AUTO ["a.json"]) [] one_json = (inr source_data, st1) →
            e = FileNotFoundError))
  ∧ (path_in (fs one_h5) ["out.pkl"] = false
     ∧ ¬ ["out.pkl"] `prefix_of` ["a.h5"]
     ∧ ∃ e st', DataManager.convert DataManager.__init__ ["a.h5"] ["out.pkl"]
                  AUTO AUTO [("mode", PStr "w")] one_h5 = (inl e, st')
         ∧ path_in (fs st') ["out.pkl"] = false
         ∧ (read_mode [("mode", PStr "w")] → fs st' = fs one_h5)
         ∧ (is_Some (DataManager._loaders DataManager.__init__
                       !! resolved AUTO ["out.pkl"]) →
            accepted [("mode", PStr "w")] = true →
            ∀ source_data st1,
              DataManager.load DataManager.__init__ ["a.h5"]
                (resolved AUTO ["a.h5"]) [("mode", PStr "w")] one_h5
              = (inr source_data, st1) →
              e = FileNotFoundError)).
Proof.
  assert (¬ ["out.pkl"] `prefix_of` ["a.h5"]) as Hpre
    by (intros [k Hk]; discriminate).
  split.
  - split; [vm_compute; reflexivity|].
    exact (proj2 (proj2 (fresh_target_raises DataManager.__init__ PNone
                           ["a.json"] ["out.pkl"] AUTO AUTO [] one_json
                           ltac:(vm_compute; reflexivity)))
             (or_introl read_mode_nil)).
  - split; [vm_compute; reflexivity|]. split; [exact Hpre|].
    exact (proj2 (proj2 (fresh_target_raises DataManager.__init__ PNone
                           ["a.h5"] ["out.pkl"] AUTO AUTO [("mode", PStr "w")] one_h5
                           ltac:(vm_compute; reflexivity)))
             (or_intror Hpre)).
Defined.

(** What the second conversion above did: the source was loaded as the
    empty dict and is left empty, and the error is that of the target. *)
Example convert_mode_w :
  let r := DataManager.convert DataManager.__init__ ["a.h5"] ["out.pkl"]
             AUTO AUTO [("mode", PStr "w")] one_h5 in
  r.1 = inl FileNotFoundError
  ∧ map_to_list (fs r.2) = [(["a.h5"], H5File [])]
  ∧ log r.2 = [(INFO, LoadOk HDF5Loader ["a.h5"])].
Proof. repeat split; vm_compute; reflexivity. Qed.

(** A keyword that names a parameter of [load] makes [convert] a TypeError
    before anything is read. *)
Example convert_keyword_path :
  DataManager.convert DataManager.__init__ ["a.h5"] ["out.pkl"]
    AUTO AUTO [("path", PStr "b.h5")] one_h5
  = (inl TypeError, one_h5).
Proof. vm_compute. reflexivity. Qed.



(** C5, counterexample. With no loader for the target format, [convert]
    raises ValueError only after it has read the source. *)
Lemma convert_reads_before_rejecting :
  let r := DataManager.convert json_only ["a.json"] ["b.pkl"] JSON PICKLE [] one_json in
  DataManager._loaders json_only !! PICKLE = None
  ∧ r.1 = inl ValueError
  ∧ io r.2 = [IOStat ["a.json"]; IORead ["a.json"]]
  ∧ log r.2 = [(INFO, LoadOk JSONLoader ["a.json"])].
Proof. repeat split; vm_compute; reflexivity. Qed.

(** C5, at work: saving in a format without loader, and converting into
    one. *)
Lemma unregistered_format_raises_witness :
  DataManager._loaders json_only !! PICKLE = None
  ∧ DataManager.save json_only episode ["b.pkl"] PICKLE [] one_json
    = (inl ValueError, one_json)
  ∧ (read_mode [] →
     fs (DataManager.convert json_only ["a.json"] ["b.pkl"] JSON PICKLE [] one_json).2
     = fs one_json).
Proof.
  split; [vm_compute; reflexivity|]. split.
  - exact (proj1 (proj2 (unregistered_format_raises json_only [] one_json))
             episode ["b.pkl"] PICKLE ltac:(vm_compute; reflexivity)).
  - exact (proj2 (proj2 (proj2 (proj2 (proj2
             (unregistered_format_raises json_only [] one_json))))
             ["a.json"] ["b.pkl"] JSON PICKLE
             ltac:(vm_compute; reflexivity) ltac:(vm_compute; reflexivity))).
Defined.



(** C9, counterexample. The batch takes a file named [.json], whose suffix
    is empty, and a directory named [dir.json]; the target of the file
    [.json] is [.json.pkl], its name with the extension appended.  (Each
    entry is in the log as attempted; the conversions fail on their targets,
    as in C2, or on loading a directory.) *)
Lemma batch_takes_hidden_and_directories :
  let r := DataManager.batch_convert DataManager.__init__ ["in"] ["out"]
             JSON PICKLE [] odd_names in
  r.1 = inr tt
  ∧ map fst (batch_failures (log r.2))
    = [["in"; ".json"]; ["in"; "dir.json"]; ["in"; "a.json"]]
  ∧ suffix ["in"; ".json"] = ""
  ∧ is_dir (fs odd_names) ["in"; "dir.json"] = true
  ∧ with_suffix [".json"] (DataManager._get_extension PICKLE) = inr [".json.pkl"]
  ∧ IOStat ["out"; ".json.pkl"] ∈ io r.2.
Proof.
  repeat split; try (vm_compute; reflexivity).
  apply list_elem_of_In. vm_compute. tauto.
Qed.

(** C9, at work: the batch of C2, whose source format JSON has the
    extension [.json]; and a batch with source format AUTO, which takes no
    file. *)
Lemma batch_convert_files_witness :
  (found_files (<[ ["out"] := Dir ]> (fs batch_input)) ["in"] JSON
   = [["in"; "d.json"]; ["in"; "c.json"]; ["in"; "b.json"]; ["in"; "a.json"]]
   ∧ NoDup (found_files (<[ ["out"] := Dir ]> (fs batch_input)) ["in"] JSON)
   ∧ ∀ q, q ∈ found_files (<[ ["out"] := Dir ]> (fs batch_input)) ["in"] JSON →
          suffix q ∈ [".json"] ∨ path_name q ∈ [".json"])
  ∧ (mkdir_parents ["out"] batch_input
     = (inr tt, mk_state (<[ ["out"] := Dir ]> (fs batch_input)) [] [IOMkdir ["out"]])
     ∧ DataManager.batch_convert DataManager.__init__ ["in"] ["out"] AUTO JSON []
         batch_input
       = (inr tt, mk_state (<[ ["out"] := Dir ]> (fs batch_input)) [] [IOMkdir ["out"]])).
Proof.
  assert (mkdir_parents ["out"] batch_input
          = (inr tt, mk_state (<[ ["out"] := Dir ]> (fs batch_input)) []
                       [IOMkdir ["out"]])) as Hmk by (vm_compute; reflexivity).
  split.
  - split; [vm_compute; reflexivity|].
    pose proof (batch_convert_files DataManager.__init__ ["in"] ["out"] JSON PICKLE []
                  batch_input _ eq_refl Hmk) as Hb.
    exact (conj (proj1 (proj2 Hb)) (proj1 (proj2 (proj2 (proj2 (proj2 Hb)))))).
  - split; [exact Hmk|].
    apply (batch_convert_files DataManager.__init__ ["in"] ["out"] AUTO JSON []
             batch_input _ eq_refl Hmk).
    apply elem_of_cons. by left.
Defined.

(** The enumeration of the batch above, and the target of one of its files. *)
Example find_files_json :
  found_files (fs batch_input) ["in"] JSON
  = [["in"; "d.json"]; ["in"; "c.json"]; ["in"; "b.json"]; ["in"; "a.json"]]
  ∧ found_files (fs batch_input) ["in"] RLDS = []
  ∧ with_suffix ["sub"; "a.json"] (DataManager._get_extension PICKLE)
    = inr ["sub"; "a.pkl"].
Proof. repeat split; vm_compute; reflexivity. Qed.

(** A scalar leaf through the HDF5 codec comes back as an array of one
    element. *)
Example hdf5_scalar_leaf :
  let l := mk_loader HDF5Loader ["a.json"] in
  ∃ st1 st2, hdf5.save l (PDict [("n", PInt 42)]) None one_json = (inr tt, st1)
    ∧ hdf5.load l st1 = (inr (PDict [("n", PArray (mk_array DInt [1] [IInt 42]))]), st2).
Proof. eexists _, _. split; vm_compute; reflexivity. Qed.

(** A string leaf through the HDF5 codec: numpy makes an array of unicode
    strings of it, which h5py has no type for, and [save] raises, leaving
    the file with what was written before. *)
Example hdf5_string_leaf :
  let l := mk_loader HDF5Loader ["a.h5"] in
  let r := hdf5.save l (PDict [("n", PInt 42); ("task", PStr "pick")]) None one_h5 in
  r.1 = inl DataValidationError
  ∧ map_to_list (fs r.2)
    = [(["a.h5"], H5File [("n", Dataset (mk_array DInt [1] [IInt 42]))])].
Proof. split; vm_compute; reflexivity. Qed.


#[local] Ltac decided := apply (bool_decide_unpack _); vm_compute; exact I.

(** X1, at work: [load] with the keyword [mode='w'] on an HDF5 file.  The
    file is emptied and the empty dict is returned. *)
Lemma load_outcomes_witness :
  let r := DataManager.load DataManager.__init__ ["a.h5"] AUTO [("mode", PStr "w")]
             one_h5 in
  r.1 = inr (PDict []) ∧ fs r.2 = <[ ["a.h5"] := H5File [] ]> (fs one_h5).
Proof.
  exact (proj2 (proj2 (load_outcomes DataManager.__init__ ["a.h5"] AUTO
                         [("mode", PStr "w")] one_h5))
           [("x", Dataset floats)] eq_refl eq_refl eq_refl eq_refl eq_refl).
Defined.

(** X5, at work: two episodes come back as two placeholders. *)
Lemma rlds_roundtrip_placeholders_witness :
  ∃ st1 st2,
    rlds.save (mk_loader RLDSLoader ["a.json"])
      (PDict [("episodes", PList [episode; episode])]) None one_json = (inr tt, st1)
    ∧ rlds.load (mk_loader RLDSLoader ["a.json"]) st1
      = (inr (PDict [("episodes", PList (replicate 2 rlds._parse_tf_example));
                     ("metadata", PDict [("num_episodes", PInt 2);
                                         ("format", PStr "rlds")])]), st2).
Proof.
  apply (rlds_roundtrip_placeholders (mk_loader RLDSLoader ["a.json"])
           [("episodes", PList [episode; episode])] [episode; episode] one_json).
  - split; [vm_compute; reflexivity|]. constructor.
  - reflexivity.
Defined.


(** With the keyword [allow_pickle] of later versions of numpy, an array
    under that key is not stored. *)
Example numpy_allow_pickle_key :
  let r := numpy.save (mk_loader NumPyLoader ["d.npz"])
             (PDict [("allow_pickle", PArray floats); ("a", PArray floats)])
             None no_files in
  r.1 = inr tt ∧ node_at (fs r.2) ["d.npz"] = Some (NpzFile [("a", floats)]).
Proof. split; vm_compute; reflexivity. Qed.

(** X7, at work: two arrays saved through a loader bound to [d.npy] go to
    [d.npz]. *)
Lemma numpy_save_many_goes_to_npz_witness :
  let r := numpy.save (mk_loader NumPyLoader ["d.npy"])
             (PDict [("a", PArray floats); ("b", PArray floats)]) None one_npy in
  node_at (fs r.2) ["d.npy"] = Some (RawFile "")
  ∧ (r.1 = inr tt →
     ∃ q arrays, with_suffix ["d.npy"] ".npz" = inr q
       ∧ node_at (fs r.2) q = Some (NpzFile arrays) ∧ keys arrays = ["a"; "b"]).
Proof.
  destruct (numpy_save_many_goes_to_npz (mk_loader NumPyLoader ["d.npy"])
              [("a", PArray floats); ("b", PArray floats)] one_npy (RawFile ""))
    as [Hkept Hnpz].
  - vm_compute. discriminate.
  - simpl. lia.
  - vm_compute; reflexivity.
  - split; [exact Hkept|]. intros Hr.
    destruct (Hnpz Hr) as (q & arrays & Hq & Hn & Hk).
    exists q, arrays. split; [exact Hq|]. split; [exact Hn|exact Hk].
Defined.

(** X8, at work: a JSON file is loaded as it is. *)
Lemma lerobot_load_single_file_witness :
  ∃ st', lerobot.load (mk_loader LeRobotLoader ["a.json"]) one_json
         = (inr (PDict [("n", PInt 1)]), st').
Proof.
  apply (proj2 (lerobot_load_single_file (mk_loader LeRobotLoader ["a.json"]) one_json
                  ltac:(vm_compute; reflexivity))).
  - vm_compute; reflexivity.
  - vm_compute; reflexivity.
Defined.

(** X9, at work: a directory with two episode files. *)
Lemma lerobot_load_directory_witness :
  ∃ st', lerobot.load (mk_loader LeRobotLoader ["ds"]) lerobot_dir
         = (inr (PDict [("episodes", PList [PDict [("episode_id", PInt 1)];
                                            PDict [("episode_id", PInt 0)]]);
                        ("metadata",
                         PDict [("num_episodes",
                                 PInt (Z.of_nat (length (lerobot.episode_files
                                                           (fs lerobot_dir) ["ds"]))));
                                ("format", PStr "lerobot")])]), st').
Proof.
  apply (proj1 (lerobot_load_directory (mk_loader LeRobotLoader ["ds"]) lerobot_dir
                  ltac:(vm_compute; reflexivity))).
  vm_compute. repeat constructor.
Defined.

(** X10, at work. *)
Lemma lerobot_save_wraps_episode_witness :
  ∃ st1 st2,
    lerobot.save (mk_loader LeRobotLoader ["a.json"]) (PDict [("n", PInt 1)]) None
      one_json = (inr tt, st1)
    ∧ lerobot.load (mk_loader LeRobotLoader ["a.json"]) st1
      = (inr (PDict [("episodes", PList [PDict [("n", PInt 1)]]);
                     ("metadata", PDict [("num_episodes", PInt 1);
                                         ("format", PStr "lerobot")])]), st2).
Proof.
  apply (lerobot_save_wraps_episode (mk_loader LeRobotLoader ["a.json"])
           [("n", PInt 1)] one_json).
  - vm_compute; reflexivity.
  - split; [vm_compute; reflexivity|]. constructor.
  - repeat constructor.
  - simpl. rewrite elem_of_cons, elem_of_nil. intros [?|[]]. discriminate.
Defined.

(** X11, at work: a list comes back under the key "data". *)
Lemma pickle_roundtrip_wraps_witness :
  ∃ st1 st2,
    pickle.save (mk_loader PickleLoader ["a.json"]) (PList [PInt 1; PInt 2]) None
      one_json = (inr tt, st1)
    ∧ pickle.load (mk_loader PickleLoader ["a.json"]) st1
      = (inr (PDict [("data", PList [PInt 1; PInt 2])]), st2).
Proof.
  apply (pickle_roundtrip_wraps (mk_loader PickleLoader ["a.json"])
           (PList [PInt 1; PInt 2]) one_json).
  - split; [vm_compute; reflexivity|]. constructor.
  - reflexivity.
Defined.

(** X12, at work: a JSON file converted into an existing pickle file, with
    the keyword [mode='r']. *)
Lemma convert_to_pickle_lossless_witness :
  ∃ st2 st3,
    DataManager.convert DataManager.__init__ ["a.json"] ["out.pkl"] AUTO PICKLE
      [("mode", PStr "r")] json_and_pickle = (inr tt, st2)
    ∧ DataManager.load DataManager.__init__ ["out.pkl"] PICKLE [("mode", PStr "r")] st2
      = (inr (PDict [("n", PInt 1)]), st3).
Proof.
  eapply (convert_to_pickle_lossless DataManager.__init__ ["a.json"] ["out.pkl"] AUTO
            [("n", PInt 1)] [("mode", PStr "r")] json_and_pickle).
  - reflexivity.
  - reflexivity.
  - reflexivity.
  - vm_compute; reflexivity.
  - reflexivity.
  - vm_compute; reflexivity.
  - split; [vm_compute; reflexivity|]. constructor.
Defined.

(** X13, at work: a dotted key of the default configuration. *)
Lemma config_get_after_set_witness :
  ∃ self',
    Config.set (Config.mk None Config._load_default_config)
      "formats.hdf5.compression" (PStr "lzf") = (inr tt, self')
    ∧ Config.get self' "formats.hdf5.compression" PNone = inr (PStr "lzf").
Proof.
  eexists. split; [vm_compute; reflexivity|].
  apply (config_get_after_set (Config.mk None Config._load_default_config)).
  vm_compute; reflexivity.
Defined.

(** X14, at work: ["logging.level"] holds a string, so nothing can be set
    below it. *)
Lemma config_set_raises_unchanged_witness :
  ∃ e self',
    Config.set (Config.mk None Config._load_default_config)
      "logging.level.name" (PInt 1) = (inl e, self')
    ∧ self' = Config.mk None Config._load_default_config.
Proof.
  eexists _, _. split; [vm_compute; reflexivity|].
  apply (proj1 (config_set_raises_unchanged
                  (Config.mk None Config._load_default_config) _
                  "logging.level.name" (PInt 1) TypeError
                  ltac:(vm_compute; reflexivity))).
Defined.

(** X15, at work. *)
Lemma merge_configs_idempotent_witness :
  ∃ merged,
    Config._merge_configs default_config (PDict user_config) = inr merged
    ∧ Config._merge_configs merged (PDict user_config) = inr merged.
Proof.
  eexists. split; [vm_compute; reflexivity|].
  apply (merge_configs_idempotent default_config).
  - apply dict_tree_dict; [decided|].
    apply Forall_cons. split; [|by apply Forall_singleton, dict_tree_leaf].
    apply dict_tree_dict; [decided|].
    by apply Forall_singleton, dict_tree_leaf.
  - vm_compute; reflexivity.
Defined.

(** X16, at work: the level of the user replaces the default's, the format
    of the default stays. *)
Lemma merge_configs_lookup_witness :
  ∃ merged,
    Config._merge_configs default_config (PDict user_config) = inr merged
    ∧ keys merged = ["formats"; "validation"; "logging"; "conversion"; "workers"]
    ∧ assoc "logging" merged
      = Some (PDict [("level", PStr "DEBUG");
                     ("format",
                      PStr "%(asctime)s - %(name)s - %(levelname)s - %(message)s")]).
Proof.
  destruct (merge_configs_lookup default_config user_config) as (merged & Hm & Hk & Hl).
  - decided.
  - exists merged. split; [exact Hm|]. split.
    + rewrite Hk. reflexivity.
    + rewrite Hl. reflexivity.
Defined.

(** X18, at work: the dict of the repository's own test. *)
Lemma flatten_unflatten_roundtrip_witness :
  utils.flatten_dict (PDict nested_example) "."
  = PDict [("a", PInt 1); ("b.c", PInt 2); ("b.d.e", PInt 3)]
  ∧ utils.unflatten_dict (utils.flatten_dict (PDict nested_example) ".") "."
    = inr (PDict nested_example).
Proof.
  split; [vm_compute; reflexivity|].
  apply (flatten_unflatten_roundtrip "."%char nested_example).
  apply nested_leaf; [unfold plain_key; decided|done|decided|].
  apply nested_dict; [unfold plain_key; decided|done| |decided|constructor].
  apply nested_leaf; [unfold plain_key; decided|done|decided|].
  apply nested_dict; [unfold plain_key; decided|done| |decided|constructor].
  apply nested_leaf; [unfold plain_key; decided|done|decided|constructor].
Defined.

(** X21, at work: the default configuration, saved and read again. *)
Lemma config_save_restore_witness :
  ∃ s1 s2 merged,
    Config.save_config (Config.mk None Config._load_default_config)
      (Some ["rdm.json"]) (session_of no_files) = (inr tt, s1)
    ∧ Config._merge_configs default_config Config._load_default_config = inr merged
    ∧ Config.__init__ (Some ["rdm.json"]) s1
      = (inr (Config.mk (Some ["rdm.json"]) (PDict merged)), s2).
Proof.
  apply (config_save_restore (Config.mk None Config._load_default_config)
           ["rdm.json"] (session_of no_files) default_config
           Config._load_default_config).
  - split; [vm_compute; reflexivity|]. constructor.
  - reflexivity.
  - vm_compute; reflexivity.
Defined.

(** X23, at work: the number of a JSON document becomes an array. *)
Lemma numpy_converter_gives_arrays_witness :
  ∃ items d,
    loader_load (mk_loader JSONLoader ["a.json"]) one_json
    = (inr (PDict items),
       (converter.convert_from NumPyConverter (mk_loader JSONLoader ["a.json"])
          one_json).2)
    ∧ PDict [("n", PArray (mk_array DInt [] [IInt 1]))] = PDict d
    ∧ keys d = keys (dict_of items)
    ∧ Forall (λ kv, ∃ a, kv.2 = PArray a) d
    ∧ ∀ l s, numpy.validate l (PDict [("n", PArray (mk_array DInt [] [IInt 1]))]) s
             = (inr true, s).
Proof.
  apply (numpy_converter_gives_arrays (mk_loader JSONLoader ["a.json"]) one_json).
  vm_compute; reflexivity.
Defined.

(** X24, at work: the batch of four files none of which is converted. *)
Lemma batch_command_reports_success_witness :
  ∃ s', cli.batch_convert_command ["in"] ["out"] (Some "json") (Some "pickle")
          (session_of batch_input) = (inr cli.Returned, s')
    ∧ stdout s' = [BatchConvertedLine ["in"] ["out"]]
    ∧ notes s' = []
    ∧ batch_successes (log (files s')) = [].
Proof.
  assert (mkdir_parents ["out"] batch_input
          = (inr tt, mk_state (<[ ["out"] := Dir ]> (fs batch_input)) []
                       [IOMkdir ["out"]])) as Hmk by (vm_compute; reflexivity).
  destruct (batch_command_reports_success ["in"] ["out"] (Some "json") (Some "pickle")
              JSON PICKLE (session_of batch_input) _ eq_refl eq_refl Hmk)
    as (s' & Hrun & Hout & Hnotes & _).
  exists s'. split; [exact Hrun|]. split; [exact Hout|]. split; [exact Hnotes|].
  assert (s' = (cli.batch_convert_command ["in"] ["out"] (Some "json") (Some "pickle")
                  (session_of batch_input)).2) as -> by (by rewrite Hrun).
  vm_compute; reflexivity.
Defined.

(** X25, at work: a JSON file is valid. *)
Lemma validate_command_status_witness :
  ∃ s', cli.validate_command ["a.json"] None (session_of one_json)
        = (inr cli.Returned, s').
Proof.
  destruct (validate_command_status ["a.json"] None AUTO (session_of one_json) eq_refl)
    as (st & s' & Hrun & _ & Hst & _).
  exists s'. rewrite Hrun, Hst. reflexivity.
Defined.

(** X26, at work: [rdm info a.json]. *)
Lemma info_command_outcomes_witness :
  cli.info_command (λ _, 0%Z) "" "" "" "" ["a.json"] None (session_of one_json)
  = (inr (cli.Exit 1), mk_session one_json [] [NoLoaderLine AUTO]).
Proof.
  apply (proj1 (info_command_outcomes (λ _, 0%Z) "" "" "" "" ["a.json"] None AUTO
                  (session_of one_json) eq_refl)).
  reflexivity.
Defined.


(** X28, at work: a JSON file in two directories that do not exist yet. *)
Lemma json_save_creates_path_witness :
  ∃ st1 st2,
    json.save (mk_loader JSONLoader ["a.json"]) (PDict [("n", PInt 2)])
      (Some ["out"; "run"; "b.json"]) one_json = (inr tt, st1)
    ∧ is_dir (fs st1) ["out"; "run"] = true
    ∧ json.load (mk_loader JSONLoader ["out"; "run"; "b.json"]) st1
      = (inr (PDict [("n", PInt 2)]), st2)
    ∧ node_at (fs st1) ["a.json"] = Some (JsonFile (PDict [("n", PInt 1)])).
Proof.
  destruct (json_save_creates_path (mk_loader JSONLoader ["a.json"])
              (PDict [("n", PInt 2)]) ["out"; "run"; "b.json"] one_json)
    as (st1 & st2 & Hsave & Hdirs & Hload & Hkeep).
  - done.
  - vm_compute; reflexivity.
  - intros a Ha. vm_compute in Ha.
    repeat (apply elem_of_cons in Ha as [->|Ha]; [vm_compute; reflexivity|]).
    by apply elem_of_nil in Ha.
  - exists st1, st2. split; [exact Hsave|]. split; [|split; [exact Hload|]].
    + rewrite Forall_forall in Hdirs. apply Hdirs. decided.
    + apply Hkeep; [done|]. vm_compute; reflexivity.
Defined.

(** X29, at work. *)
Lemma save_metadata_roundtrip_witness :
  ∃ st1 st2,
    utils.save_metadata (λ _, "") (PDict [("format_version", PStr "1.0")])
      ["meta"; "a.json"] no_files = (inr tt, st1)
    ∧ utils.load_metadata ["meta"; "a.json"] st1
      = (inr (PDict [("format_version", PStr "1.0")]), st2).
Proof.
  destruct (save_metadata_roundtrip (λ _, "") (PDict [("format_version", PStr "1.0")])
              ["meta"; "a.json"] no_files)
    as (st1 & st2 & Hsave & _ & Hload).
  - done.
  - vm_compute; reflexivity.
  - intros a Ha. vm_compute in Ha.
    repeat (apply elem_of_cons in Ha as [->|Ha]; [vm_compute; reflexivity|]).
    by apply elem_of_nil in Ha.
  - exists st1, st2. split; [exact Hsave|]. apply Hload. reflexivity.
Defined.

